(** * Market-maker quoting core: a shallow embedding and its checked properties

    The development follows the TypeScript sources of the quoting engine:
    the risk gate ([RiskManager]), the spread engine ([SpreadCalculator]),
    the sizer ([SizingCalculator]), the inventory shaper
    ([InventoryManager]), the reference-price oracle ([PriceOracle]), the
    backtest engine ([BacktestEngine]) and the live orchestrator
    ([MarketMakerLive]).

    Numbers.  Every JavaScript [number] is modelled by [num]: an exact
    rational, or one of the three special values [+Infinity], [-Infinity],
    [NaN].  Arithmetic follows IEEE-754 on the special values (division by
    zero, [Infinity - Infinity], comparisons with [NaN], ...) and is exact
    on rationals: rounding error and overflow are not modelled, and zero
    carries no sign (a zero denominator behaves as [+0]). *)

From Stdlib Require Import QArith Qabs Qround Qminmax Lqa Lia ZArith String List.
From Stdlib Require Import Permutation Sorted.
From stdpp Require Import gmap strings list fin_maps.

Open Scope Q_scope.

(** ** JavaScript numbers *)

Module JsNum.

Inductive num : Type :=
| Fin (q : Q)
| PInf
| NInf
| NaN.

Definition Qltb (a b : Q) : bool :=
  match a ?= b with Lt => true | _ => false end.

Definition nneg (a : num) : num :=
  match a with
  | Fin q => Fin (- q)
  | PInf => NInf
  | NInf => PInf
  | NaN => NaN
  end.

Definition nadd (a b : num) : num :=
  match a, b with
  | NaN, _ | _, NaN => NaN
  | Fin x, Fin y => Fin (x + y)
  | PInf, NInf | NInf, PInf => NaN
  | PInf, _ | _, PInf => PInf
  | NInf, _ | _, NInf => NInf
  end.

Definition nsub (a b : num) : num := nadd a (nneg b).

(** The sign of an infinite product or quotient: [s] is the infinity of the
    result when the finite operand is positive. *)
Definition inf_signed (s : num) (q : Q) : num :=
  if Qeq_bool q 0 then NaN else if Qltb 0 q then s else nneg s.

Definition nmul (a b : num) : num :=
  match a, b with
  | NaN, _ | _, NaN => NaN
  | Fin x, Fin y => Fin (x * y)
  | Fin x, PInf | PInf, Fin x => inf_signed PInf x
  | Fin x, NInf | NInf, Fin x => inf_signed NInf x
  | PInf, PInf | NInf, NInf => PInf
  | PInf, NInf | NInf, PInf => NInf
  end.

Definition ndiv (a b : num) : num :=
  match a, b with
  | NaN, _ | _, NaN => NaN
  | Fin x, Fin y =>
      if Qeq_bool y 0 then inf_signed PInf x else Fin (x / y)
  | Fin _, (PInf | NInf) => Fin 0
  | PInf, Fin y => if Qltb y 0 then NInf else PInf
  | NInf, Fin y => if Qltb y 0 then PInf else NInf
  | (PInf | NInf), (PInf | NInf) => NaN
  end.

(** [Math.abs] *)
Definition nabs (a : num) : num :=
  match a with
  | Fin q => Fin (Qabs q)
  | PInf | NInf => PInf
  | NaN => NaN
  end.

(** [a < b]; every comparison with [NaN] is false. *)
Definition nltb (a b : num) : bool :=
  match a, b with
  | NaN, _ | _, NaN => false
  | Fin x, Fin y => Qltb x y
  | NInf, (Fin _ | PInf) => true
  | Fin _, PInf => true
  | _, _ => false
  end.

(** [a <= b] *)
Definition nleb (a b : num) : bool :=
  match a, b with
  | NaN, _ | _, NaN => false
  | Fin x, Fin y => Qle_bool x y
  | NInf, _ | _, PInf => true
  | _, _ => false
  end.

Definition ngtb (a b : num) : bool := nltb b a.
Definition ngeb (a b : num) : bool := nleb b a.

(** [a === b] on numbers: [NaN] differs from itself. *)
Definition neqb (a b : num) : bool :=
  match a, b with
  | Fin x, Fin y => Qeq_bool x y
  | PInf, PInf | NInf, NInf => true
  | _, _ => false
  end.

(** Truthiness of a number: [0] and [NaN] are falsy. *)
Definition truthy (a : num) : bool :=
  match a with
  | Fin q => negb (Qeq_bool q 0)
  | PInf | NInf => true
  | NaN => false
  end.

(** [o || d] where [o] is a possibly [undefined] number. *)
Definition or_default (o : option num) (d : num) : num :=
  match o with
  | Some a => if truthy a then a else d
  | None => d
  end.

(** [Math.min] and [Math.max] of two numbers. *)
Definition nmin (a b : num) : num :=
  match a, b with
  | NaN, _ | _, NaN => NaN
  | _, _ => if nltb b a then b else a
  end.

Definition nmax (a b : num) : num :=
  match a, b with
  | NaN, _ | _, NaN => NaN
  | _, _ => if nltb a b then b else a
  end.

(** [Math.floor] *)
Definition nfloor (a : num) : num :=
  match a with
  | Fin q => Fin (inject_Z (Qfloor q))
  | _ => a
  end.

(** [Math.round]: the nearest integer, ties towards [+Infinity]. *)
Definition nround (a : num) : num :=
  match a with
  | Fin q => Fin (inject_Z (Qfloor (q + (1 # 2))))
  | _ => a
  end.

(** [Math.sign] *)
Definition nsign (a : num) : num :=
  match a with
  | Fin q => if Qltb 0 q then Fin 1 else if Qltb q 0 then Fin (- 1) else Fin 0
  | PInf => Fin 1
  | NInf => Fin (- 1)
  | NaN => NaN
  end.

Definition is_finite (a : num) : bool :=
  match a with Fin _ => true | _ => false end.

Definition is_nan (a : num) : bool :=
  match a with NaN => true | _ => false end.

(** Equality of numbers up to the representation of the rational. *)
Definition num_eq (a b : num) : Prop :=
  match a, b with
  | Fin x, Fin y => x == y
  | PInf, PInf | NInf, NInf | NaN, NaN => True
  | _, _ => False
  end.

(** [a <= b] as a proposition. *)
Definition num_le (a b : num) : Prop := nleb a b = true.
Definition num_lt (a b : num) : Prop := nltb a b = true.

End JsNum.

Import JsNum.

Declare Scope js_scope.
Delimit Scope js_scope with js.
Bind Scope js_scope with num.
Notation "a + b" := (nadd a b) : js_scope.
Notation "a - b" := (nsub a b) : js_scope.
Notation "a * b" := (nmul a b) : js_scope.
Notation "a / b" := (ndiv a b) : js_scope.
Notation "a <? b" := (nltb a b) : js_scope.
Notation "a <=? b" := (nleb a b) : js_scope.
Notation "a >? b" := (ngtb a b) (at level 70) : js_scope.
Notation "a >=? b" := (ngeb a b) (at level 70) : js_scope.
Notation "a =? b" := (neqb a b) : js_scope.
Notation "a == b" := (num_eq a b) : js_scope.
Notation "a <= b" := (num_le a b) : js_scope.
Notation "a < b" := (num_lt a b) : js_scope.

Coercion Fin : Q >-> num.

(** ** Configuration ([config.ts]) *)

Module Config.

Inductive QuantityMode := fixed | percentage | tiered.

Record SpreadConfig := {
  min : num;
  max : num;
  depthLevels : nat;
}.

Record RiskConfig := {
  minMarginFraction : num;
  maxExposurePerSide : num;
  maxExposurePerMarket : num;
  maxTotalExposure : num;
  minFreeCollateral : num;
}.

Record AutoHedgeConfig := {
  autoHedge_enabled : bool;
  imbalanceThreshold : num;
}.

Record AssetConfig := {
  bias : num;
}.

Inductive Source := binance | bybit | coinbase.

Record OracleConfig := {
  oracle_enabled : bool;
  sources : list Source;
  updateInterval : num;
  fallbackToOrderbook : bool;
  cacheTimeout : num;
}.

Record ClusterConfig := {
  cluster_enabled : bool;
  processGroups : list (list Z);
  workerRestartDelay : num;
  maxRestarts : nat;
}.

Record BotConfig := {
  quantityMode : QuantityMode;
  fixedSize : num;
  percentPerLevel : num;
  tieredMultipliers : list num;
  spread : SpreadConfig;
  risk : RiskConfig;
  maxLevels : nat;
  autoHedge : AutoHedgeConfig;
  requoteIntervalMs : num;
  inventorySkewEnabled : bool;
  inventorySkewFactor : num;
  requoteThreshold : num;
  assets : gmap Z AssetConfig;
  defaultBias : num;
  oracle : OracleConfig;
  cluster : ClusterConfig;
}.

(** The shipped parameter set. *)
Definition CONFIG : BotConfig := {|
  quantityMode := tiered;
  fixedSize := 0.1;
  percentPerLevel := 0.01;
  tieredMultipliers := [Fin 0.5; Fin 0.3; Fin 0.2];
  spread := {| min := 0.0015; max := 0.0125; depthLevels := 5 |};
  risk := {| minMarginFraction := 0.18;
             maxExposurePerSide := 0.25;
             maxExposurePerMarket := 0.30;
             maxTotalExposure := 0.60;
             minFreeCollateral := 100 |};
  maxLevels := 3;
  autoHedge := {| autoHedge_enabled := false; imbalanceThreshold := 0.35 |};
  requoteIntervalMs := 5000;
  inventorySkewEnabled := true;
  inventorySkewFactor := 0.002;
  requoteThreshold := 0.0002;
  assets := ∅;
  defaultBias := 0;
  oracle := {| oracle_enabled := true;
               sources := [binance; bybit];
               updateInterval := 5000;
               fallbackToOrderbook := true;
               cacheTimeout := 10000 |};
  cluster := {| cluster_enabled := false;
                processGroups := [];
                workerRestartDelay := 5000;
                maxRestarts := 5 |};
|}.

Definition USDC_MINT_INDEX : Z := 0%Z.

(** [validateConfig]: [Some msg] is the thrown error, [None] a pass. *)
Definition validateConfig (config : BotConfig) : option string :=
  if (min (spread config) >=? max (spread config))%js then
    Some "spread.min must be less than spread.max"%string
  else if ((minMarginFraction (risk config) <=? Fin 0)%js
           || (minMarginFraction (risk config) >=? Fin 1)%js)%bool then
    Some "risk.minMarginFraction must be between 0 and 1"%string
  else if ((maxLevels config <? 1)%nat || (10 <? maxLevels config)%nat)%bool then
    Some "maxLevels must be between 1 and 10"%string
  else if (match quantityMode config with tiered => true | _ => false end
           && (length (tieredMultipliers config) <? maxLevels config)%nat)%bool then
    Some "tieredMultipliers length must match or exceed maxLevels"%string
  else
    let sumMultipliers :=
      fold_left (fun a b => (a + b)%js) (tieredMultipliers config) (Fin 0) in
    if (nabs (sumMultipliers - Fin 1) >? Fin 0.01)%js then
      Some "tieredMultipliers must sum to approximately 1.0"%string
    else if ((requoteThreshold config <? Fin 0)%js
             || (requoteThreshold config >? Fin 0.01)%js)%bool then
      Some "requoteThreshold must be between 0 and 0.01 (1%)"%string
    else if (oracle_enabled (oracle config)
             && (length (sources (oracle config)) =? 0)%nat)%bool then
      Some "oracle.sources must contain at least one source"%string
    else if (cluster_enabled (cluster config)
             && (length (processGroups (cluster config)) =? 0)%nat)%bool then
      Some "cluster.processGroups must contain at least one group"%string
    else None.

End Config.

(** ** Venue SDK data ([nord-ts.d.ts]) *)

Module Nord.

Inductive Side := Bid | Ask.

Inductive FillMode := Limit | Market_ | ImmediateOrCancel | FillOrKill.

Record Balance := {
  mint : string;
  amount : num;
  availableAmount : num;
}.

Record Position := {
  pos_marketId : Z;
  pos_size : num;
  entryPrice : num;
  unrealizedPnl : num;
}.

Record Order := {
  orderId : string;
  ord_marketId : Z;
  ord_side : Side;
  ord_price : num;
  ord_size : num;
  ord_fillMode : FillMode;
  ord_isReduceOnly : bool;
  ord_timestamp : num;
}.

Record OrderbookLevel := {
  price : num;
  size : num;
}.

Record Orderbook := {
  ob_marketId : Z;
  bids : list OrderbookLevel;
  asks : list OrderbookLevel;
  ob_timestamp : num;
}.

Record Market := {
  marketId : Z;
  symbol : string;
  baseToken : string;
  quoteToken : string;
  tickSize : num;
  minSize : num;
  maxLeverage : num;
}.

(** [price] is optional: market orders carry none. *)
Record PlaceOrderParams := {
  po_marketId : Z;
  po_side : Side;
  po_fillMode : FillMode;
  po_isReduceOnly : bool;
  po_size : num;
  po_price : option num;
}.

(** The account as last fetched.  [balances] and [positions] are objects
    keyed by number; [orders] lists the entries of the object in the order
    [Object.entries] yields them (keys that are array indices first, in
    ascending order, then the other keys in insertion order); [leverage]
    is what [getLeverage] resolves to. *)
Record NordUser := {
  balances : gmap Z Balance;
  positions : gmap Z Position;
  orders : list (string * Order);
  leverage : num;
}.

End Nord.

(** ** RiskGate ([core/risk.ts]) *)

Module Risk.
Import Config Nord.

Inductive detail := DNum (n : num) | DInt (z : Z) | DStr (s : string).

Record RiskCheckResult := {
  canTrade : bool;
  reason : option string;
  details : list (string * detail);
}.

Definition allow : RiskCheckResult :=
  {| canTrade := true; reason := None; details := [] |}.

Section WithConfig.
Variable CONFIG : BotConfig.

Definition checkMarginFraction (user : NordUser) : RiskCheckResult :=
  let marginFraction := leverage user in
  if (marginFraction <? minMarginFraction (risk CONFIG))%js then
    {| canTrade := false;
       reason := Some "Margin fraction too low"%string;
       details := [("marginFraction"%string, DNum marginFraction);
                   ("required"%string, DNum (minMarginFraction (risk CONFIG)))] |}
  else allow.

Definition checkFreeCollateral (user : NordUser) : RiskCheckResult :=
  match balances user !! USDC_MINT_INDEX with
  | None =>
      {| canTrade := false;
         reason := Some "No USDC balance found"%string;
         details := [] |}
  | Some balance =>
      let freeCollateral := availableAmount balance in
      if (freeCollateral <? minFreeCollateral (risk CONFIG))%js then
        {| canTrade := false;
           reason := Some "Insufficient free collateral"%string;
           details := [("freeCollateral"%string, DNum freeCollateral);
                       ("required"%string, DNum (minFreeCollateral (risk CONFIG)))] |}
      else allow
  end.

Definition checkMarketExposure (user : NordUser) (marketId : Z) : RiskCheckResult :=
  match positions user !! marketId with
  | None => allow
  | Some position =>
      let balance := balances user !! USDC_MINT_INDEX in
      let freeCollateral := or_default (availableAmount <$> balance) (Fin 0) in
      let maxPosition := (freeCollateral * maxExposurePerMarket (risk CONFIG))%js in
      let currentExposure := nabs (pos_size position * entryPrice position)%js in
      if (currentExposure >? maxPosition)%js then
        {| canTrade := false;
           reason := Some "Market exposure limit exceeded"%string;
           details := [("marketId"%string, DInt marketId);
                       ("currentExposure"%string, DNum currentExposure);
                       ("maxPosition"%string, DNum maxPosition);
                       ("positionSize"%string, DNum (pos_size position))] |}
      else allow
  end.

(** The loop of [checkTotalExposure] over [Object.values(user.positions)].
    The terms are absolute values, so the sum does not depend on the order
    in which the positions are visited. *)
Definition totalExposure (user : NordUser) : num :=
  fold_left
    (fun totalExposure position =>
       (totalExposure + nabs (pos_size position * entryPrice position))%js)
    (snd <$> map_to_list (positions user)) (Fin 0).

(** [exposureRatio] as [checkTotalExposure] computes it. *)
Definition exposureRatio (user : NordUser) : num :=
  let balance := balances user !! USDC_MINT_INDEX in
  let totalCollateral := or_default (amount <$> balance) (Fin 0) in
  (totalExposure user / totalCollateral)%js.

Definition checkTotalExposure (user : NordUser) : RiskCheckResult :=
  let balance := balances user !! USDC_MINT_INDEX in
  let totalCollateral := or_default (amount <$> balance) (Fin 0) in
  let totalExposure := totalExposure user in
  let exposureRatio := (totalExposure / totalCollateral)%js in
  if (exposureRatio >? maxTotalExposure (risk CONFIG))%js then
    {| canTrade := false;
       reason := Some "Total exposure limit exceeded"%string;
       details := [("totalExposure"%string, DNum totalExposure);
                   ("totalCollateral"%string, DNum totalCollateral);
                   ("exposureRatio"%string, DNum exposureRatio);
                   ("maxAllowed"%string, DNum (maxTotalExposure (risk CONFIG)))] |}
  else allow.

(** [canQuote].  [fetched] is the account after [fetchInfo]; [inl msg] is
    an exception thrown by the venue ([fetchInfo] or [getLeverage]), which
    the [catch] turns into a denial. *)
Definition canQuote (fetched : string + NordUser) (marketId : Z) : RiskCheckResult :=
  match fetched with
  | inl message =>
      {| canTrade := false;
         reason := Some "Risk check error"%string;
         details := [("error"%string, DStr message)] |}
  | inr user =>
      let marginCheck := checkMarginFraction user in
      if negb (canTrade marginCheck) then marginCheck else
      let collateralCheck := checkFreeCollateral user in
      if negb (canTrade collateralCheck) then collateralCheck else
      let marketCheck := checkMarketExposure user marketId in
      if negb (canTrade marketCheck) then marketCheck else
      let totalCheck := checkTotalExposure user in
      if negb (canTrade totalCheck) then totalCheck else
      allow
  end.

Definition getPositionRatio (user : NordUser) (marketId : Z) (midPrice : num) : num :=
  match positions user !! marketId with
  | None => Fin 0
  | Some position =>
      if (pos_size position =? Fin 0)%js then Fin 0 else
      let balance := balances user !! USDC_MINT_INDEX in
      let freeCollateral := or_default (availableAmount <$> balance) (Fin 0) in
      if (freeCollateral =? Fin 0)%js then Fin 0 else
      let positionValue := (pos_size position * midPrice)%js in
      let maxPositionValue := (freeCollateral * maxExposurePerMarket (risk CONFIG))%js in
      (positionValue / maxPositionValue)%js
  end.

End WithConfig.
End Risk.

(** ** SpreadEngine ([core/spread.ts]) *)

Module Spread.
Import Config Nord.

Record SpreadCalculation := {
  spread : num;
  imbalance : num;
  bidDepth : num;
  askDepth : num;
}.

Definition sumDepth (levels : list OrderbookLevel) : num :=
  fold_left (fun sum level => (sum + size level)%js) levels (Fin 0).

Definition clamp (value min max : num) : num :=
  nmax min (nmin max value).

Section WithConfig.
Variable CONFIG : BotConfig.

Definition computeDynamicSpread (orderbook : Orderbook) : SpreadCalculation :=
  let bids := bids orderbook in
  let asks := asks orderbook in
  let depthLevels :=
    Nat.min (depthLevels (Config.spread CONFIG)) (Nat.min (length bids) (length asks)) in
  let bidDepth := sumDepth (take depthLevels bids) in
  let askDepth := sumDepth (take depthLevels asks) in
  let totalDepth := (bidDepth + askDepth)%js in
  let imbalance :=
    if (totalDepth >? Fin 0)%js then ((bidDepth - askDepth) / totalDepth)%js else Fin 0 in
  let imbalanceFactor := nabs imbalance in
  let spread :=
    (min (Config.spread CONFIG)
     + imbalanceFactor * (max (Config.spread CONFIG) - min (Config.spread CONFIG)))%js in
  let clampedSpread :=
    clamp spread (min (Config.spread CONFIG)) (max (Config.spread CONFIG)) in
  {| spread := clampedSpread;
     imbalance := imbalance;
     bidDepth := bidDepth;
     askDepth := askDepth |}.

End WithConfig.

Definition getMidPrice (orderbook : Orderbook) : option num :=
  match bids orderbook, asks orderbook with
  | bid0 :: _, ask0 :: _ =>
      let bestBid := price bid0 in
      let bestAsk := price ask0 in
      Some ((bestBid + bestAsk) / Fin 2)%js
  | _, _ => None
  end.

(** [isOrderbookHealthy].  The last branch of the inner [match] cannot be
    reached: both sides hold two levels at that point. *)
Definition isOrderbookHealthy (orderbook : Orderbook) : bool :=
  if ((length (bids orderbook) <? 2)%nat || (length (asks orderbook) <? 2)%nat)%bool
  then false else
  match getMidPrice orderbook with
  | None => false
  | Some midPrice =>
      if negb (truthy midPrice) then false else
      match bids orderbook, asks orderbook with
      | bid0 :: _, ask0 :: _ =>
          let bestBid := price bid0 in
          let bestAsk := price ask0 in
          let currentSpread := ((bestAsk - bestBid) / midPrice)%js in
          if (currentSpread >? Fin 0.05)%js then false else true
      | _, _ => false
      end
  end.

(** [getOrderbookImbalance(orderbook, levels)]; [levels] defaults to 5. *)
Definition getOrderbookImbalance (orderbook : Orderbook) (levels : nat) : num :=
  let bidDepth := sumDepth (take levels (bids orderbook)) in
  let askDepth := sumDepth (take levels (asks orderbook)) in
  let totalDepth := (bidDepth + askDepth)%js in
  if (totalDepth >? Fin 0)%js then ((bidDepth - askDepth) / totalDepth)%js else Fin 0.

Definition defaultImbalanceLevels : nat := 5.

End Spread.

(** ** Sizer ([core/sizing.ts]) *)

Module Sizing.
Import Config Nord.

Record LevelSize := {
  level : nat;
  size : num;
}.

(** [roundSize(size, minSize, stepSize)] *)
Definition roundSize (size minSize stepSize : num) : num :=
  if (size <? minSize)%js then minSize else
  let steps := nfloor (size / stepSize)%js in
  (steps * stepSize)%js.

(** The default of the third parameter of [roundSize]. *)
Definition defaultStepSize : num := 0.01.

Definition getTotalSize (levelSizes : list LevelSize) : num :=
  fold_left (fun sum ls => (sum + size ls)%js) levelSizes (Fin 0).

Section WithConfig.
Variable CONFIG : BotConfig.

Definition calculateFixedSizes : list LevelSize :=
  (fun i => {| level := i; size := fixedSize CONFIG |}) <$> seq 0 (maxLevels CONFIG).

Definition calculatePercentageSizes (freeCollateral : num) : list LevelSize :=
  let sizePerLevel := (freeCollateral * percentPerLevel CONFIG)%js in
  (fun i => {| level := i; size := sizePerLevel |}) <$> seq 0 (maxLevels CONFIG).

Definition calculateTieredSizes (freeCollateral : num) : list LevelSize :=
  let maxPosition := (freeCollateral * maxExposurePerMarket (risk CONFIG))%js in
  (fun i =>
     let multiplier := or_default (tieredMultipliers CONFIG !! i) (Fin 0) in
     {| level := i; size := (maxPosition * multiplier)%js |})
  <$> seq 0 (maxLevels CONFIG).

Definition calculateLevelSizes (user : NordUser) (marketId : Z) : list LevelSize :=
  let balance := balances user !! USDC_MINT_INDEX in
  let freeCollateral := or_default (availableAmount <$> balance) (Fin 0) in
  if (freeCollateral =? Fin 0)%js then [] else
  match quantityMode CONFIG with
  | fixed => calculateFixedSizes
  | percentage => calculatePercentageSizes freeCollateral
  | tiered => calculateTieredSizes freeCollateral
  end.

Definition validateSizes (levelSizes : list LevelSize) (freeCollateral midPrice : num) : bool :=
  let totalSize := getTotalSize levelSizes in
  let totalValue := (totalSize * midPrice)%js in
  let maxAllowed := (freeCollateral * maxExposurePerSide (risk CONFIG))%js in
  if (totalValue >? maxAllowed)%js then false else true.

End WithConfig.
End Sizing.

(** ** InventoryShaper ([core/inventory.ts], the version with bias) *)

Module Inventory.
Import Config Nord.

Record SkewedPrice := {
  bidPrice : num;
  askPrice : num;
  skewFactor : num;
  bias : num;
  positionRatio : num;
}.

Record InventoryStatus := {
  hasPosition : bool;
  positionSize : num;
  positionValue : num;
  status_positionRatio : num;
  needsSkew : bool;
  status_bias : num;
}.

Section WithConfig.
Variable CONFIG : BotConfig.

Definition applyInventorySkew
    (user : NordUser) (marketId : Z) (basePrice spread : num) : SkewedPrice :=
  let bias := or_default (Config.bias <$> assets CONFIG !! marketId) (defaultBias CONFIG) in
  if negb (inventorySkewEnabled CONFIG) then
    let bidPrice := (basePrice * (Fin 1 - spread / Fin 2 + bias))%js in
    let askPrice := (basePrice * (Fin 1 + spread / Fin 2 + bias))%js in
    {| bidPrice := bidPrice;
       askPrice := askPrice;
       skewFactor := Fin 0;
       bias := bias;
       positionRatio := Fin 0 |}
  else
    let positionRatio := Risk.getPositionRatio CONFIG user marketId basePrice in
    let skewFactor :=
      if (nabs positionRatio >? Fin 0.05)%js
      then (positionRatio * inventorySkewFactor CONFIG)%js
      else Fin 0 in
    let totalAdjustment := (skewFactor + bias)%js in
    let adjustedBasePrice := (basePrice * (Fin 1 + totalAdjustment))%js in
    let bidPrice := (adjustedBasePrice * (Fin 1 - spread / Fin 2))%js in
    let askPrice := (adjustedBasePrice * (Fin 1 + spread / Fin 2))%js in
    {| bidPrice := bidPrice;
       askPrice := askPrice;
       skewFactor := skewFactor;
       bias := bias;
       positionRatio := positionRatio |}.

Definition needsHedge (user : NordUser) (marketId : Z) (midPrice : num) : bool :=
  if negb (autoHedge_enabled (autoHedge CONFIG)) then false else
  let positionRatio := Risk.getPositionRatio CONFIG user marketId midPrice in
  (nabs positionRatio >? imbalanceThreshold (autoHedge CONFIG))%js.

Definition getInventoryStatus (user : NordUser) (marketId : Z) (midPrice : num)
    : InventoryStatus :=
  let bias := or_default (Config.bias <$> assets CONFIG !! marketId) (defaultBias CONFIG) in
  let flat :=
    {| hasPosition := false;
       positionSize := Fin 0;
       positionValue := Fin 0;
       status_positionRatio := Fin 0;
       needsSkew := false;
       status_bias := bias |} in
  match positions user !! marketId with
  | None => flat
  | Some position =>
      if (pos_size position =? Fin 0)%js then flat else
      let positionRatio := Risk.getPositionRatio CONFIG user marketId midPrice in
      let positionValue := (pos_size position * midPrice)%js in
      let needsSkew := (nabs positionRatio >? Fin 0.05)%js in
      {| hasPosition := true;
         positionSize := pos_size position;
         positionValue := positionValue;
         status_positionRatio := positionRatio;
         needsSkew := needsSkew;
         status_bias := bias |}
  end.

End WithConfig.
End Inventory.

(** ** HedgeExecutor ([core/hedging.ts]) *)

Module Hedging.
Import Config Nord.

Section WithConfig.
Variable CONFIG : BotConfig.

(** [executeHedge(user, marketId, midPrice)]: the result is the order the
    function passes to [placeOrder], if it gets that far.  An exception of
    [placeOrder] is caught and logged. *)
Definition executeHedge (user : NordUser) (marketId : Z) (midPrice : num)
    : option PlaceOrderParams :=
  if negb (autoHedge_enabled (autoHedge CONFIG)) then None else
  match positions user !! marketId with
  | None => None
  | Some position =>
      if (pos_size position =? Fin 0)%js then None else
      let hedgeSide := if (pos_size position >? Fin 0)%js then Ask else Bid in
      let hedgeSize := (nabs (pos_size position) * Fin 0.3)%js in
      Some {| po_marketId := marketId;
              po_side := hedgeSide;
              po_fillMode := Market_;
              po_isReduceOnly := true;
              po_size := hedgeSize;
              po_price := None |}
  end.

(** [shouldHedge(position, midPrice, freeCollateral)]; of [position] the
    function reads [size] only. *)
Definition shouldHedge (positionSize midPrice freeCollateral : num) : bool :=
  if negb (autoHedge_enabled (autoHedge CONFIG)) then false else
  let positionValue := nabs (positionSize * midPrice)%js in
  let maxPosition := (freeCollateral * maxExposurePerMarket (risk CONFIG))%js in
  let positionRatio := (positionValue / maxPosition)%js in
  (positionRatio >? imbalanceThreshold (autoHedge CONFIG))%js.

End WithConfig.
End Hedging.

(** ** PriceOracle ([core/priceOracle.ts]) *)

Module Oracle.
Import Config.

Record ExchangePrice := {
  bid : num;
  ask : num;
  mid : num;
  spread : num;
  volume24h : num;
  timestamp : num;
  source : string;
}.

(** [xs.sort((a, b) => a - b)].  [Array.prototype.sort] is a stable sort
    by the comparator: [a] goes after [b] exactly when the comparator is
    positive on [(a, b)].  Insertion from the right computes that list. *)
Definition comparator (a b : num) : num := (a - b)%js.

Fixpoint insert (x : num) (l : list num) : list num :=
  match l with
  | [] => [x]
  | y :: l' =>
      if (comparator x y >? Fin 0)%js then y :: insert x l' else x :: y :: l'
  end.

Fixpoint sort (l : list num) : list num :=
  match l with
  | [] => []
  | x :: l' => insert x (sort l')
  end.

(** [xs.length] as a number. *)
Definition length_num {A} (xs : list A) : num := Fin (inject_Z (Z.of_nat (length xs))).

(** [aggregatePrices(prices)]; [now] is what [Date.now()] returns.  An index
    past the end reads [undefined], which arithmetic turns into [NaN]; this
    happens on the empty list only, and [getPrice] never passes it. *)
Definition aggregatePrices (now : num) (prices : list ExchangePrice) : ExchangePrice :=
  let mids := sort (mid <$> prices) in
  let bids := sort (bid <$> prices) in
  let asks := sort (ask <$> prices) in
  let medianIndex := (length prices / 2)%nat in
  let bid := nth medianIndex bids NaN in
  let ask := nth medianIndex asks NaN in
  let mid := nth medianIndex mids NaN in
  let totalVolume := fold_left (fun sum p => (sum + volume24h p)%js) prices (Fin 0) in
  let avgVolume := (totalVolume / length_num prices)%js in
  {| bid := bid;
     ask := ask;
     mid := mid;
     spread := ((ask - bid) / mid)%js;
     volume24h := avgVolume;
     timestamp := now;
     source := ("aggregated(" ++ String.concat "," (source <$> prices) ++ ")")%string |}.

(** What the outside world answers during one [getPrice]: the clock at the
    cache check, the clock at aggregation, and, per source, the price
    [fetchFromSource] resolves to ([None] for [null]; a thrown error is
    caught there and becomes [null] as well). *)
Record World := {
  now : num;
  now_aggregate : num;
  fetchFromSource : string -> Source -> option ExchangePrice;
}.

Record Outcome := {
  result : option ExchangePrice;
  cache_after : gmap string ExchangePrice;
  queried : list (string * Source);
}.

Section WithConfig.
Variable config : OracleConfig.

Definition cacheHit (w : World) (cached : option ExchangePrice) : bool :=
  match cached with
  | Some c => (now w - timestamp c <? cacheTimeout config)%js
  | None => false
  end.

Definition getPrice (w : World) (cache : gmap string ExchangePrice) (symbol : string)
    : Outcome :=
  let cached := cache !! symbol in
  if cacheHit w cached then
    {| result := cached; cache_after := cache; queried := [] |}
  else
    let results := (fun source => fetchFromSource w symbol source) <$> sources config in
    let queries := (fun source => (symbol, source)) <$> sources config in
    let prices := omap (fun r => r) results in
    if (length prices =? 0)%nat then
      {| result := cached; cache_after := cache; queried := queries |}
    else
      let aggregatedPrice := aggregatePrices (now_aggregate w) prices in
      {| result := Some aggregatedPrice;
         cache_after := <[symbol := aggregatedPrice]> cache;
         queried := queries |}.

Definition getPriceAge (w : World) (cache : gmap string ExchangePrice) (symbol : string) : num :=
  match cache !! symbol with
  | None => PInf
  | Some cached => (now w - timestamp cached)%js
  end.

Definition isPriceFresh (w : World) (cache : gmap string ExchangePrice) (symbol : string) : bool :=
  (getPriceAge w cache symbol <? cacheTimeout config)%js.

End WithConfig.

End Oracle.

(** ** BacktestEngine ([backtest/engine.ts]) *)

Module Backtest.

Inductive side := bid | ask.

Record HistoricalBar := {
  bar_timestamp : num;
  open : num;
  high : num;
  low : num;
  close : num;
  volume : num;
  bar_bidDepth : num;
  bar_askDepth : num;
}.

Record BacktestOrder := {
  id : string;
  order_side : side;
  price : num;
  size : num;
  timestamp : num;
  filled : bool;
  fillPrice : option num;
  fillTimestamp : option num;
}.

Record BacktestPosition := {
  pos_size : num;
  entryPrice : num;
  realizedPnl : num;
  unrealizedPnl : num;
}.

(** The mutable fields of the engine that fills touch. *)
Record Engine := {
  position : BacktestPosition;
  balance : num;
}.

Definition calculateFillProbability (order : BacktestOrder) (bar : HistoricalBar) : num :=
  match order_side order with
  | bid =>
      if (low bar <=? price order)%js then Fin 0.8
      else if (close bar <? price order)%js then Fin 0.3
      else Fin 0.05
  | ask =>
      if (high bar >=? price order)%js then Fin 0.8
      else if (close bar >? price order)%js then Fin 0.3
      else Fin 0.05
  end.

(** [fillOrder(order, bar)]: the order object and the engine are both
    mutated; the function returns the two after the call. *)
Definition fillOrder (e : Engine) (order : BacktestOrder) (bar : HistoricalBar)
    : Engine * BacktestOrder :=
  let order' :=
    {| id := id order; order_side := order_side order; price := price order;
       size := size order; timestamp := timestamp order;
       filled := true;
       fillPrice := Some (price order);
       fillTimestamp := Some (bar_timestamp bar) |} in
  let sizeChange := match order_side order with bid => size order | ask => nneg (size order) end in
  let oldSize := pos_size (position e) in
  let newSize := (oldSize + sizeChange)%js in
  let '(realizedPnl1, balance1) :=
    if (((oldSize >? Fin 0)%js && (sizeChange <? Fin 0)%js)
        || ((oldSize <? Fin 0)%js && (sizeChange >? Fin 0)%js))%bool then
      let closedSize := nmin (nabs oldSize) (nabs sizeChange) in
      let pnl :=
        if (oldSize >? Fin 0)%js
        then (closedSize * (price order - entryPrice (position e)))%js
        else (closedSize * (entryPrice (position e) - price order))%js in
      ((realizedPnl (position e) + pnl)%js, (balance e + pnl)%js)
    else (realizedPnl (position e), balance e) in
  let '(size1, entry1) :=
    if (newSize =? Fin 0)%js then (Fin 0, Fin 0)
    else if negb (nsign newSize =? nsign oldSize)%js then (newSize, price order)
    else if (nabs newSize >? nabs oldSize)%js then
      let weightedPrice :=
        ((oldSize * entryPrice (position e) + sizeChange * price order) / newSize)%js in
      (newSize, weightedPrice)
    else (newSize, entryPrice (position e)) in
  ({| position := {| pos_size := size1; entryPrice := entry1;
                     realizedPnl := realizedPnl1;
                     unrealizedPnl := unrealizedPnl (position e) |};
      balance := balance1 |},
   order').

(** [checkFills(bar)]: one sweep over [this.orders]; [draws] are the
    successive values of [Math.random()], consumed by unfilled orders only.
    A sweep that runs out of draws leaves the remaining orders untouched. *)
Fixpoint checkFills (e : Engine) (orders : list BacktestOrder) (bar : HistoricalBar)
    (draws : list num) : Engine * list BacktestOrder :=
  match orders with
  | [] => (e, [])
  | order :: rest =>
      if filled order then
        let '(e', rest') := checkFills e rest bar draws in (e', order :: rest')
      else
        match draws with
        | [] => (e, orders)
        | u :: draws' =>
            let fillProbability := calculateFillProbability order bar in
            if (u <? fillProbability)%js then
              let '(e1, order') := fillOrder e order bar in
              let '(e', rest') := checkFills e1 rest bar draws' in (e', order' :: rest')
            else
              let '(e', rest') := checkFills e rest bar draws' in (e', order :: rest')
        end
  end.

(** [updateUnrealizedPnl(currentPrice)] *)
Definition updateUnrealizedPnl (e : Engine) (currentPrice : num) : Engine :=
  let p := position e in
  let pnl :=
    if (pos_size p =? Fin 0)%js then Fin 0
    else if (pos_size p >? Fin 0)%js
         then (pos_size p * (currentPrice - entryPrice p))%js
         else (pos_size p * (entryPrice p - currentPrice))%js in
  {| position := {| pos_size := pos_size p; entryPrice := entryPrice p;
                    realizedPnl := realizedPnl p;
                    unrealizedPnl := pnl |};
     balance := balance e |}.

(** The max-drawdown loop of [calculateMetrics] over [this.equity].  The
    peak starts as [equity[0]], which is [undefined] on an empty array;
    the loop body does not run then. *)
Definition maxDrawdownStep (acc : num * num) (equity : num) : num * num :=
  let '(maxDrawdown, peak) := acc in
  let peak := if (equity >? peak)%js then equity else peak in
  let drawdown := ((peak - equity) / peak)%js in
  let maxDrawdown := if (drawdown >? maxDrawdown)%js then drawdown else maxDrawdown in
  (maxDrawdown, peak).

Definition maxDrawdown (equity : list num) : num :=
  fst (fold_left maxDrawdownStep equity (Fin 0, nth 0 equity NaN)).

End Backtest.

(** ** MetricsCalculator ([backtest/metrics.ts]) *)

Module Metrics.

Record RiskMetrics := {
  maxDrawdown : num;
  avgDrawdown : num;
  drawdownDuration : num;
  calmarRatio : num;
}.

(** The local variables of the loop of [calculateRiskMetrics]. *)
Record Loop := {
  l_maxDrawdown : num;
  currentDrawdown : num;
  drawdownStart : num;
  maxDrawdownDuration : num;
  totalDrawdown : num;
  drawdownCount : num;
  peak : num;
}.

(** One iteration, at index [i] on [equity[i]]. *)
Definition riskStep (s : Loop) (i : num) (equity_i : num) : Loop :=
  if (equity_i >? peak s)%js then
    if (currentDrawdown s >? Fin 0)%js then
      {| l_maxDrawdown := l_maxDrawdown s;
         currentDrawdown := Fin 0;
         drawdownStart := drawdownStart s;
         maxDrawdownDuration := nmax (maxDrawdownDuration s) (i - drawdownStart s)%js;
         totalDrawdown := (totalDrawdown s + currentDrawdown s)%js;
         drawdownCount := (drawdownCount s + Fin 1)%js;
         peak := equity_i |}
    else
      {| l_maxDrawdown := l_maxDrawdown s;
         currentDrawdown := currentDrawdown s;
         drawdownStart := drawdownStart s;
         maxDrawdownDuration := maxDrawdownDuration s;
         totalDrawdown := totalDrawdown s;
         drawdownCount := drawdownCount s;
         peak := equity_i |}
  else
    let drawdownStart := if (currentDrawdown s =? Fin 0)%js then i else drawdownStart s in
    let currentDrawdown := ((peak s - equity_i) / peak s)%js in
    {| l_maxDrawdown := nmax (l_maxDrawdown s) currentDrawdown;
       currentDrawdown := currentDrawdown;
       drawdownStart := drawdownStart;
       maxDrawdownDuration := maxDrawdownDuration s;
       totalDrawdown := totalDrawdown s;
       drawdownCount := drawdownCount s;
       peak := peak s |}.

(** The loop from index [i] on, over the rest of the array. *)
Fixpoint riskLoop (s : Loop) (i : nat) (rest : list num) : Loop :=
  match rest with
  | [] => s
  | equity_i :: rest' =>
      riskLoop (riskStep s (Fin (inject_Z (Z.of_nat i))) equity_i) (S i) rest'
  end.

(** [calculateRiskMetrics(equity)].  [equity[0]] and
    [equity[equity.length - 1]] are [undefined] on an empty array, which
    arithmetic turns into [NaN]. *)
Definition calculateRiskMetrics (equity : list num) : RiskMetrics :=
  let init :=
    {| l_maxDrawdown := Fin 0;
       currentDrawdown := Fin 0;
       drawdownStart := Fin 0;
       maxDrawdownDuration := Fin 0;
       totalDrawdown := Fin 0;
       drawdownCount := Fin 0;
       peak := nth 0 equity NaN |} in
  let s := riskLoop init 0 equity in
  let avgDrawdown :=
    if (drawdownCount s >? Fin 0)%js then (totalDrawdown s / drawdownCount s)%js else Fin 0 in
  let totalReturn := ((List.last equity NaN - nth 0 equity NaN) / nth 0 equity NaN)%js in
  let calmarRatio :=
    if (l_maxDrawdown s >? Fin 0)%js then (totalReturn / l_maxDrawdown s)%js else Fin 0 in
  {| maxDrawdown := l_maxDrawdown s;
     avgDrawdown := avgDrawdown;
     drawdownDuration := maxDrawdownDuration s;
     calmarRatio := calmarRatio |}.

End Metrics.

(** ** QuoteEngine ([strategies/marketMakerLive.ts]) *)

Module Live.
Import Config.

Record QuoteLevel := {
  price : num;
  size : num;
}.

Record Quotes := {
  bids : list QuoteLevel;
  asks : list QuoteLevel;
}.

Record MarketQuotes := {
  mq_marketId : Z;
  mq_bids : list QuoteLevel;
  mq_asks : list QuoteLevel;
  mq_timestamp : num;
}.

Record LastQuotePrices := {
  bid : num;
  ask : num;
  timestamp : num;
}.

(** The fields of [MarketMakerLive] that a quote cycle reads or writes. *)
Record State := {
  user : Nord.NordUser;
  activeMarkets : gmap Z Nord.Market;
  currentQuotes : gmap Z MarketQuotes;
  lastQuotePrices : gmap Z LastQuotePrices;
}.

(** What a quote cycle does, in program order: writes to the two per-market
    maps and calls to the venue.  A venue call that throws is caught and
    logged where it is made, so the call itself is what the trace records. *)
Inductive Event :=
| SetLastQuotePrices (marketId : Z) (prices : LastQuotePrices)
| FetchInfo
| CancelOrder (orderId : string)
| PlaceOrder (params : Nord.PlaceOrderParams)
| SetCurrentQuotes (marketId : Z) (quotes : MarketQuotes).

Definition isPlaceOrder (e : Event) : bool :=
  match e with PlaceOrder _ => true | _ => false end.

(** What the collaborators answer during one [requote]: the value
    [getMidPrice] resolves to, the clock when the quote prices are stored,
    the account [fetchInfo] loads inside [cancelMarketOrders] ([None] when
    it throws), and the clock when the ladder is recorded. *)
Record World := {
  midPrice : option num;
  now_stored : num;
  fetched : option Nord.NordUser;
  now_recorded : num;
}.

Definition roundPrice (price tickSize : num) : num :=
  (nround (price / tickSize) * tickSize)%js.

(** [i + 1] for a loop counter. *)
Definition succ_num (i : nat) : num := Fin (inject_Z (Z.of_nat (S i))).

(** [s.replace(pattern, replacement)] for a string pattern and a
    replacement without [$]: the first occurrence of the pattern, if any,
    is replaced. *)
Fixpoint replace_first (pattern replacement s : string) : string :=
  if String.prefix pattern s then
    (replacement ++ String.substring (String.length pattern)
                      (String.length s - String.length pattern) s)%string
  else
    match s with
    | EmptyString => EmptyString
    | String c rest => String c (replace_first pattern replacement rest)
    end.

(** What the collaborators answer during one [handleOrderbookUpdate]: the
    account [fetchInfo] loads at the start of [canQuote] ([inl] with the
    message when it throws), the message [getLeverage] throws, if it does,
    the answers during the [requote], and the value the second
    [getMidPrice] resolves to. *)
Record HandlerWorld := {
  riskFetched : string + Nord.NordUser;
  leverageError : option string;
  requoteWorld : World;
  midAfter : option num;
}.

Section WithConfig.
Variable CONFIG : BotConfig.

Definition shouldRequote (st : State) (marketId : Z) (newBidPrice newAskPrice : num) : bool :=
  match lastQuotePrices st !! marketId with
  | None => true
  | Some lastPrices =>
      let bidChange := (nabs (newBidPrice - bid lastPrices) / bid lastPrices)%js in
      let askChange := (nabs (newAskPrice - ask lastPrices) / ask lastPrices)%js in
      ((bidChange >? requoteThreshold CONFIG)%js
       || (askChange >? requoteThreshold CONFIG)%js)%bool
  end.

Definition generateQuoteLevels
    (baseBidPrice baseAskPrice spread : num) (levelSizes : list Sizing.LevelSize) : Quotes :=
  let n := Nat.min (maxLevels CONFIG) (length levelSizes) in
  let spacing i := (spread * succ_num i * Fin 0.5)%js in
  {| bids := imap (fun i ls =>
                     {| price := (baseBidPrice * (Fin 1 - spacing i))%js;
                        size := Sizing.size ls |}) (take n levelSizes);
     asks := imap (fun i ls =>
                     {| price := (baseAskPrice * (Fin 1 + spacing i))%js;
                        size := Sizing.size ls |}) (take n levelSizes) |}.

Definition placeOne (market : Nord.Market) (marketId : Z) (side : Nord.Side)
    (q : QuoteLevel) : Event :=
  let roundedPrice := roundPrice (price q) (Nord.tickSize market) in
  let roundedSize := Sizing.roundSize (size q) (Nord.minSize market) Sizing.defaultStepSize in
  PlaceOrder {| Nord.po_marketId := marketId;
                Nord.po_side := side;
                Nord.po_fillMode := Nord.Limit;
                Nord.po_isReduceOnly := false;
                Nord.po_size := roundedSize;
                Nord.po_price := Some roundedPrice |}.

Definition placeQuotes (st : State) (marketId : Z) (quotes : Quotes) : list Event :=
  match activeMarkets st !! marketId with
  | None => []
  | Some market =>
      (placeOne market marketId Nord.Bid <$> bids quotes)
      ++ (placeOne market marketId Nord.Ask <$> asks quotes)
  end.

Definition cancelMarketOrders (w : World) (st : State) (marketId : Z)
    : State * list Event :=
  match fetched w with
  | None => (st, [FetchInfo])
  | Some user' =>
      let marketOrders :=
        filter (fun entry => Nord.ord_marketId (snd entry) = marketId) (Nord.orders user') in
      ({| user := user';
          activeMarkets := activeMarkets st;
          currentQuotes := currentQuotes st;
          lastQuotePrices := lastQuotePrices st |},
       FetchInfo :: (CancelOrder ∘ fst <$> marketOrders))
  end.

Definition requote (w : World) (st : State) (marketId : Z) (orderbook : Nord.Orderbook)
    : State * list Event :=
  match midPrice w with
  | None => (st, [])
  | Some midPrice =>
      if negb (truthy midPrice) then (st, []) else
      let sc := Spread.computeDynamicSpread CONFIG orderbook in
      let spread := Spread.spread sc in
      let sk := Inventory.applyInventorySkew CONFIG (user st) marketId midPrice spread in
      let bidPrice := Inventory.bidPrice sk in
      let askPrice := Inventory.askPrice sk in
      if negb (shouldRequote st marketId bidPrice askPrice) then (st, []) else
      let stored := {| bid := bidPrice; ask := askPrice; timestamp := now_stored w |} in
      let st1 :=
        {| user := user st;
           activeMarkets := activeMarkets st;
           currentQuotes := currentQuotes st;
           lastQuotePrices := <[marketId := stored]> (lastQuotePrices st) |} in
      let '(st2, cancels) := cancelMarketOrders w st1 marketId in
      let before := SetLastQuotePrices marketId stored :: cancels in
      let levelSizes := Sizing.calculateLevelSizes CONFIG (user st2) marketId in
      if (length levelSizes =? 0)%nat then (st2, before) else
      let available :=
        or_default (Nord.availableAmount <$> Nord.balances (user st2) !! 0%Z) (Fin 0) in
      if negb (Sizing.validateSizes CONFIG levelSizes available midPrice)
      then (st2, before) else
      let quotes := generateQuoteLevels bidPrice askPrice spread levelSizes in
      let placed := placeQuotes st2 marketId quotes in
      let recorded :=
        {| mq_marketId := marketId;
           mq_bids := bids quotes;
           mq_asks := asks quotes;
           mq_timestamp := now_recorded w |} in
      ({| user := user st2;
          activeMarkets := activeMarkets st2;
          currentQuotes := <[marketId := recorded]> (currentQuotes st2);
          lastQuotePrices := lastQuotePrices st2 |},
       before ++ placed ++ [SetCurrentQuotes marketId recorded])
  end.

(** [getMidPrice(marketId, orderbook)].  The oracle's cache is state of
    the [PriceOracle] object, so it is passed in and returned; [ow] is the
    world of the [getPrice] call and [ow_fresh] the one of the freshness
    test that follows it (a later reading of the clock). *)
Definition getMidPrice (ow ow_fresh : Oracle.World) (st : State)
    (cache : gmap string Oracle.ExchangePrice) (marketId : Z) (orderbook : Nord.Orderbook)
    : option num * gmap string Oracle.ExchangePrice :=
  match activeMarkets st !! marketId with
  | None => (None, cache)
  | Some market =>
      if oracle_enabled (oracle CONFIG) then
        let symbol := replace_first "-PERP" "" (Nord.symbol market) in
        let fetched := Oracle.getPrice (oracle CONFIG) ow cache symbol in
        let cache' := Oracle.cache_after fetched in
        match Oracle.result fetched with
        | Some cexPrice =>
            if Oracle.isPriceFresh (oracle CONFIG) ow_fresh cache' symbol
            then (Some (Oracle.mid cexPrice), cache')
            else if negb (fallbackToOrderbook (oracle CONFIG)) then (None, cache')
            else (Spread.getMidPrice orderbook, cache')
        | None =>
            if negb (fallbackToOrderbook (oracle CONFIG)) then (None, cache')
            else (Spread.getMidPrice orderbook, cache')
        end
      else (Spread.getMidPrice orderbook, cache)
  end.

(** [handleOrderbookUpdate(orderbook)]: the health check, the risk check,
    the requote and the hedge.  [canQuote] starts with [fetchInfo], which
    replaces the account when it succeeds; the hedge reads the reference
    price of a second [getMidPrice].  The trace records [fetchInfo],
    [cancelOrder], [placeOrder] and the writes to the quote maps.  The
    query [getLeverage], which [canQuote] awaits after [fetchInfo], is not
    an event of the trace: its answer is the [leverage] of the account, or
    the [leverageError] of the world when it throws. *)
Definition handleOrderbookUpdate (w : HandlerWorld) (st : State) (orderbook : Nord.Orderbook)
    : State * list Event :=
  let marketId := Nord.ob_marketId orderbook in
  match activeMarkets st !! marketId with
  | None => (st, [])
  | Some _ =>
      if negb (Spread.isOrderbookHealthy orderbook) then (st, []) else
      let st1 :=
        match riskFetched w with
        | inl _ => st
        | inr account =>
            {| user := account;
               activeMarkets := activeMarkets st;
               currentQuotes := currentQuotes st;
               lastQuotePrices := lastQuotePrices st |}
        end in
      let seen :=
        match riskFetched w, leverageError w with
        | inl message, _ => inl message
        | inr _, Some message => inl message
        | inr account, None => inr account
        end in
      let riskCheck := Risk.canQuote CONFIG seen marketId in
      if negb (Risk.canTrade riskCheck) then (st1, [FetchInfo]) else
      let '(st2, quoted) := requote (requoteWorld w) st1 marketId orderbook in
      let hedged :=
        match midAfter w with
        | None => []
        | Some midPrice =>
            if (truthy midPrice && Inventory.needsHedge CONFIG (user st2) marketId midPrice)%bool
            then match Hedging.executeHedge CONFIG (user st2) marketId midPrice with
                 | Some order => [PlaceOrder order]
                 | None => []
                 end
            else []
        end in
      (st2, FetchInfo :: quoted ++ hedged)
  end.

End WithConfig.
End Live.


(** ** Definitions used to state the properties *)

(** The target prices [requote] computes from a reference price: the
    [bidPrice] and [askPrice] of [applyInventorySkew] at the dynamic
    spread. *)
Definition targetPrices (CONFIG : Config.BotConfig) (st : Live.State) (marketId : Z)
    (orderbook : Nord.Orderbook) (midPrice : num) : num * num :=
  let sk :=
    Inventory.applyInventorySkew CONFIG (Live.user st) marketId midPrice
      (Spread.spread (Spread.computeDynamicSpread CONFIG orderbook)) in
  (Inventory.bidPrice sk, Inventory.askPrice sk).

(** The spread rule in the words of the specification, over exact
    rationals: [depth d sizes] is the sum of the top [d] sizes, [imbalance]
    is [(B - A) / (B + A)] and [0] when [B + A = 0], and [spread] is
    [min + |imbalance| * (max - min)] clamped to [[min, max]]. *)
Module SpreadSpec.

Definition depth (d : nat) (sizes : list Q) : Q :=
  foldr Qplus 0 (take d sizes).

Definition imbalance (B A : Q) : Q :=
  if Qeq_bool (B + A) 0 then 0 else (B - A) / (B + A).

Definition clamp (lo hi v : Q) : Q := Qmax lo (Qmin hi v).

Definition spread (lo hi imb : Q) : Q :=
  clamp lo hi (lo + Qabs imb * (hi - lo)).

End SpreadSpec.



(** Top of book: [bids[0].price] and [asks[0].price]. *)
Definition bestBid (orderbook : Nord.Orderbook) : option num :=
  Nord.price <$> head (Nord.bids orderbook).

Definition bestAsk (orderbook : Nord.Orderbook) : option num :=
  Nord.price <$> head (Nord.asks orderbook).

(** What the specification promises of a book that passes the health
    check: best bid strictly below best ask, a mid price, two levels per
    side, and a top-of-book spread [(bestAsk - bestBid) / mid] of at most
    [0.05]. *)
Definition healthy_as_specified (orderbook : Nord.Orderbook) : Prop :=
  exists b a m,
    bestBid orderbook = Some b
    /\ bestAsk orderbook = Some a
    /\ Spread.getMidPrice orderbook = Some m
    /\ (b < a)%js
    /\ (2 <= length (Nord.bids orderbook))%nat
    /\ (2 <= length (Nord.asks orderbook))%nat
    /\ ((a - b) / m <= Fin 0.05)%js.

(** A round trip of the backtest: [bidOrder] is filled on [bar1], and the
    next fill is [askOrder] on [bar2]. *)
Definition roundTrip (e : Backtest.Engine) (bidOrder askOrder : Backtest.BacktestOrder)
    (bar1 bar2 : Backtest.HistoricalBar) : Backtest.Engine :=
  fst (Backtest.fillOrder (fst (Backtest.fillOrder e bidOrder bar1)) askOrder bar2).

(** The sizes of the orders a trace sends to the venue. *)
Definition placedSizes (events : list Live.Event) : list num :=
  omap (fun e => match e with
                 | Live.PlaceOrder params => Some (Nord.po_size params)
                 | _ => None
                 end) events.

(** No element of [l] is [NaN]. *)
Definition no_nan (l : list num) : Prop := Forall (fun x => is_nan x = false) l.

(** [s] is the list [xs] sorted in ascending order.  A list that holds a
    [NaN] has no ascending order, [NaN] being comparable with nothing; [s]
    is then only required to be a rearrangement of [xs]. *)
Definition ascending_of (xs s : list num) : Prop :=
  s ≡ₚ xs /\ (no_nan xs -> Sorted num_le s).

(** The arithmetic mean of a list of numbers. *)
Definition mean (xs : list num) : num :=
  (foldr nadd (Fin 0) xs / Oracle.length_num xs)%js.

(** How many elements of [l] are [<= x]. *)
Fixpoint count_le (x : num) (l : list num) : nat :=
  match l with
  | [] => 0
  | y :: l' => if (y <=? x)%js then S (count_le x l') else count_le x l'
  end.

(** ** Concrete data *)

Module Examples.

Definition level (p s : Q) : Nord.OrderbookLevel :=
  {| Nord.price := p; Nord.size := s |}.

(** A balanced two-level book around 100. *)
Definition book_balanced : Nord.Orderbook :=
  {| Nord.ob_marketId := 1;
     Nord.bids := [level 99.9 10; level 99.8 10];
     Nord.asks := [level 100.1 10; level 100.2 10];
     Nord.ob_timestamp := 0 |}.

(** The same prices with four times the size on the bid side. *)
Definition book_imbalanced : Nord.Orderbook :=
  {| Nord.ob_marketId := 1;
     Nord.bids := [level 99.9 40; level 99.8 40];
     Nord.asks := [level 100.1 10; level 100.2 10];
     Nord.ob_timestamp := 0 |}.

Definition usdc (total available : Q) : Nord.Balance :=
  {| Nord.mint := "USDC"; Nord.amount := total; Nord.availableAmount := available |}.

(** An account with 10000 of collateral, all of it free, and no position. *)
Definition user_flat : Nord.NordUser :=
  {| Nord.balances := {[ 0%Z := usdc 10000 10000 ]};
     Nord.positions := ∅;
     Nord.orders := [];
     Nord.leverage := 0.5 |}.

Definition market1 : Nord.Market :=
  {| Nord.marketId := 1;
     Nord.symbol := "SOL-PERP";
     Nord.baseToken := "SOL";
     Nord.quoteToken := "USDC";
     Nord.tickSize := 0.01;
     Nord.minSize := 0.001;
     Nord.maxLeverage := 10 |}.

Definition state_with (last : gmap Z Live.LastQuotePrices) : Live.State :=
  {| Live.user := user_flat;
     Live.activeMarkets := {[ 1%Z := market1 ]};
     Live.currentQuotes := ∅;
     Live.lastQuotePrices := last |}.

Definition last_near : Live.LastQuotePrices :=
  {| Live.bid := 99.93; Live.ask := 100.08; Live.timestamp := 0 |}.

Definition last_far : Live.LastQuotePrices :=
  {| Live.bid := 99; Live.ask := 101; Live.timestamp := 0 |}.

Definition world_mid100 : Live.World :=
  {| Live.midPrice := Some (Fin 100);
     Live.now_stored := 1000;
     Live.fetched := Some user_flat;
     Live.now_recorded := 1001 |}.

(** The shipped configuration with another free-collateral floor. *)
Definition config_minFree (floor : num) : Config.BotConfig :=
  let c := Config.CONFIG in
  {| Config.quantityMode := Config.quantityMode c;
     Config.fixedSize := Config.fixedSize c;
     Config.percentPerLevel := Config.percentPerLevel c;
     Config.tieredMultipliers := Config.tieredMultipliers c;
     Config.spread := Config.spread c;
     Config.risk :=
       {| Config.minMarginFraction := Config.minMarginFraction (Config.risk c);
          Config.maxExposurePerSide := Config.maxExposurePerSide (Config.risk c);
          Config.maxExposurePerMarket := Config.maxExposurePerMarket (Config.risk c);
          Config.maxTotalExposure := Config.maxTotalExposure (Config.risk c);
          Config.minFreeCollateral := floor |};
     Config.maxLevels := Config.maxLevels c;
     Config.autoHedge := Config.autoHedge c;
     Config.requoteIntervalMs := Config.requoteIntervalMs c;
     Config.inventorySkewEnabled := Config.inventorySkewEnabled c;
     Config.inventorySkewFactor := Config.inventorySkewFactor c;
     Config.requoteThreshold := Config.requoteThreshold c;
     Config.assets := Config.assets c;
     Config.defaultBias := Config.defaultBias c;
     Config.oracle := Config.oracle c;
     Config.cluster := Config.cluster c |}.

(** The shipped configuration with an [assets] table, a default bias and a
    choice for the inventory skew. *)
Definition config_bias (assets : gmap Z Config.AssetConfig) (defaultBias : num)
    (skew : bool) : Config.BotConfig :=
  let c := Config.CONFIG in
  {| Config.quantityMode := Config.quantityMode c;
     Config.fixedSize := Config.fixedSize c;
     Config.percentPerLevel := Config.percentPerLevel c;
     Config.tieredMultipliers := Config.tieredMultipliers c;
     Config.spread := Config.spread c;
     Config.risk := Config.risk c;
     Config.maxLevels := Config.maxLevels c;
     Config.autoHedge := Config.autoHedge c;
     Config.requoteIntervalMs := Config.requoteIntervalMs c;
     Config.inventorySkewEnabled := skew;
     Config.inventorySkewFactor := Config.inventorySkewFactor c;
     Config.requoteThreshold := Config.requoteThreshold c;
     Config.assets := assets;
     Config.defaultBias := defaultBias;
     Config.oracle := Config.oracle c;
     Config.cluster := Config.cluster c |}.

(** The shipped configuration in fixed mode with another [fixedSize]. *)
Definition config_fixed (fixedSize : num) : Config.BotConfig :=
  let c := Config.CONFIG in
  {| Config.quantityMode := Config.fixed;
     Config.fixedSize := fixedSize;
     Config.percentPerLevel := Config.percentPerLevel c;
     Config.tieredMultipliers := Config.tieredMultipliers c;
     Config.spread := Config.spread c;
     Config.risk := Config.risk c;
     Config.maxLevels := Config.maxLevels c;
     Config.autoHedge := Config.autoHedge c;
     Config.requoteIntervalMs := Config.requoteIntervalMs c;
     Config.inventorySkewEnabled := Config.inventorySkewEnabled c;
     Config.inventorySkewFactor := Config.inventorySkewFactor c;
     Config.requoteThreshold := Config.requoteThreshold c;
     Config.assets := Config.assets c;
     Config.defaultBias := Config.defaultBias c;
     Config.oracle := Config.oracle c;
     Config.cluster := Config.cluster c |}.

Definition long_position (marketId : Z) (size entry : Q) : Nord.Position :=
  {| Nord.pos_marketId := marketId;
     Nord.pos_size := size;
     Nord.entryPrice := entry;
     Nord.unrealizedPnl := 0 |}.

(** No collateral at all, and one unit of market 2 bought at 100. *)
Definition user_broke_long : Nord.NordUser :=
  {| Nord.balances := {[ 0%Z := usdc 0 0 ]};
     Nord.positions := {[ 2%Z := long_position 2 1 100 ]};
     Nord.orders := [];
     Nord.leverage := 0.5 |}.

(** No collateral and no position. *)
Definition user_broke_flat : Nord.NordUser :=
  {| Nord.balances := {[ 0%Z := usdc 0 0 ]};
     Nord.positions := ∅;
     Nord.orders := [];
     Nord.leverage := 0.5 |}.

(** A crossed book: the best bid, 101, is above the best ask, 100. *)
Definition book_crossed : Nord.Orderbook :=
  {| Nord.ob_marketId := 1;
     Nord.bids := [level 101 1; level 100 1];
     Nord.asks := [level 100 1; level 101 1];
     Nord.ob_timestamp := 0 |}.

Definition quote_of (source : string) (bid ask volume time : Q) : Oracle.ExchangePrice :=
  {| Oracle.bid := bid;
     Oracle.ask := ask;
     Oracle.mid := (bid + ask) / 2;
     Oracle.spread := (ask - bid) / ((bid + ask) / 2);
     Oracle.volume24h := volume;
     Oracle.timestamp := time;
     Oracle.source := source |}.

(** A cache holding one price for SOL, stored at time 1000. *)
Definition cache_sol : gmap string Oracle.ExchangePrice :=
  {[ "SOL"%string := quote_of "aggregated(binance,bybit)" 99.9 100.1 500 1000 ]}.

(** A world in which every source fails, read at time [t]. *)
Definition world_blackout (t : Q) : Oracle.World :=
  {| Oracle.now := t;
     Oracle.now_aggregate := t + 1;
     Oracle.fetchFromSource := fun _ _ => None |}.

(** Three sources reporting at time 2000; the widest quote comes first. *)
Definition three_quotes : list Oracle.ExchangePrice :=
  [quote_of "binance" 99 103 0 2000;
   quote_of "bybit" 100 101 300 2000;
   quote_of "coinbase" 98 102 600 2000].

Definition backtest_order (side : Backtest.side) (price size : Q) : Backtest.BacktestOrder :=
  {| Backtest.id := match side with Backtest.bid => "bid_0_0" | Backtest.ask => "ask_0_0" end;
     Backtest.order_side := side;
     Backtest.price := price;
     Backtest.size := size;
     Backtest.timestamp := 0;
     Backtest.filled := false;
     Backtest.fillPrice := None;
     Backtest.fillTimestamp := None |}.

Definition bar_at (time low high close : Q) : Backtest.HistoricalBar :=
  {| Backtest.bar_timestamp := time;
     Backtest.open := close;
     Backtest.high := high;
     Backtest.low := low;
     Backtest.close := close;
     Backtest.volume := 1000;
     Backtest.bar_bidDepth := 50;
     Backtest.bar_askDepth := 50 |}.

(** An engine holding [size] units entered at [entry], nothing realized
    yet, with the initial balance of 10000. *)
Definition engine_holding (size entry : Q) : Backtest.Engine :=
  {| Backtest.position :=
       {| Backtest.pos_size := size;
          Backtest.entryPrice := entry;
          Backtest.realizedPnl := 0;
          Backtest.unrealizedPnl := 0 |};
     Backtest.balance := 10000 |}.

(** One level per side, each of size 0.005. *)
Definition quotes_small : Live.Quotes :=
  {| Live.bids := [{| Live.price := 99.9; Live.size := 0.005 |}];
     Live.asks := [{| Live.price := 100.1; Live.size := 0.005 |}] |}.

End Examples.


(** The events that touch orders or the quote maps: everything but the
    reload of the account. *)
Definition changesQuotes (e : Live.Event) : bool :=
  match e with
  | Live.FetchInfo => false
  | Live.SetLastQuotePrices _ _ | Live.CancelOrder _
  | Live.PlaceOrder _ | Live.SetCurrentQuotes _ _ => true
  end.

(** A quote order of market [marketId]: a limit order with a price that is
    not reduce-only. *)
Definition isQuoteOrder (marketId : Z) (order : Nord.PlaceOrderParams) : Prop :=
  Nord.po_marketId order = marketId
  /\ Nord.po_fillMode order = Nord.Limit
  /\ Nord.po_isReduceOnly order = false
  /\ is_Some (Nord.po_price order).

(** A hedge order of market [marketId]: a reduce-only market order without
    a price. *)
Definition isHedgeOrder (marketId : Z) (order : Nord.PlaceOrderParams) : Prop :=
  Nord.po_marketId order = marketId
  /\ Nord.po_fillMode order = Nord.Market_
  /\ Nord.po_isReduceOnly order = true
  /\ Nord.po_price order = None.

(** [order'] is [order] after a sweep: the same order, filled now or left
    as it was. *)
Definition sweptOrder (bar : Backtest.HistoricalBar)
    (order order' : Backtest.BacktestOrder) : Prop :=
  order' = order
  \/ (Backtest.filled order = false
      /\ order' = {| Backtest.id := Backtest.id order;
                     Backtest.order_side := Backtest.order_side order;
                     Backtest.price := Backtest.price order;
                     Backtest.size := Backtest.size order;
                     Backtest.timestamp := Backtest.timestamp order;
                     Backtest.filled := true;
                     Backtest.fillPrice := Some (Backtest.price order);
                     Backtest.fillTimestamp := Some (Backtest.bar_timestamp bar) |}).

(** The ids of the orders of [marketId] that [fetchInfo] loaded, in the
    order of [Object.entries]; none when [fetchInfo] threw. *)
Definition marketOrderIds (fetched : option Nord.NordUser) (marketId : Z) : list string :=
  match fetched with
  | None => []
  | Some account =>
      fst <$> filter (fun entry => Nord.ord_marketId (snd entry) = marketId)
                (Nord.orders account)
  end.

(** The price of level [i] of a ladder side: [base * (1 -/+ spread * (i + 1) * 0.5)]. *)
Definition bidLevelPrice (base spread : Q) (i : nat) : Q :=
  base * (1 - spread * inject_Z (Z.of_nat (S i)) * 0.5).

Definition askLevelPrice (base spread : Q) (i : nat) : Q :=
  base * (1 + spread * inject_Z (Z.of_nat (S i)) * 0.5).

(** More concrete data. *)

Module Examples2.

(** An account with 10000 of collateral, 8000 of it free, long 2 units of
    market 1 entered at 100, with three resting orders. *)
Definition resting (id : string) (marketId : Z) (side : Nord.Side) (price : Q) : string * Nord.Order :=
  (id, {| Nord.orderId := id;
          Nord.ord_marketId := marketId;
          Nord.ord_side := side;
          Nord.ord_price := price;
          Nord.ord_size := 0.1;
          Nord.ord_fillMode := Nord.Limit;
          Nord.ord_isReduceOnly := false;
          Nord.ord_timestamp := 0 |}).

Definition user_long : Nord.NordUser :=
  {| Nord.balances := {[ 0%Z := Examples.usdc 10000 8000 ]};
     Nord.positions := {[ 1%Z := Examples.long_position 1 2 100 ]};
     Nord.orders := [resting "a" 1 Nord.Bid 99.5; resting "b" 2 Nord.Bid 9.5;
                     resting "c" 1 Nord.Ask 100.5];
     Nord.leverage := 0.5 |}.

(** The same account short 2 units. *)
Definition user_short : Nord.NordUser :=
  {| Nord.balances := {[ 0%Z := Examples.usdc 10000 8000 ]};
     Nord.positions := {[ 1%Z := Examples.long_position 1 (-2) 100 ]};
     Nord.orders := [];
     Nord.leverage := 0.5 |}.

(** The shipped configuration with hedging switched on. *)
Definition config_hedge : Config.BotConfig :=
  let c := Config.CONFIG in
  {| Config.quantityMode := Config.quantityMode c;
     Config.fixedSize := Config.fixedSize c;
     Config.percentPerLevel := Config.percentPerLevel c;
     Config.tieredMultipliers := Config.tieredMultipliers c;
     Config.spread := Config.spread c;
     Config.risk := Config.risk c;
     Config.maxLevels := Config.maxLevels c;
     Config.autoHedge :=
       {| Config.autoHedge_enabled := true;
          Config.imbalanceThreshold := Config.imbalanceThreshold (Config.autoHedge c) |};
     Config.requoteIntervalMs := Config.requoteIntervalMs c;
     Config.inventorySkewEnabled := Config.inventorySkewEnabled c;
     Config.inventorySkewFactor := Config.inventorySkewFactor c;
     Config.requoteThreshold := Config.requoteThreshold c;
     Config.assets := Config.assets c;
     Config.defaultBias := Config.defaultBias c;
     Config.oracle := Config.oracle c;
     Config.cluster := Config.cluster c |}.

(** A world in which binance and bybit answer and coinbase fails. *)
Definition world_two_sources (t : Q) : Oracle.World :=
  {| Oracle.now := t;
     Oracle.now_aggregate := t + 1;
     Oracle.fetchFromSource := fun _ source =>
       match source with
       | Config.binance => Some (Examples.quote_of "binance" 99 103 0 t)
       | Config.bybit => Some (Examples.quote_of "bybit" 100 101 300 t)
       | Config.coinbase => None
       end |}.


(** A book with one level per side. *)
Definition book_thin : Nord.Orderbook :=
  {| Nord.ob_marketId := 1;
     Nord.bids := [Examples.level 99.9 10];
     Nord.asks := [Examples.level 100.1 10];
     Nord.ob_timestamp := 0 |}.

(** A world in which every venue call answers, the account being
    [user_long] and the reference price 100. *)
Definition handler_world : Live.HandlerWorld :=
  {| Live.riskFetched := inr user_long;
     Live.leverageError := None;
     Live.requoteWorld :=
       {| Live.midPrice := Some (Fin 100);
          Live.now_stored := 1000;
          Live.fetched := Some user_long;
          Live.now_recorded := 1001 |};
     Live.midAfter := Some (Fin 100) |}.

(** Four level sizes, one more than the shipped [maxLevels]. *)
Definition ladder4 : list Sizing.LevelSize :=
  [ {| Sizing.level := 1; Sizing.size := 0.5 |};
    {| Sizing.level := 2; Sizing.size := 0.3 |};
    {| Sizing.level := 3; Sizing.size := 0.2 |};
    {| Sizing.level := 4; Sizing.size := 0.1 |} ].

End Examples2.

(** Case analysis on every test of a goal. *)
Ltac split_ifs :=
  repeat match goal with
         | |- context [if ?b then _ else _] => destruct b eqn:?
         end.

(** * Properties *)

(** ** Facts about numbers *)

Section NumFacts.

Lemma Qltb_lt (a b : Q) : Qltb a b = true <-> a < b.
Proof.
  unfold Qltb. rewrite Qlt_alt. destruct (a ?= b); intuition congruence.
Qed.

Lemma Qltb_ge (a b : Q) : Qltb a b = false <-> b <= a.
Proof.
  split; intros H.
  - apply Qnot_lt_le. intros Hlt. apply Qltb_lt in Hlt. congruence.
  - destruct (Qltb a b) eqn:E; [|reflexivity].
    apply Qltb_lt in E. exfalso. apply (Qlt_not_le _ _ E H).
Qed.

Lemma Qeq_bool_false (a b : Q) : Qeq_bool a b = false <-> ~ a == b.
Proof.
  split.
  - intros H Heq. apply Qeq_bool_iff in Heq. congruence.
  - intros H. destruct (Qeq_bool a b) eqn:E; [|reflexivity].
    apply Qeq_bool_iff in E. contradiction.
Qed.

Lemma Qle_bool_false (a b : Q) : Qle_bool a b = false <-> b < a.
Proof.
  split.
  - intros H. apply Qnot_le_lt. intros Hle. apply Qle_bool_iff in Hle. congruence.
  - intros H. destruct (Qle_bool a b) eqn:E; [|reflexivity].
    apply Qle_bool_iff in E. exfalso. apply (Qlt_not_le _ _ H E).
Qed.

Lemma num_le_Fin (a b : Q) : (Fin a <= Fin b)%js <-> a <= b.
Proof. unfold num_le. simpl. apply Qle_bool_iff. Qed.

Lemma num_lt_Fin (a b : Q) : (Fin a < Fin b)%js <-> a < b.
Proof. unfold num_lt. simpl. apply Qltb_lt. Qed.

Lemma num_le_not_nan_l (a b : num) : (a <= b)%js -> is_nan a = false.
Proof. destruct a, b; simpl; unfold num_le; simpl; congruence. Qed.

Lemma num_le_not_nan_r (a b : num) : (a <= b)%js -> is_nan b = false.
Proof. destruct a, b; simpl; unfold num_le; simpl; congruence. Qed.

Lemma num_le_refl (a : num) : is_nan a = false -> (a <= a)%js.
Proof.
  destruct a; unfold num_le; simpl; try congruence.
  intros _. apply Qle_bool_iff. apply Qle_refl.
Qed.

Lemma num_le_trans (a b c : num) : (a <= b)%js -> (b <= c)%js -> (a <= c)%js.
Proof.
  destruct a, b, c; unfold num_le; simpl; try congruence.
  rewrite !Qle_bool_iff. apply Qle_trans.
Qed.

Lemma num_le_total (a b : num) :
  is_nan a = false -> is_nan b = false -> (a <= b)%js \/ (b <= a)%js.
Proof.
  destruct a as [x| | |], b as [y| | |]; unfold num_le; simpl; try congruence; auto.
  intros _ _. rewrite !Qle_bool_iff.
  destruct (Qlt_le_dec x y) as [H|H]; [left; apply Qlt_le_weak|right]; assumption.
Qed.

(** [a <= b] rules out [a > b]. *)
Lemma ngtb_of_le (a b : num) : (a <= b)%js -> (a >? b)%js = false.
Proof.
  destruct a as [x| | |], b as [y| | |]; unfold num_le, ngtb; simpl; try congruence.
  rewrite Qle_bool_iff, Qltb_ge. trivial.
Qed.

(** Without [NaN], [a > b] is the negation of [a <= b]. *)
Lemma ngtb_false_le (a b : num) :
  is_nan a = false -> is_nan b = false -> (a >? b)%js = false -> (a <= b)%js.
Proof.
  destruct a as [x| | |], b as [y| | |]; unfold num_le, ngtb; simpl; try congruence.
  intros _ _. rewrite Qltb_ge, Qle_bool_iff. trivial.
Qed.

Lemma num_eq_refl (a : num) : (a == a)%js.
Proof. destruct a; simpl; trivial. apply Qeq_refl. Qed.

Lemma num_eq_sym (a b : num) : (a == b)%js -> (b == a)%js.
Proof. destruct a, b; simpl; trivial. apply Qeq_sym. Qed.

Lemma num_eq_trans (a b c : num) : (a == b)%js -> (b == c)%js -> (a == c)%js.
Proof. destruct a, b, c; simpl; trivial; try contradiction. apply Qeq_trans. Qed.

End NumFacts.

#[export] Instance num_eq_equiv : Equivalence num_eq.
Proof.
  split.
  - exact num_eq_refl.
  - exact num_eq_sym.
  - exact num_eq_trans.
Qed.

(** ** The requote gate *)

Section RequoteGate.
Import Live.
Variable CONFIG : Config.BotConfig.

Lemma shouldRequote_first st marketId newBid newAsk :
  lastQuotePrices st !! marketId = None ->
  shouldRequote CONFIG st marketId newBid newAsk = true.
Proof. intros H. unfold shouldRequote. rewrite H. reflexivity. Qed.

Lemma shouldRequote_below st marketId prev newBid newAsk :
  lastQuotePrices st !! marketId = Some prev ->
  (nabs (newBid - bid prev) / bid prev <= Config.requoteThreshold CONFIG)%js ->
  (nabs (newAsk - ask prev) / ask prev <= Config.requoteThreshold CONFIG)%js ->
  shouldRequote CONFIG st marketId newBid newAsk = false.
Proof.
  intros H Hb Ha. unfold shouldRequote. rewrite H.
  rewrite (ngtb_of_le _ _ Hb), (ngtb_of_le _ _ Ha). reflexivity.
Qed.

Lemma requote_skipped w st marketId orderbook midPrice :
  Live.midPrice w = Some midPrice ->
  shouldRequote CONFIG st marketId
    (fst (targetPrices CONFIG st marketId orderbook midPrice))
    (snd (targetPrices CONFIG st marketId orderbook midPrice)) = false ->
  requote CONFIG w st marketId orderbook = (st, []).
Proof.
  intros Hmid Hgate. unfold requote. rewrite Hmid.
  destruct (truthy midPrice); simpl; [|reflexivity].
  unfold targetPrices in Hgate. simpl in Hgate. rewrite Hgate. reflexivity.
Qed.

Lemma cancelMarketOrders_lastQuotePrices w st marketId :
  lastQuotePrices (fst (cancelMarketOrders w st marketId)) = lastQuotePrices st.
Proof. unfold cancelMarketOrders. destruct (fetched w); reflexivity. Qed.

Lemma requote_passed w st marketId orderbook midPrice :
  Live.midPrice w = Some midPrice ->
  truthy midPrice = true ->
  shouldRequote CONFIG st marketId
    (fst (targetPrices CONFIG st marketId orderbook midPrice))
    (snd (targetPrices CONFIG st marketId orderbook midPrice)) = true ->
  let stored :=
    {| bid := fst (targetPrices CONFIG st marketId orderbook midPrice);
       ask := snd (targetPrices CONFIG st marketId orderbook midPrice);
       timestamp := now_stored w |} in
  exists rest,
    snd (requote CONFIG w st marketId orderbook)
      = SetLastQuotePrices marketId stored :: rest
    /\ lastQuotePrices (fst (requote CONFIG w st marketId orderbook))
      = <[marketId := stored]> (lastQuotePrices st).
Proof.
  intros Hmid Htruthy Hgate stored. unfold requote. rewrite Hmid, Htruthy. simpl.
  unfold targetPrices in *. simpl in Hgate. rewrite Hgate. simpl.
  match goal with
  | |- context [cancelMarketOrders w ?s marketId] =>
      pose proof (cancelMarketOrders_lastQuotePrices w s marketId) as Hlq;
      destruct (cancelMarketOrders w s marketId) as [st2 cancels]
  end.
  simpl in Hlq.
  destruct (_ =? 0)%nat; [eexists; split; [reflexivity|exact Hlq]|].
  destruct (negb _); [eexists; split; [reflexivity|exact Hlq]|].
  eexists; split; [reflexivity|exact Hlq].
Qed.

(** C1.  Requote gate.  Let [newBid], [newAsk] be the target prices a quote
    cycle computes.  (1) When the market has a [lastQuotePrices] record
    [prev] and both [|newBid - prev.bid| / prev.bid] and
    [|newAsk - prev.ask| / prev.ask] are [<= requoteThreshold], the cycle
    does nothing: no venue call, no order, state unchanged.  (2) When the
    gate passes, the first thing the cycle does is to store the new prices
    in [lastQuotePrices]: every order placed comes after that write, and
    the record is still there when the cycle ends.  (3) Without a record
    the gate lets any pair of prices through. *)
Theorem requote_gate w st marketId orderbook midPrice :
  Live.midPrice w = Some midPrice ->
  let newBid := fst (targetPrices CONFIG st marketId orderbook midPrice) in
  let newAsk := snd (targetPrices CONFIG st marketId orderbook midPrice) in
  (forall prev,
      lastQuotePrices st !! marketId = Some prev ->
      (nabs (newBid - bid prev) / bid prev <= Config.requoteThreshold CONFIG)%js ->
      (nabs (newAsk - ask prev) / ask prev <= Config.requoteThreshold CONFIG)%js ->
      requote CONFIG w st marketId orderbook = (st, []))
  /\ (truthy midPrice = true ->
      shouldRequote CONFIG st marketId newBid newAsk = true ->
      let stored := {| bid := newBid; ask := newAsk; timestamp := now_stored w |} in
      (exists rest,
          snd (requote CONFIG w st marketId orderbook)
            = SetLastQuotePrices marketId stored :: rest)
      /\ (forall before params after,
             snd (requote CONFIG w st marketId orderbook)
               = before ++ PlaceOrder params :: after ->
             SetLastQuotePrices marketId stored ∈ before)
      /\ lastQuotePrices (fst (requote CONFIG w st marketId orderbook))
          = <[marketId := stored]> (lastQuotePrices st))
  /\ (lastQuotePrices st !! marketId = None ->
      forall b a, shouldRequote CONFIG st marketId b a = true).
Proof.
  intros Hmid newBid newAsk. split; [|split].
  - intros prev Hprev Hb Ha.
    apply (requote_skipped w st marketId orderbook midPrice Hmid).
    apply (shouldRequote_below st marketId prev); assumption.
  - intros Htruthy Hgate stored.
    destruct (requote_passed w st marketId orderbook midPrice Hmid Htruthy Hgate)
      as [rest [Htrace Hlast]].
    fold newBid newAsk stored in Htrace, Hlast.
    split; [exists rest; exact Htrace|]. split; [|exact Hlast].
    intros before params after Hsplit. rewrite Htrace in Hsplit.
    destruct before as [|e before]; simpl in Hsplit; [discriminate|].
    injection Hsplit as <- _. left.
  - intros Hnone b a. apply shouldRequote_first. assumption.
Qed.

End RequoteGate.

Lemma requote_gate_witness :
  Live.requote Config.CONFIG Examples.world_mid100
    (Examples.state_with {[ 1%Z := Examples.last_near ]}) 1 Examples.book_balanced
  = (Examples.state_with {[ 1%Z := Examples.last_near ]}, [])
  /\ (exists rest,
        snd (Live.requote Config.CONFIG Examples.world_mid100
               (Examples.state_with {[ 1%Z := Examples.last_far ]}) 1 Examples.book_balanced)
        = Live.SetLastQuotePrices 1
            {| Live.bid :=
                 fst (targetPrices Config.CONFIG
                        (Examples.state_with {[ 1%Z := Examples.last_far ]}) 1
                        Examples.book_balanced (Fin 100));
               Live.ask :=
                 snd (targetPrices Config.CONFIG
                        (Examples.state_with {[ 1%Z := Examples.last_far ]}) 1
                        Examples.book_balanced (Fin 100));
               Live.timestamp := 1000 |} :: rest)
  /\ Live.shouldRequote Config.CONFIG (Examples.state_with ∅) 1 (Fin 1) (Fin 2) = true.
Proof.
  split; [|split].
  - apply (proj1 (requote_gate Config.CONFIG Examples.world_mid100
                    (Examples.state_with {[ 1%Z := Examples.last_near ]}) 1
                    Examples.book_balanced (Fin 100) eq_refl) Examples.last_near);
      vm_compute; reflexivity.
  - destruct (proj1 (proj2 (requote_gate Config.CONFIG Examples.world_mid100
                    (Examples.state_with {[ 1%Z := Examples.last_far ]}) 1
                    Examples.book_balanced (Fin 100) eq_refl)))
      as [[rest Hrest] _]; [vm_compute; reflexivity ..|].
    exists rest. exact Hrest.
  - apply (proj2 (proj2 (requote_gate Config.CONFIG Examples.world_mid100
                    (Examples.state_with ∅) 1
                    Examples.book_balanced (Fin 100) eq_refl))).
    reflexivity.
Defined.

(** ** The dynamic spread *)

Section DynamicSpread.
Import Spread.




Lemma sumDepth_from (levels : list Nord.OrderbookLevel) (qs : list Q) (acc : Q) :
  Nord.size <$> levels = Fin <$> qs ->
  exists q,
    fold_left (fun sum level => (sum + Nord.size level)%js) levels (Fin acc) = Fin q
    /\ q == acc + foldr Qplus 0 qs.
Proof.
  revert qs acc. induction levels as [|l levels IH]; intros [|x qs] acc H;
    simpl in H; try discriminate.
  - exists acc. split; [reflexivity|]. simpl. ring.
  - injection H as Hl Hrest. simpl. rewrite Hl. simpl.
    destruct (IH qs (acc + x) Hrest) as [q [Hq Hsum]].
    exists q. split; [exact Hq|]. rewrite Hsum. ring.
Qed.

Lemma sumDepth_Fin (levels : list Nord.OrderbookLevel) (qs : list Q) :
  Nord.size <$> levels = Fin <$> qs ->
  exists q, sumDepth levels = Fin q /\ q == foldr Qplus 0 qs.
Proof.
  intros H. destruct (sumDepth_from levels qs 0 H) as [q [Hq Hsum]].
  exists q. split; [exact Hq|]. rewrite Hsum. ring.
Qed.

Lemma sumDepth_take (d : nat) (levels : list Nord.OrderbookLevel) (qs : list Q) :
  Nord.size <$> levels = Fin <$> qs ->
  exists q, sumDepth (take d levels) = Fin q /\ q == SpreadSpec.depth d qs.
Proof.
  intros H. apply sumDepth_Fin. rewrite !fmap_take, H. reflexivity.
Qed.

Lemma depth_nonneg (d : nat) (qs : list Q) :
  Forall (Qle 0) qs -> 0 <= SpreadSpec.depth d qs.
Proof.
  unfold SpreadSpec.depth. revert d.
  induction qs as [|x qs IH]; intros [|d] H; simpl; try apply Qle_refl.
  inversion H as [|? ? Hx Hqs]; subst.
  specialize (IH d Hqs). lra.
Qed.









End DynamicSpread.

(** ** The risk gate's divisions *)

Section RiskDivisions.
Import Risk.

(** A zero denominator never yields a finite quotient. *)
Lemma ndiv_zero_not_finite (a : num) : is_finite (a / Fin 0)%js = false.
Proof.
  destruct a as [x| | |]; simpl; try reflexivity.
  unfold inf_signed. destruct (Qeq_bool x 0), (Qltb 0 x); reflexivity.
Qed.

(** The guard of [getPositionRatio]: no free collateral, ratio zero. *)
Lemma getPositionRatio_guarded CONFIG user marketId midPrice :
  or_default (Nord.availableAmount <$> Nord.balances user !! Config.USDC_MINT_INDEX) (Fin 0)
    = Fin 0 ->
  getPositionRatio CONFIG user marketId midPrice = Fin 0.
Proof.
  intros H. unfold getPositionRatio.
  destruct (Nord.positions user !! marketId) as [position|]; [|reflexivity].
  destruct (Nord.pos_size position =? Fin 0)%js; [reflexivity|].
  rewrite H. reflexivity.
Qed.

(** [checkTotalExposure] has no such guard: without total collateral its
    ratio is never a finite number. *)
Lemma exposureRatio_unguarded user :
  or_default (Nord.amount <$> Nord.balances user !! Config.USDC_MINT_INDEX) (Fin 0)
    = Fin 0 ->
  is_finite (exposureRatio user) = false.
Proof. intros H. unfold exposureRatio. rewrite H. apply ndiv_zero_not_finite. Qed.

(** C3.  Guarded denominators in the risk gate.  The claim holds for
    [getPositionRatio], which returns [0] when the free collateral is zero,
    and fails for [checkTotalExposure], which divides the total exposure by
    the total collateral unguarded: with no collateral and an open position
    [canQuote] reaches the fourth check and reports the ratio [Infinity];
    with no collateral and no position the ratio is [NaN], the comparison
    with [maxTotalExposure] is false, and quoting is allowed. *)
Theorem checkTotalExposure_zero_collateral :
  let cfg := Examples.config_minFree (Fin 0) in
  Config.validateConfig cfg = None
  /\ exposureRatio Examples.user_broke_long = PInf
  /\ canTrade (canQuote cfg (inr Examples.user_broke_long) 1) = false
  /\ reason (canQuote cfg (inr Examples.user_broke_long) 1)
     = Some "Total exposure limit exceeded"%string
  /\ details (canQuote cfg (inr Examples.user_broke_long) 1) !! 2%nat
     = Some ("exposureRatio"%string, DNum PInf)
  /\ exposureRatio Examples.user_broke_flat = NaN
  /\ canQuote cfg (inr Examples.user_broke_flat) 1 = allow
  /\ getPositionRatio cfg Examples.user_broke_long 2 (Fin 100) = Fin 0.
Proof.
  cbv zeta. repeat apply conj; vm_compute; reflexivity.
Qed.

End RiskDivisions.

(** ** Book health *)

Section BookHealth.
Import Spread.

(** The health check accepts a crossed book, so it does not imply
    [bestBid < bestAsk]. *)
Lemma isOrderbookHealthy_crossed :
  isOrderbookHealthy Examples.book_crossed = true
  /\ ~ healthy_as_specified Examples.book_crossed.
Proof.
  split; [vm_compute; reflexivity|].
  intros (b & a & m & Hb & Ha & _ & Hlt & _).
  vm_compute in Hb, Ha. injection Hb as <-. injection Ha as <-.
  vm_compute in Hlt. discriminate.
Qed.

(** C4 (amended).  A book that passes the health check has at least two
    levels on each side and a mid price that is defined and not zero, and,
    when its two best prices are finite numbers, its top-of-book spread
    [(bestAsk - bestBid) / mid] is at most [0.05].  The order of the best
    bid and the best ask is not checked. *)
Theorem isOrderbookHealthy_sound orderbook :
  isOrderbookHealthy orderbook = true ->
  (2 <= length (Nord.bids orderbook))%nat
  /\ (2 <= length (Nord.asks orderbook))%nat
  /\ exists b a m,
       bestBid orderbook = Some b
       /\ bestAsk orderbook = Some a
       /\ getMidPrice orderbook = Some m
       /\ truthy m = true
       /\ (is_finite b = true -> is_finite a = true ->
           ((a - b) / m <= Fin 0.05)%js).
Proof.
  unfold isOrderbookHealthy, getMidPrice, bestBid, bestAsk.
  destruct (Nord.bids orderbook) as [|bid0 bids]; [discriminate|].
  destruct (Nord.asks orderbook) as [|ask0 asks];
    [rewrite orb_true_r; discriminate|].
  destruct (length (bid0 :: bids) <? 2)%nat eqn:Eb; [discriminate|].
  destruct (length (ask0 :: asks) <? 2)%nat eqn:Ea; [discriminate|].
  apply Nat.ltb_ge in Eb, Ea. cbn [orb].
  set (m := ((Nord.price bid0 + Nord.price ask0) / Fin 2)%js).
  destruct (truthy m) eqn:Em; [|discriminate]. cbn [negb].
  destruct ((Nord.price ask0 - Nord.price bid0) / m >? Fin 0.05)%js eqn:Es;
    [discriminate|].
  intros _. split; [exact Eb|]. split; [exact Ea|].
  exists (Nord.price bid0), (Nord.price ask0), m.
  repeat apply conj; try reflexivity; [exact Em|].
  intros Hfb Hfa. apply ngtb_false_le; [|reflexivity|exact Es].
  destruct (Nord.price bid0) as [b| | |]; try discriminate.
  destruct (Nord.price ask0) as [a| | |]; try discriminate.
  subst m. simpl in *.
  destruct (Qeq_bool ((b + a) / 2) 0); [discriminate|]. reflexivity.
Qed.

Lemma isOrderbookHealthy_sound_witness :
  (2 <= length (Nord.bids Examples.book_balanced))%nat
  /\ (2 <= length (Nord.asks Examples.book_balanced))%nat
  /\ exists b a m,
       bestBid Examples.book_balanced = Some b
       /\ bestAsk Examples.book_balanced = Some a
       /\ getMidPrice Examples.book_balanced = Some m
       /\ truthy m = true
       /\ (is_finite b = true -> is_finite a = true ->
           ((a - b) / m <= Fin 0.05)%js).
Proof.
  apply (isOrderbookHealthy_sound Examples.book_balanced).
  vm_compute. reflexivity.
Defined.

End BookHealth.

(** ** The per-market bias *)

Section MarketBias.
Import Inventory.

Lemma bias_of_result CONFIG user marketId basePrice spread :
  bias (applyInventorySkew CONFIG user marketId basePrice spread)
  = or_default (Config.bias <$> Config.assets CONFIG !! marketId) (Config.defaultBias CONFIG).
Proof.
  unfold applyInventorySkew.
  destruct (negb (Config.inventorySkewEnabled CONFIG)); reflexivity.
Qed.

(** A market absent from [assets] gets the default bias. *)
Lemma bias_absent CONFIG user marketId basePrice spread :
  Config.assets CONFIG !! marketId = None ->
  bias (applyInventorySkew CONFIG user marketId basePrice spread)
  = Config.defaultBias CONFIG.
Proof. intros H. rewrite bias_of_result, H. reflexivity. Qed.

(** A configured bias other than [0] (and [NaN]) is the one used. *)
Lemma bias_configured CONFIG user marketId basePrice spread asset :
  Config.assets CONFIG !! marketId = Some asset ->
  truthy (Config.bias asset) = true ->
  bias (applyInventorySkew CONFIG user marketId basePrice spread)
  = Config.bias asset.
Proof. intros H Ht. rewrite bias_of_result, H. simpl. rewrite Ht. reflexivity. Qed.

(** A configured bias of [0] is replaced by the default bias. *)
Lemma bias_zero_replaced CONFIG user marketId basePrice spread asset :
  Config.assets CONFIG !! marketId = Some asset ->
  truthy (Config.bias asset) = false ->
  bias (applyInventorySkew CONFIG user marketId basePrice spread)
  = Config.defaultBias CONFIG.
Proof. intros H Ht. rewrite bias_of_result, H. simpl. rewrite Ht. reflexivity. Qed.

(** C5.  Bias selection.  The claim fails on the code for a market
    configured with bias [0]: [applyInventorySkew] takes
    [assets[marketId]?.bias || defaultBias], so with
    [assets = {1: {bias: 0}}] and [defaultBias = 0.001] market 1 is quoted
    with bias [0.001], with the skew on or off, and both quotes move up:
    with the skew off, a base price of 100 and a spread of 0.002 the bid is
    100 where a bias of [0] gives 99.9. *)
Theorem applyInventorySkew_zero_bias :
  let assets : gmap Z Config.AssetConfig := {[ 1%Z := {| Config.bias := Fin 0 |} ]} in
  let quote skew :=
    applyInventorySkew (Examples.config_bias assets (Fin 0.001) skew)
      Examples.user_flat 1 (Fin 100) (Fin 0.002) in
  bias (quote true) = Fin 0.001
  /\ bias (quote false) = Fin 0.001
  /\ (bidPrice (quote false) == Fin 100)%js
  /\ (askPrice (quote false) == Fin 100.2)%js.
Proof. cbv zeta. repeat apply conj; vm_compute; reflexivity. Qed.

End MarketBias.

(** ** The oracle's cache *)

Section OracleCache.
Import Oracle.
Variable config : Config.OracleConfig.

Lemma omap_all_None {A B} (f : A -> option B) (l : list A) :
  (forall x, x ∈ l -> f x = None) -> omap (fun r => r) (f <$> l) = [].
Proof.
  induction l as [|x l IH]; intros H; [reflexivity|].
  simpl. rewrite (H x) by (left; reflexivity).
  apply IH. intros y Hy. apply H. right. exact Hy.
Qed.

Lemma getPrice_fresh w cache symbol entry :
  cache !! symbol = Some entry ->
  (now w - timestamp entry < Config.cacheTimeout config)%js ->
  getPrice config w cache symbol
  = {| result := Some entry; cache_after := cache; queried := [] |}.
Proof.
  intros Hc Hfresh. unfold getPrice. rewrite Hc. simpl.
  unfold num_lt in Hfresh. rewrite Hfresh. reflexivity.
Qed.

Lemma getPrice_all_fail w cache symbol :
  (forall source, source ∈ Config.sources config ->
                  fetchFromSource w symbol source = None) ->
  result (getPrice config w cache symbol) = cache !! symbol
  /\ cache_after (getPrice config w cache symbol) = cache.
Proof.
  intros Hfail. unfold getPrice.
  destruct (cacheHit config w (cache !! symbol)); [split; reflexivity|].
  rewrite (omap_all_None (fun source => fetchFromSource w symbol source)) by exact Hfail.
  split; reflexivity.
Qed.

(** C7.  [getPrice] and its cache.  (1) A cached entry younger than
    [cacheTimeout] ([now - entry.timestamp < cacheTimeout]) is returned as
    it is, no source is queried and the cache is unchanged.  (2) When every
    configured source fails, [getPrice] returns what the cache holds for the
    symbol, the stale entry if there is one and [null] otherwise, and leaves
    the cache unchanged. *)
Theorem getPrice_cache w cache symbol :
  (forall entry,
      cache !! symbol = Some entry ->
      (now w - timestamp entry < Config.cacheTimeout config)%js ->
      getPrice config w cache symbol
      = {| result := Some entry; cache_after := cache; queried := [] |})
  /\ ((forall source, source ∈ Config.sources config ->
                      fetchFromSource w symbol source = None) ->
      result (getPrice config w cache symbol) = cache !! symbol
      /\ cache_after (getPrice config w cache symbol) = cache).
Proof.
  split.
  - intros entry. apply getPrice_fresh.
  - apply getPrice_all_fail.
Qed.

End OracleCache.

Lemma getPrice_cache_witness :
  let config := Config.oracle Config.CONFIG in
  (Oracle.queried (Oracle.getPrice config (Examples.world_blackout 5000)
                     Examples.cache_sol "SOL") = []
   /\ Oracle.result (Oracle.getPrice config (Examples.world_blackout 5000)
                       Examples.cache_sol "SOL") = Examples.cache_sol !! "SOL"%string)
  /\ (Oracle.result (Oracle.getPrice config (Examples.world_blackout 50000)
                       Examples.cache_sol "SOL") = Examples.cache_sol !! "SOL"%string
      /\ Oracle.cache_after (Oracle.getPrice config (Examples.world_blackout 50000)
                               Examples.cache_sol "SOL") = Examples.cache_sol)
  /\ (Oracle.result (Oracle.getPrice config (Examples.world_blackout 50000) ∅ "SOL")
      = (∅ : gmap string Oracle.ExchangePrice) !! "SOL"%string
      /\ Oracle.cache_after (Oracle.getPrice config (Examples.world_blackout 50000) ∅ "SOL")
         = ∅).
Proof.
  intros config. split; [|split].
  - rewrite (proj1 (getPrice_cache config (Examples.world_blackout 5000)
                      Examples.cache_sol "SOL")
               (Examples.quote_of "aggregated(binance,bybit)" 99.9 100.1 500 1000)
               ltac:(vm_compute; reflexivity) ltac:(vm_compute; reflexivity)).
    split; vm_compute; reflexivity.
  - apply (proj2 (getPrice_cache config (Examples.world_blackout 50000)
                    Examples.cache_sol "SOL")).
    intros source _. reflexivity.
  - apply (proj2 (getPrice_cache config (Examples.world_blackout 50000) ∅ "SOL")).
    intros source _. reflexivity.
Defined.

(** ** Round trips in the backtest *)

Section RoundTrip.
Import Backtest.

(** Starting long (0.1 entered at 99.8), a bid of 0.1 at 99.9 followed by
    an ask of 0.1 at 100.1 does not realize [0.1 * (100.1 - 99.9) = 0.02]:
    the bid fill averages the entry price to 99.85, and the ask fill
    realizes [0.1 * (100.1 - 99.85) = 0.025] against that average. *)
Lemma roundTrip_not_flat :
  let e := Examples.engine_holding 0.1 99.8 in
  let e2 :=
    roundTrip e (Examples.backtest_order bid 99.9 0.1) (Examples.backtest_order ask 100.1 0.1)
      (Examples.bar_at 60000 99.5 100 99.8) (Examples.bar_at 120000 100 100.5 100.2) in
  ~ (realizedPnl (position e2) == realizedPnl (position e) + Fin (0.1 * (100.1 - 99.9)))%js
  /\ ~ (balance e2 == balance e + Fin (0.1 * (100.1 - 99.9)))%js.
Proof. cbv zeta. split; vm_compute; discriminate. Qed.

Lemma fillOrder_bid_from_flat e order bar (z s p : Q) :
  pos_size (position e) = Fin z -> z == 0 ->
  order_side order = bid -> size order = Fin s -> 0 < s -> price order = Fin p ->
  fst (fillOrder e order bar)
  = {| position := {| pos_size := Fin (z + s); entryPrice := Fin p;
                      realizedPnl := realizedPnl (position e);
                      unrealizedPnl := unrealizedPnl (position e) |};
       balance := balance e |}.
Proof.
  intros Hz Hz0 Hside Hs Hpos Hp. unfold fillOrder.
  rewrite Hz, Hside, Hs, Hp. cbn [fst nadd nsub nneg ngtb nltb neqb nsign nabs].
  assert (E1 : Qltb 0 z = false) by (apply Qltb_ge; lra).
  assert (E2 : Qltb z 0 = false) by (apply Qltb_ge; lra).
  assert (E3 : Qeq_bool (z + s) 0 = false) by (apply Qeq_bool_false; lra).
  assert (E4 : Qltb 0 (z + s) = true) by (apply Qltb_lt; lra).
  rewrite E1, E2, E3, E4. cbn. reflexivity.
Qed.

Lemma fillOrder_ask_closing e order bar (q s entry p : Q) :
  pos_size (position e) = Fin q -> q == s ->
  entryPrice (position e) = Fin entry ->
  order_side order = ask -> size order = Fin s -> 0 < s -> price order = Fin p ->
  exists pnl,
    pnl == s * (p - entry)
    /\ fst (fillOrder e order bar)
       = {| position := {| pos_size := Fin 0; entryPrice := Fin 0;
                           realizedPnl := (realizedPnl (position e) + Fin pnl)%js;
                           unrealizedPnl := unrealizedPnl (position e) |};
            balance := (balance e + Fin pnl)%js |}.
Proof.
  intros Hq Hqs Hentry Hside Hs Hpos Hp. unfold fillOrder.
  rewrite Hq, Hentry, Hside, Hs, Hp.
  cbn [fst nadd nsub nneg ngtb nltb neqb nsign nabs nmin nmul].
  assert (E1 : Qltb 0 q = true) by (apply Qltb_lt; lra).
  assert (E2 : Qltb (- s) 0 = true) by (apply Qltb_lt; lra).
  assert (E3 : Qeq_bool (q + - s) 0 = true) by (apply Qeq_bool_iff; lra).
  rewrite E1, E2, E3. cbn [andb orb].
  assert (Habs1 : Qabs q == s) by (rewrite Qabs_pos; lra).
  assert (Habs2 : Qabs (- s) == s) by (rewrite Qabs_opp, Qabs_pos; lra).
  destruct (Qltb (Qabs (- s)) (Qabs q)).
  - exists (Qabs (- s) * (p + - entry)). split; [rewrite Habs2; ring|reflexivity].
  - exists (Qabs q * (p + - entry)). split; [rewrite Habs1; ring|reflexivity].
Qed.

(** C8 (amended).  Starting from a flat position, a filled bid of size
    [s > 0] at price [pb] immediately followed by a filled ask of the same
    size at a strictly higher price [pa] credits a realized PnL of exactly
    [s * (pa - pb)], which is positive, to [realizedPnl] and to [balance],
    and leaves the position flat.  (The bid fill opens the position at
    [pb]; the ask fill closes [min(|s|, |-s|) = s] against that entry.) *)
Theorem roundTrip_from_flat e bidOrder askOrder bar1 bar2 (z s pb pa : Q) :
  pos_size (position e) = Fin z -> z == 0 ->
  order_side bidOrder = bid -> size bidOrder = Fin s -> price bidOrder = Fin pb ->
  order_side askOrder = ask -> size askOrder = Fin s -> price askOrder = Fin pa ->
  0 < s -> pb < pa ->
  let e2 := roundTrip e bidOrder askOrder bar1 bar2 in
  exists pnl,
    pnl == s * (pa - pb)
    /\ 0 < pnl
    /\ realizedPnl (position e2) = (realizedPnl (position e) + Fin pnl)%js
    /\ balance e2 = (balance e + Fin pnl)%js
    /\ pos_size (position e2) = Fin 0.
Proof.
  intros Hz Hz0 Hb1 Hb2 Hb3 Ha1 Ha2 Ha3 Hs Hp e2. subst e2. unfold roundTrip.
  rewrite (fillOrder_bid_from_flat e bidOrder bar1 z s pb) by assumption.
  match goal with
  | |- context [fillOrder ?e1 askOrder bar2] =>
      destruct (fillOrder_ask_closing e1 askOrder bar2 (z + s) s pb pa)
        as [pnl [Hpnl ->]]; try assumption; try reflexivity
  end.
  - lra.
  - exists pnl. repeat apply conj; try reflexivity; [exact Hpnl|].
    rewrite Hpnl. nra.
Qed.

Lemma roundTrip_from_flat_witness :
  let e := Examples.engine_holding 0 0 in
  let e2 :=
    roundTrip e (Examples.backtest_order bid 99.9 0.1) (Examples.backtest_order ask 100.1 0.1)
      (Examples.bar_at 60000 99.5 100 99.8) (Examples.bar_at 120000 100 100.5 100.2) in
  exists pnl,
    pnl == 0.1 * (100.1 - 99.9)
    /\ 0 < pnl
    /\ realizedPnl (position e2) = (realizedPnl (position e) + Fin pnl)%js
    /\ balance e2 = (balance e + Fin pnl)%js
    /\ pos_size (position e2) = Fin 0.
Proof.
  apply (roundTrip_from_flat (Examples.engine_holding 0 0)
           (Examples.backtest_order bid 99.9 0.1) (Examples.backtest_order ask 100.1 0.1)
           (Examples.bar_at 60000 99.5 100 99.8) (Examples.bar_at 120000 100 100.5 100.2)
           0 0.1 99.9 100.1);
    try reflexivity; vm_compute; reflexivity.
Defined.

End RoundTrip.

(** ** Rounding of sizes *)

Section RoundSize.
Import Sizing.

Lemma Qfloor_unit (x : Q) : 0 <= x -> x < 1 -> Qfloor x = 0%Z.
Proof.
  intros H0 H1.
  pose proof (Qfloor_le x) as Hl. pose proof (Qlt_floor x) as Hu.
  assert (Hlo : (Qfloor x < 1)%Z).
  { rewrite Zlt_Qlt. apply (Qle_lt_trans _ x); assumption. }
  assert (Hhi : (0 < Qfloor x + 1)%Z).
  { rewrite Zlt_Qlt. apply (Qle_lt_trans _ x); assumption. }
  lia.
Qed.

(** Any size in [[minSize, stepSize)] is rounded down to zero. *)
Lemma roundSize_below_step (size minSize stepSize : Q) :
  0 <= size -> minSize <= size -> size < stepSize ->
  (roundSize (Fin size) (Fin minSize) (Fin stepSize) == Fin 0)%js.
Proof.
  intros H0 Hmin Hstep. unfold roundSize. cbn [nltb ndiv].
  assert (E1 : Qltb size minSize = false) by (apply Qltb_ge; exact Hmin).
  assert (E2 : Qeq_bool stepSize 0 = false) by (apply Qeq_bool_false; lra).
  rewrite E1, E2. cbn [nfloor nmul num_eq].
  assert (Hstep0 : 0 < stepSize) by lra.
  rewrite Qfloor_unit.
  - unfold inject_Z. ring.
  - apply Qle_shift_div_l; [exact Hstep0|]. lra.
  - apply Qlt_shift_div_r; [exact Hstep0|]. lra.
Qed.

(** C10.  [roundSize] can return less than [minSize].  With
    [minSize = 0.001], below the default step of [0.01], the size [0.005]
    is not below [minSize], so it is rounded to
    [floor(0.005 / 0.01) * 0.01 = 0], which is below [minSize];
    [placeQuotes] on a market with that [minSize] sends a bid and an ask of
    size zero to the venue; and so does a whole quote cycle in fixed mode
    with [fixedSize = 0.005], for each of its three levels. *)
Theorem roundSize_zero_order :
  exists size minSize : Q,
    minSize <= size
    /\ (Fin minSize < defaultStepSize)%js
    /\ (roundSize (Fin size) (Fin minSize) defaultStepSize == Fin 0)%js
    /\ (roundSize (Fin size) (Fin minSize) defaultStepSize < Fin minSize)%js
    /\ Nord.minSize Examples.market1 = Fin minSize
    /\ Live.size <$> Live.bids Examples.quotes_small = [Fin size]
    /\ Live.size <$> Live.asks Examples.quotes_small = [Fin size]
    /\ Forall2 num_eq
         (placedSizes (Live.placeQuotes (Examples.state_with ∅) 1 Examples.quotes_small))
         [Fin 0; Fin 0]
    /\ Config.validateConfig (Examples.config_fixed (Fin size)) = None
    /\ Forall2 num_eq
         (placedSizes
            (snd (Live.requote (Examples.config_fixed (Fin size)) Examples.world_mid100
                    (Examples.state_with ∅) 1 Examples.book_balanced)))
         [Fin 0; Fin 0; Fin 0; Fin 0; Fin 0; Fin 0].
Proof.
  exists 0.005, 0.001.
  split; [vm_compute; discriminate|].
  split; [reflexivity|].
  split; [apply roundSize_below_step; vm_compute; discriminate || reflexivity|].
  split; [vm_compute; reflexivity|].
  split; [reflexivity|].
  split; [reflexivity|].
  split; [reflexivity|].
  split; [vm_compute; repeat constructor|].
  split; [vm_compute; reflexivity|].
  vm_compute. repeat constructor.
Qed.

End RoundSize.

(** ** Sorting by the comparator [a - b] *)

Section Sorting.
Import Oracle.

(** Without [NaN], the comparator is positive on [(x, y)] exactly when
    [y < x]. *)
Lemma comparator_positive (x y : num) :
  is_nan x = false -> is_nan y = false ->
  (comparator x y >? Fin 0)%js = true -> (y <= x)%js.
Proof.
  destruct x as [a| | |], y as [b| | |]; unfold comparator, ngtb, num_le; simpl;
    try congruence.
  intros _ _ H. apply Qltb_lt in H. apply Qle_bool_iff. lra.
Qed.

Lemma comparator_not_positive (x y : num) :
  is_nan x = false -> is_nan y = false ->
  (comparator x y >? Fin 0)%js = false -> (x <= y)%js.
Proof.
  destruct x as [a| | |], y as [b| | |]; unfold comparator, ngtb, num_le; simpl;
    try congruence.
  intros _ _ H. apply Qltb_ge in H. apply Qle_bool_iff. lra.
Qed.

Lemma insert_perm (x : num) (l : list num) : insert x l ≡ₚ x :: l.
Proof.
  induction l as [|y l IH]; cbn [insert]; [reflexivity|].
  destruct (comparator x y >? Fin 0)%js; [|reflexivity].
  rewrite IH. apply perm_swap.
Qed.

Lemma sort_perm (l : list num) : sort l ≡ₚ l.
Proof.
  induction l as [|x l IH]; cbn [sort]; [reflexivity|].
  rewrite insert_perm, IH. reflexivity.
Qed.

Lemma sort_length (l : list num) : length (sort l) = length l.
Proof. apply Permutation_length, sort_perm. Qed.

Lemma no_nan_perm (l l' : list num) : l ≡ₚ l' -> no_nan l' -> no_nan l.
Proof. intros Hp H. unfold no_nan. rewrite Hp. exact H. Qed.

Lemma insert_sorted (x : num) (l : list num) :
  is_nan x = false -> no_nan l ->
  StronglySorted num_le l -> StronglySorted num_le (insert x l).
Proof.
  intros Hx Hl Hs. induction Hs as [|y l Hs IH Hy]; cbn [insert].
  - repeat constructor.
  - inversion Hl as [|? ? Hyn Hln]; subst.
    destruct (comparator x y >? Fin 0)%js eqn:E.
    + constructor; [apply IH; exact Hln|].
      unfold no_nan. rewrite insert_perm. constructor; [|exact Hy].
      apply comparator_positive; assumption.
    + pose proof (comparator_not_positive x y Hx Hyn E) as Hxy.
      constructor; [constructor; assumption|].
      constructor; [exact Hxy|].
      eapply Forall_impl; [exact Hy|].
      intros z Hz. simpl in Hz. eapply num_le_trans; eassumption.
Qed.

Lemma sort_sorted (l : list num) : no_nan l -> StronglySorted num_le (sort l).
Proof.
  induction l as [|x l IH]; intros H; cbn [sort]; [constructor|].
  inversion H as [|? ? Hx Hl]; subst.
  apply insert_sorted; [exact Hx| |apply IH; exact Hl].
  apply (no_nan_perm _ l); [apply sort_perm|exact Hl].
Qed.

(** [sort] computes the ascending-sorted list. *)
Lemma sort_ascending (l : list num) : ascending_of l (sort l).
Proof.
  split; [apply sort_perm|].
  intros H. apply StronglySorted_Sorted, sort_sorted, H.
Qed.

Lemma median_index (n : nat) : (0 < n)%nat -> (n / 2 < n)%nat.
Proof. intros H. apply Nat.div_lt; lia. Qed.

Lemma nth_lookup_in_range (l : list num) (k : nat) :
  (k < length l)%nat -> l !! k = Some (nth k l NaN).
Proof.
  revert k. induction l as [|x l IH]; intros [|k] H; simpl in *; try lia.
  - reflexivity.
  - apply IH. lia.
Qed.

End Sorting.

(** ** Sums and quotients up to the representation of rationals *)

Section NumAlgebra.

Lemma Qeq_bool_proper (x y z : Q) : x == y -> Qeq_bool x z = Qeq_bool y z.
Proof.
  intros H. destruct (Qeq_bool y z) eqn:E.
  - apply Qeq_bool_iff. apply Qeq_bool_iff in E. rewrite H. exact E.
  - apply Qeq_bool_false. apply Qeq_bool_false in E. rewrite H. exact E.
Qed.

Lemma Qltb_proper (x y z : Q) : x == y -> Qltb z x = Qltb z y.
Proof.
  intros H. destruct (Qltb z y) eqn:E.
  - apply Qltb_lt. apply Qltb_lt in E. rewrite H. exact E.
  - apply Qltb_ge. apply Qltb_ge in E. rewrite H. exact E.
Qed.

Lemma inf_signed_proper (s : num) (x y : Q) : x == y -> inf_signed s x = inf_signed s y.
Proof.
  intros H. unfold inf_signed.
  rewrite (Qeq_bool_proper x y 0 H), (Qltb_proper x y 0 H). reflexivity.
Qed.

Lemma nadd_proper (a a' b b' : num) :
  (a == a')%js -> (b == b')%js -> (a + b == a' + b')%js.
Proof.
  destruct a, a', b, b'; simpl; try contradiction; trivial.
  intros H1 H2. rewrite H1, H2. reflexivity.
Qed.

Lemma nadd_assoc (a b c : num) : (a + b + c == a + (b + c))%js.
Proof. destruct a, b, c; simpl; trivial. ring. Qed.

Lemma nadd_0_r (a : num) : (a + Fin 0 == a)%js.
Proof. destruct a; simpl; trivial. ring. Qed.

Lemma ndiv_proper_l (a a' c : num) : (a == a')%js -> (a / c == a' / c)%js.
Proof.
  destruct a as [x| | |], a' as [y| | |]; simpl; try contradiction;
    intros H; try apply num_eq_refl; trivial.
  destruct c as [z| | |]; simpl; trivial; try reflexivity.
  destruct (Qeq_bool z 0).
  - rewrite (inf_signed_proper PInf x y H). apply num_eq_refl.
  - simpl. rewrite H. reflexivity.
Qed.

Lemma fold_left_nadd {A} (f : A -> num) (l : list A) (acc : num) :
  (fold_left (fun sum p => (sum + f p)%js) l acc == acc + foldr nadd (Fin 0) (f <$> l))%js.
Proof.
  revert acc. induction l as [|p l IH]; intros acc; simpl.
  - apply num_eq_sym, nadd_0_r.
  - eapply num_eq_trans; [apply IH|]. apply nadd_assoc.
Qed.

Lemma nadd_0_l (a : num) : (Fin 0 + a == a)%js.
Proof. destruct a; simpl; trivial. ring. Qed.

End NumAlgebra.

(** ** Aggregation by median *)

Section Aggregation.
Import Oracle.

Lemma median_of_sort (xs : list num) :
  xs <> [] ->
  exists s,
    ascending_of xs s
    /\ s !! (length xs / 2)%nat = Some (nth (length xs / 2) (sort xs) NaN).
Proof.
  intros Hne. exists (sort xs). split; [apply sort_ascending|].
  apply nth_lookup_in_range. rewrite sort_length. apply median_index.
  destruct xs; simpl; [contradiction|lia].
Qed.

Lemma volume_mean now prices :
  (volume24h (aggregatePrices now prices) == mean (volume24h <$> prices))%js.
Proof.
  unfold aggregatePrices, mean. cbn [volume24h].
  unfold length_num. rewrite length_fmap.
  apply ndiv_proper_l.
  eapply num_eq_trans; [apply fold_left_nadd|]. apply nadd_0_l.
Qed.

(** C6.  Aggregation of [n >= 1] source prices: the returned bid, ask and
    mid are each the element at index [n / 2] of the ascending-sorted list
    of that field, each field sorted on its own; the spread is
    [(ask - bid) / mid] of the returned values; [volume24h] is the
    arithmetic mean of the reported volumes; the source tag is
    ["aggregated("], the source names joined by commas, and [")"]; the
    timestamp is the current time. *)
Theorem aggregatePrices_median now prices :
  prices <> [] ->
  let r := aggregatePrices now prices in
  let k := (length prices / 2)%nat in
  (exists s, ascending_of (bid <$> prices) s /\ s !! k = Some (bid r))
  /\ (exists s, ascending_of (ask <$> prices) s /\ s !! k = Some (ask r))
  /\ (exists s, ascending_of (mid <$> prices) s /\ s !! k = Some (mid r))
  /\ spread r = ((ask r - bid r) / mid r)%js
  /\ (volume24h r == mean (volume24h <$> prices))%js
  /\ source r = ("aggregated(" ++ String.concat "," (source <$> prices) ++ ")")%string
  /\ timestamp r = now.
Proof.
  intros Hne r k.
  assert (Hfield : forall f : ExchangePrice -> num,
             exists s, ascending_of (f <$> prices) s
                       /\ s !! k = Some (nth k (sort (f <$> prices)) NaN)).
  { intros f. subst k. rewrite <- (length_fmap f prices).
    apply median_of_sort. destruct prices; [contradiction|discriminate]. }
  split; [apply (Hfield bid)|].
  split; [apply (Hfield ask)|].
  split; [apply (Hfield mid)|].
  split; [reflexivity|].
  split; [apply volume_mean|].
  split; reflexivity.
Qed.

Lemma aggregatePrices_median_witness :
  let prices := Examples.three_quotes in
  let r := aggregatePrices (Fin 2001) prices in
  (exists s, ascending_of (bid <$> prices) s /\ s !! 1%nat = Some (bid r))
  /\ (exists s, ascending_of (ask <$> prices) s /\ s !! 1%nat = Some (ask r))
  /\ (exists s, ascending_of (mid <$> prices) s /\ s !! 1%nat = Some (mid r))
  /\ spread r = ((ask r - bid r) / mid r)%js
  /\ (volume24h r == mean (volume24h <$> prices))%js
  /\ source r = ("aggregated(" ++ String.concat "," (source <$> prices) ++ ")")%string
  /\ timestamp r = Fin 2001.
Proof.
  apply (aggregatePrices_median (Fin 2001) Examples.three_quotes).
  discriminate.
Defined.

(** On the three example quotes the bid comes from one source and the ask
    from another. *)
Example aggregatePrices_three :
  let r := aggregatePrices (Fin 2001) Examples.three_quotes in
  bid r = Fin 99 /\ ask r = Fin 102
  /\ source r = "aggregated(binance,bybit,coinbase)"%string.
Proof. cbv zeta. repeat apply conj; vm_compute; reflexivity. Qed.

End Aggregation.

(** ** Independent medians keep the bid below the ask *)

Section MedianOrder.
Import Oracle.

Lemma count_le_perm (x : num) (l l' : list num) :
  l ≡ₚ l' -> count_le x l = count_le x l'.
Proof.
  induction 1 as [|y l l' _ IH|y z l|l l' l'' _ IH1 _ IH2]; cbn [count_le].
  - reflexivity.
  - rewrite IH. reflexivity.
  - destruct (y <=? x)%js, (z <=? x)%js; reflexivity.
  - congruence.
Qed.

Lemma count_le_pointwise (x : num) (prices : list ExchangePrice) :
  (forall p, p ∈ prices -> (bid p <= ask p)%js) ->
  (count_le x (ask <$> prices) <= count_le x (bid <$> prices))%nat.
Proof.
  induction prices as [|p prices IH]; intros H; [reflexivity|].
  assert (IH' : (count_le x (ask <$> prices) <= count_le x (bid <$> prices))%nat).
  { apply IH. intros q Hq. apply H. right. exact Hq. }
  assert (Hp : (bid p <= ask p)%js) by (apply H; left; reflexivity).
  rewrite !fmap_cons. cbn [count_le].
  destruct (ask p <=? x)%js eqn:Ea.
  - assert (Hb : (bid p <= x)%js) by (eapply num_le_trans; eassumption).
    unfold num_le in Hb. rewrite Hb. lia.
  - destruct (bid p <=? x)%js; lia.
Qed.

Lemma count_le_none (x y : num) (l : list num) :
  Forall (num_le y) l -> (y <=? x)%js = false -> count_le x l = 0%nat.
Proof.
  intros Hall Hy. induction Hall as [|z l Hz _ IH]; cbn [count_le]; [reflexivity|].
  destruct (z <=? x)%js eqn:Ez; [|exact IH].
  assert (Hyx : (y <= x)%js) by (eapply num_le_trans; eassumption).
  unfold num_le in Hyx. congruence.
Qed.

(** In a sorted list at least [k + 1] elements are [<=] the one at index [k]. *)
Lemma sorted_count_ge (s : list num) (k : nat) :
  StronglySorted num_le s -> no_nan s -> (k < length s)%nat ->
  (k < count_le (nth k s NaN) s)%nat.
Proof.
  intros Hs. revert k. induction Hs as [|y s Hs IH Hy]; intros k Hnan Hk.
  - simpl in Hk. lia.
  - inversion Hnan as [|? ? Hyn Hsn]; subst. destruct k as [|k]; cbn [nth count_le].
    + rewrite (num_le_refl y Hyn). lia.
    + simpl in Hk. assert (Hk' : (k < length s)%nat) by lia.
      specialize (IH k Hsn Hk').
      assert (Hle : (y <= nth k s NaN)%js).
      { rewrite List.Forall_forall in Hy. apply Hy. apply nth_In. exact Hk'. }
      unfold num_le in Hle. rewrite Hle. lia.
Qed.

(** In a sorted list, if more than [k] elements are [<= x], the one at
    index [k] is. *)
Lemma count_nth_le (s : list num) (k : nat) (x : num) :
  StronglySorted num_le s -> (k < count_le x s)%nat -> (nth k s NaN <= x)%js.
Proof.
  intros Hs. revert k. induction Hs as [|y s Hs IH Hy]; intros k Hk.
  - simpl in Hk. lia.
  - cbn [count_le] in Hk. destruct (y <=? x)%js eqn:Ey.
    + destruct k as [|k]; cbn [nth]; [exact Ey|]. apply IH. lia.
    + rewrite (count_le_none x y s Hy Ey) in Hk. lia.
Qed.

(** C9.  If every source has [bid <= ask], so has the aggregated price:
    the element at index [n / 2] of the sorted bids is [<=] the element at
    the same index of the sorted asks, although the two lists are sorted
    independently. *)
Theorem aggregatePrices_bid_le_ask now prices :
  prices <> [] ->
  (forall p, p ∈ prices -> (bid p <= ask p)%js) ->
  (bid (aggregatePrices now prices) <= ask (aggregatePrices now prices))%js.
Proof.
  intros Hne H. unfold aggregatePrices. cbn [bid ask].
  set (k := (length prices / 2)%nat).
  assert (Hk : (k < length prices)%nat).
  { apply median_index. destruct prices; simpl; [contradiction|lia]. }
  assert (Hnb : no_nan (bid <$> prices)).
  { apply Forall_fmap, Forall_forall. intros p Hp.
    apply (num_le_not_nan_l _ (ask p)), H, Hp. }
  assert (Hna : no_nan (ask <$> prices)).
  { apply Forall_fmap, Forall_forall. intros p Hp.
    apply (num_le_not_nan_r (bid p)), H, Hp. }
  apply count_nth_le; [apply sort_sorted; exact Hnb|].
  rewrite (count_le_perm _ _ _ (sort_perm (bid <$> prices))).
  eapply Nat.lt_le_trans; [|apply count_le_pointwise; exact H].
  rewrite <- (count_le_perm _ _ _ (sort_perm (ask <$> prices))).
  apply sorted_count_ge.
  - apply sort_sorted. exact Hna.
  - apply (no_nan_perm _ (ask <$> prices)); [apply sort_perm|exact Hna].
  - rewrite sort_length, length_fmap. exact Hk.
Qed.

Lemma aggregatePrices_bid_le_ask_witness :
  (bid (aggregatePrices (Fin 2001) Examples.three_quotes)
   <= ask (aggregatePrices (Fin 2001) Examples.three_quotes))%js.
Proof.
  apply (aggregatePrices_bid_le_ask (Fin 2001) Examples.three_quotes).
  - discriminate.
  - intros p Hp. unfold Examples.three_quotes in Hp.
    repeat (apply elem_of_cons in Hp; destruct Hp as [->|Hp]; [reflexivity|]).
    apply elem_of_nil in Hp. contradiction.
Defined.

End MedianOrder.

(** * Further properties of the code *)

(** ** The risk gate as a whole *)

Section RiskGate.
Import Risk.

(** X1.  [canQuote] on a fetched account allows quoting exactly when all
    four checks pass: the margin fraction is not below
    [minMarginFraction]; a USDC balance exists and its free amount is not
    below [minFreeCollateral]; the market's position, if any, has
    [|size * entryPrice|] not above [free * maxExposurePerMarket]; and the
    total-exposure ratio is not above [maxTotalExposure].  A venue error
    always denies. *)
Theorem canQuote_allows_iff CONFIG user marketId :
  (canTrade (canQuote CONFIG (inr user) marketId) = true <->
   (Nord.leverage user <? Config.minMarginFraction (Config.risk CONFIG))%js = false
   /\ (exists balance,
         Nord.balances user !! Config.USDC_MINT_INDEX = Some balance
         /\ (Nord.availableAmount balance <? Config.minFreeCollateral (Config.risk CONFIG))%js
            = false)
   /\ (forall position,
         Nord.positions user !! marketId = Some position ->
         (nabs (Nord.pos_size position * Nord.entryPrice position)
          >? or_default (Nord.availableAmount
                           <$> Nord.balances user !! Config.USDC_MINT_INDEX) (Fin 0)
             * Config.maxExposurePerMarket (Config.risk CONFIG))%js = false)
   /\ (exposureRatio user >? Config.maxTotalExposure (Config.risk CONFIG))%js = false)
  /\ (forall message, canTrade (canQuote CONFIG (inl message) marketId) = false).
Proof.
  split; [|reflexivity].
  unfold canQuote, checkMarginFraction, checkFreeCollateral, checkMarketExposure,
    checkTotalExposure, exposureRatio.
  destruct (Nord.leverage user <? _)%js; cbn [canTrade negb allow];
    [split; [discriminate|intros [H _]; discriminate]|].
  destruct (Nord.balances user !! Config.USDC_MINT_INDEX) as [balance|];
    cbn [canTrade negb allow fmap option_fmap option_map];
    [|split; [discriminate|intros (_ & [b [Hb _]] & _); discriminate]].
  destruct (Nord.availableAmount balance <? _)%js eqn:Efree; cbn [canTrade negb allow];
    [split; [discriminate|intros (_ & [b [Hb Hf]] & _); injection Hb as <-; congruence]|].
  destruct (Nord.positions user !! marketId) as [position|]; cbn [canTrade negb allow].
  - destruct (nabs _ >? _)%js eqn:Emkt; cbn [canTrade negb allow];
      [split; [discriminate|intros (_ & _ & Hm & _); specialize (Hm position eq_refl);
                             congruence]|].
    destruct (_ / _ >? _)%js eqn:Etot; cbn [canTrade negb allow].
    + split; [discriminate|intros (_ & _ & _ & Ht); congruence].
    + split; [intros _|reflexivity].
      repeat split; try reflexivity.
      * exists balance. split; [reflexivity|exact Efree].
      * intros p Hp. injection Hp as <-. exact Emkt.
  - destruct (_ / _ >? _)%js eqn:Etot; cbn [canTrade negb allow].
    + split; [discriminate|intros (_ & _ & _ & Ht); congruence].
    + split; [intros _|reflexivity].
      repeat split; try reflexivity.
      * exists balance. split; [reflexivity|exact Efree].
      * intros p Hp. discriminate.
Qed.

Lemma canQuote_allows_iff_witness :
  canTrade (canQuote Config.CONFIG (inr Examples.user_flat) 1) = true.
Proof.
  apply (proj1 (canQuote_allows_iff Config.CONFIG Examples.user_flat 1)).
  split; [reflexivity|]. split; [|split].
  - exists (Examples.usdc 10000 10000). split; reflexivity.
  - intros position H. vm_compute in H. discriminate.
  - vm_compute. reflexivity.
Defined.

End RiskGate.

(** ** The position ratio *)

Section PositionRatio.
Import Risk.

(** X2.  With free collateral [f > 0], [maxExposurePerMarket = x > 0] and a
    reference price [p > 0], the position ratio of a position of size [s]
    is the finite number [s * p / (f * x)]: it has the sign of [s], and its
    absolute value is at most 1 exactly when the position's value
    [|s * p|] is within the budget [f * x].  Nothing clamps it to
    [[-1, 1]]. *)
Theorem getPositionRatio_sign_bound CONFIG user marketId position balance (s f x p : Q) :
  Nord.positions user !! marketId = Some position ->
  Nord.pos_size position = Fin s ->
  Nord.balances user !! Config.USDC_MINT_INDEX = Some balance ->
  Nord.availableAmount balance = Fin f ->
  Config.maxExposurePerMarket (Config.risk CONFIG) = Fin x ->
  0 < f -> 0 < x -> 0 < p ->
  exists r,
    (getPositionRatio CONFIG user marketId (Fin p) == Fin r)%js
    /\ r == s * p / (f * x)
    /\ (0 < s <-> 0 < r)
    /\ (s < 0 <-> r < 0)
    /\ (Qabs (s * p) <= f * x <-> Qabs r <= 1).
Proof.
  intros Hpos Hs Hbal Hf Hx Hf0 Hx0 Hp0.
  assert (Hfx : 0 < f * x) by nra.
  exists (s * p / (f * x)).
  assert (Hr : s * p == (s * p / (f * x)) * (f * x)) by (field; lra).
  split; [|split; [reflexivity|]].
  - unfold getPositionRatio. rewrite Hpos, Hs, Hbal. cbn [fmap option_fmap option_map].
    rewrite Hf, Hx. cbn [neqb or_default truthy].
    assert (E1 : Qeq_bool f 0 = false) by (apply Qeq_bool_false; lra).
    rewrite E1. cbn [negb neqb nmul ndiv].
    assert (E2 : Qeq_bool (f * x) 0 = false) by (apply Qeq_bool_false; lra).
    rewrite E1, E2.
    destruct (Qeq_bool s 0) eqn:E3; cbn [num_eq].
    + apply Qeq_bool_iff in E3. rewrite E3. field. lra.
    + reflexivity.
  - set (r := s * p / (f * x)) in *.
    split; [|split].
    + split; intros H; nra.
    + split; intros H; nra.
    + split; intros H.
      * apply Qabs_Qle_condition. apply Qabs_Qle_condition in H. split; nra.
      * apply Qabs_Qle_condition. apply Qabs_Qle_condition in H. split; nra.
Qed.

Lemma getPositionRatio_sign_bound_witness :
  exists r,
    (getPositionRatio Config.CONFIG Examples2.user_long 1 (Fin 110) == Fin r)%js
    /\ r == 2 * 110 / (8000 * 0.30)
    /\ (0 < 2 <-> 0 < r)
    /\ (2 < 0 <-> r < 0)
    /\ (Qabs (2 * 110) <= 8000 * 0.30 <-> Qabs r <= 1).
Proof.
  apply (getPositionRatio_sign_bound Config.CONFIG Examples2.user_long 1
           (Examples.long_position 1 2 100) (Examples.usdc 10000 8000) 2 8000 0.30 110);
    reflexivity.
Defined.

End PositionRatio.

(** ** Bounds of the imbalance *)

Section ImbalanceBounds.
Import Spread.

Lemma imbalance_of_depths (qB qA : Q) :
  0 <= qB -> 0 <= qA ->
  exists q,
    (if (Fin qB + Fin qA >? Fin 0)%js
     then ((Fin qB - Fin qA) / (Fin qB + Fin qA))%js else Fin 0) = Fin q
    /\ - (1) <= q <= 1
    /\ (q == 1 <-> 0 < qB /\ qA == 0)
    /\ (q == - (1) <-> 0 < qA /\ qB == 0).
Proof.
  intros HB HA. cbn [nadd nsub nneg ngtb nltb ndiv].
  destruct (Qltb 0 (qB + qA)) eqn:Et.
  - apply Qltb_lt in Et.
    assert (Hne : Qeq_bool (qB + qA) 0 = false) by (apply Qeq_bool_false; lra).
    rewrite Hne. eexists. split; [reflexivity|].
    set (t := qB + qA) in *. set (q := (qB + - qA) / t).
    assert (Hq : qB + - qA == q * t) by (unfold q; field; lra).
    assert (Ht : t == qB + qA) by reflexivity.
    clearbody q t.
    split; [split; nra|]. split; split.
    + intros H1. rewrite H1 in Hq. split; lra.
    + intros [H1 H2]. nra.
    + intros H1. rewrite H1 in Hq. split; lra.
    + intros [H1 H2]. nra.
  - apply Qltb_ge in Et. exists 0. split; [reflexivity|].
    split; [split; lra|]. split; split; intros H; lra.
Qed.

(** X3.  On a book whose level sizes are finite and non-negative, the
    imbalance, both the one [computeDynamicSpread] reports and
    [getOrderbookImbalance] for any number of levels, is a finite number
    in [[-1, 1]]; and when each side holds at least [spread.depthLevels]
    levels the two functions agree at that depth. *)
Theorem imbalance_bounds CONFIG orderbook (levels : nat) (sizesB sizesA : list Q) :
  Nord.size <$> Nord.bids orderbook = Fin <$> sizesB ->
  Nord.size <$> Nord.asks orderbook = Fin <$> sizesA ->
  Forall (Qle 0) sizesB ->
  Forall (Qle 0) sizesA ->
  (exists q, getOrderbookImbalance orderbook levels = Fin q /\ - (1) <= q <= 1)
  /\ (exists q, imbalance (computeDynamicSpread CONFIG orderbook) = Fin q
                /\ - (1) <= q <= 1)
  /\ ((Config.depthLevels (Config.spread CONFIG) <= length (Nord.bids orderbook))%nat ->
      (Config.depthLevels (Config.spread CONFIG) <= length (Nord.asks orderbook))%nat ->
      imbalance (computeDynamicSpread CONFIG orderbook)
      = getOrderbookImbalance orderbook (Config.depthLevels (Config.spread CONFIG))).
Proof.
  intros HB HA HposB HposA.
  assert (Hgen : forall d,
             exists q,
               (if (sumDepth (take d (Nord.bids orderbook))
                    + sumDepth (take d (Nord.asks orderbook)) >? Fin 0)%js
                then ((sumDepth (take d (Nord.bids orderbook))
                       - sumDepth (take d (Nord.asks orderbook)))
                      / (sumDepth (take d (Nord.bids orderbook))
                         + sumDepth (take d (Nord.asks orderbook))))%js
                else Fin 0) = Fin q
               /\ - (1) <= q <= 1).
  { intros d.
    destruct (sumDepth_take d _ _ HB) as [qB [EB HqB]].
    destruct (sumDepth_take d _ _ HA) as [qA [EA HqA]].
    rewrite EB, EA.
    destruct (imbalance_of_depths qB qA) as [q [Hq [Hb _]]].
    - rewrite HqB. apply depth_nonneg. exact HposB.
    - rewrite HqA. apply depth_nonneg. exact HposA.
    - exists q. split; assumption. }
  split; [apply Hgen|]. split; [apply Hgen|].
  intros Hlb Hla. unfold computeDynamicSpread, getOrderbookImbalance. cbn [imbalance].
  rewrite (Nat.min_l _ (Nat.min _ _)) by (apply Nat.min_glb; assumption).
  reflexivity.
Qed.

Lemma imbalance_bounds_witness :
  (exists q, getOrderbookImbalance Examples.book_imbalanced 1 = Fin q /\ - (1) <= q <= 1)
  /\ (exists q, imbalance (computeDynamicSpread Config.CONFIG Examples.book_imbalanced) = Fin q
                /\ - (1) <= q <= 1).
Proof.
  destruct (imbalance_bounds Config.CONFIG Examples.book_imbalanced 1 [40; 40] [10; 10]
              eq_refl eq_refl
              ltac:(repeat constructor; vm_compute; discriminate)
              ltac:(repeat constructor; vm_compute; discriminate))
    as (H1 & H2 & _).
  split; assumption.
Defined.

End ImbalanceBounds.

(** ** The size ladder *)

Section LevelSizes.
Import Sizing.

Lemma or_default_cases (o : option num) :
  or_default o (Fin 0) = Fin 0
  \/ (truthy (or_default o (Fin 0)) = true /\ o = Some (or_default o (Fin 0))).
Proof.
  destruct o as [a|]; simpl; [|left; reflexivity].
  destruct (truthy a) eqn:E; [right; split; [exact E|reflexivity]|left; reflexivity].
Qed.

Lemma truthy_not_zero (a : num) : truthy a = true -> (a =? Fin 0)%js = false.
Proof.
  destruct a as [q| | |]; simpl; try discriminate; try reflexivity.
  destruct (Qeq_bool q 0); [discriminate|reflexivity].
Qed.

Lemma level_of_fmap (g : nat -> LevelSize) (l : list nat) :
  (forall i, level (g i) = i) -> level <$> (g <$> l) = l.
Proof.
  intros H. induction l as [|i l IH]; [reflexivity|].
  rewrite !fmap_cons, H, IH. reflexivity.
Qed.

(** X4.  [calculateLevelSizes] returns the empty ladder exactly when the
    free collateral is missing, zero or [NaN] (or [maxLevels] is 0);
    otherwise it returns [maxLevels] entries numbered [0 .. maxLevels - 1],
    whatever the quantity mode. *)
Theorem calculateLevelSizes_shape CONFIG user marketId :
  let free :=
    or_default (Nord.availableAmount
                  <$> Nord.balances user !! Config.USDC_MINT_INDEX) (Fin 0) in
  (truthy free = false -> calculateLevelSizes CONFIG user marketId = [])
  /\ (truthy free = true ->
      level <$> calculateLevelSizes CONFIG user marketId = seq 0 (Config.maxLevels CONFIG)).
Proof.
  intros free. unfold calculateLevelSizes. fold free. split.
  - intros Hf. destruct (or_default_cases
                           (Nord.availableAmount
                              <$> Nord.balances user !! Config.USDC_MINT_INDEX))
      as [H0|[Ht _]].
    + fold free in H0. rewrite H0. reflexivity.
    + fold free in Ht. congruence.
  - intros Ht. rewrite (truthy_not_zero free Ht).
    destruct (Config.quantityMode CONFIG);
      unfold calculateFixedSizes, calculatePercentageSizes, calculateTieredSizes;
      apply level_of_fmap; intros; reflexivity.
Qed.

Lemma calculateLevelSizes_shape_witness :
  calculateLevelSizes Config.CONFIG Examples.user_broke_flat 1 = []
  /\ level <$> calculateLevelSizes Config.CONFIG Examples.user_flat 1 = [0; 1; 2]%nat.
Proof.
  split.
  - apply (proj1 (calculateLevelSizes_shape Config.CONFIG Examples.user_broke_flat 1)).
    reflexivity.
  - apply (proj2 (calculateLevelSizes_shape Config.CONFIG Examples.user_flat 1)).
    reflexivity.
Defined.

End LevelSizes.

(** ** Validation of the tiered ladder *)

Section TieredValidation.
Import Sizing.

Lemma num_eq_Fin_inv (a : num) (t : Q) : (a == Fin t)%js -> exists t', a = Fin t' /\ t' == t.
Proof. destruct a as [q| | |]; simpl; try contradiction. intros H. exists q. auto. Qed.

Lemma tier_sum (c : Q) (qs : list Q) (k n : nat) :
  (foldr nadd (Fin 0)
     ((fun i => (Fin c * or_default ((Fin <$> qs) !! i) (Fin 0))%js) <$> seq k n)
   == Fin (c * foldr Qplus 0 (take n (drop k qs))))%js.
Proof.
  revert k. induction n as [|n IH]; intros k.
  - simpl. ring.
  - cbn [seq]. rewrite fmap_cons. cbn [fold_right].
    destruct (num_eq_Fin_inv _ _ (IH (S k))) as [r [-> Hr]].
    rewrite list_lookup_fmap.
    destruct (qs !! k) as [q|] eqn:E.
    + rewrite (drop_S _ _ _ E). cbn [firstn fold_right fmap option_fmap option_map or_default truthy].
      destruct (Qeq_bool q 0) eqn:Eq; cbn [negb nmul nadd num_eq].
      * apply Qeq_bool_iff in Eq. rewrite Hr, Eq. ring.
      * rewrite Hr. ring.
    + apply lookup_ge_None in E.
      rewrite (drop_ge qs k) by exact E.
      rewrite (drop_ge qs (S k)) in Hr by lia.
      cbn [fmap option_fmap option_map or_default nmul nadd num_eq].
      rewrite Hr. rewrite !take_nil. simpl. ring.
Qed.

Lemma tiered_total CONFIG (f x : Q) (qs : list Q) :
  Config.maxExposurePerMarket (Config.risk CONFIG) = Fin x ->
  Config.tieredMultipliers CONFIG = Fin <$> qs ->
  exists t,
    getTotalSize (calculateTieredSizes CONFIG (Fin f)) = Fin t
    /\ t == f * x * foldr Qplus 0 (take (Config.maxLevels CONFIG) qs).
Proof.
  intros Hx Hms. apply num_eq_Fin_inv.
  unfold getTotalSize, calculateTieredSizes.
  eapply num_eq_trans; [apply fold_left_nadd|].
  eapply num_eq_trans; [apply nadd_0_l|].
  rewrite <- list_fmap_compose. rewrite Hx, Hms.
  eapply num_eq_trans; [apply (tier_sum (f * x) qs 0)|].
  rewrite drop_0. simpl. reflexivity.
Qed.

Lemma tiered_validateSizes CONFIG user marketId balance (f x y p : Q) (qs : list Q) :
  Config.quantityMode CONFIG = Config.tiered ->
  Config.tieredMultipliers CONFIG = Fin <$> qs ->
  Config.maxExposurePerMarket (Config.risk CONFIG) = Fin x ->
  Config.maxExposurePerSide (Config.risk CONFIG) = Fin y ->
  Nord.balances user !! Config.USDC_MINT_INDEX = Some balance ->
  Nord.availableAmount balance = Fin f ->
  0 < f ->
  validateSizes CONFIG (calculateLevelSizes CONFIG user marketId) (Fin f) (Fin p) = true
  <-> x * foldr Qplus 0 (take (Config.maxLevels CONFIG) qs) * p <= y.
Proof.
  intros Hmode Hms Hx Hy Hbal Hf Hf0.
  unfold calculateLevelSizes. rewrite Hbal. cbn [fmap option_fmap option_map].
  rewrite Hf. cbn [or_default truthy neqb].
  assert (E : Qeq_bool f 0 = false) by (apply Qeq_bool_false; lra).
  rewrite E. cbn [negb neqb]. rewrite E, Hmode.
  destruct (tiered_total CONFIG f x qs Hx Hms) as [t [Ht Hsum]].
  unfold validateSizes. rewrite Ht, Hy. cbn [nmul ngtb nltb].
  set (S := foldr Qplus 0 (take (Config.maxLevels CONFIG) qs)) in *.
  destruct (Qltb (f * y) (t * p)) eqn:El.
  - apply Qltb_lt in El. split; [discriminate|]. intros H. exfalso.
    rewrite Hsum in El. nra.
  - apply Qltb_ge in El. split; [intros _|reflexivity].
    rewrite Hsum in El. nra.
Qed.

Lemma placedSizes_app (l1 l2 : list Live.Event) :
  placedSizes (l1 ++ l2) = placedSizes l1 ++ placedSizes l2.
Proof. unfold placedSizes. apply omap_app. Qed.

Lemma placedSizes_cancels (ids : list string) :
  placedSizes (Live.CancelOrder <$> ids) = [].
Proof. induction ids as [|i ids IH]; [reflexivity|]. exact IH. Qed.

Lemma cancelMarketOrders_places_nothing w st marketId :
  placedSizes (snd (Live.cancelMarketOrders w st marketId)) = [].
Proof.
  unfold Live.cancelMarketOrders. destruct (Live.fetched w); [|reflexivity].
  cbn [snd]. rewrite list_fmap_compose. apply (placedSizes_cancels (fst <$> _)).
Qed.

Lemma cancelMarketOrders_user w st marketId :
  Live.user (fst (Live.cancelMarketOrders w st marketId))
  = default (Live.user st) (Live.fetched w).
Proof. unfold Live.cancelMarketOrders. destruct (Live.fetched w); reflexivity. Qed.

Lemma cancelMarketOrders_currentQuotes w st marketId :
  Live.currentQuotes (fst (Live.cancelMarketOrders w st marketId)) = Live.currentQuotes st.
Proof. unfold Live.cancelMarketOrders. destruct (Live.fetched w); reflexivity. Qed.

(** X6.  With the shipped configuration (tiered mode, multipliers summing
    to 1, [maxExposurePerMarket = 0.30], [maxExposurePerSide = 0.25]) a
    quote cycle places no order and records no ladder whenever the
    reference price is at least [0.84] and the free collateral is at least
    [1]: the tiered ladder is worth [0.30 * free * price], at least
    [0.252 * free], which exceeds the side budget [0.25 * free], so
    [validateSizes] rejects it.  (The products meet at the price [5/6];
    the statement keeps a distance from it.) *)
Theorem shipped_config_places_nothing w st marketId orderbook balance (p f : Q) :
  Live.midPrice w = Some (Fin p) ->
  0.84 <= p ->
  Nord.balances (default (Live.user st) (Live.fetched w)) !! Config.USDC_MINT_INDEX
    = Some balance ->
  Nord.availableAmount balance = Fin f ->
  1 <= f ->
  placedSizes (snd (Live.requote Config.CONFIG w st marketId orderbook)) = []
  /\ Live.currentQuotes (fst (Live.requote Config.CONFIG w st marketId orderbook))
     = Live.currentQuotes st.
Proof.
  intros Hmid Hp Hbal Hf Hf0. unfold Live.requote. rewrite Hmid.
  destruct (negb (truthy (Fin p))); [split; reflexivity|].
  destruct (negb (Live.shouldRequote _ _ _ _ _)); [split; reflexivity|].
  match goal with
  | |- context [Live.cancelMarketOrders w ?s marketId] =>
      pose proof (cancelMarketOrders_places_nothing w s marketId) as Hplaces;
      pose proof (cancelMarketOrders_user w s marketId) as Huser;
      pose proof (cancelMarketOrders_currentQuotes w s marketId) as Hquotes;
      destruct (Live.cancelMarketOrders w s marketId) as [st2 cancels]
  end.
  cbn [fst snd Live.user Live.currentQuotes] in Hplaces, Huser, Hquotes.
  rewrite <- Huser in Hbal.
  assert (Hnone : placedSizes (Live.SetLastQuotePrices marketId
                     {| Live.bid := Inventory.bidPrice
                                      (Inventory.applyInventorySkew Config.CONFIG
                                         (Live.user st) marketId (Fin p)
                                         (Spread.spread
                                            (Spread.computeDynamicSpread Config.CONFIG orderbook)));
                        Live.ask := Inventory.askPrice
                                      (Inventory.applyInventorySkew Config.CONFIG
                                         (Live.user st) marketId (Fin p)
                                         (Spread.spread
                                            (Spread.computeDynamicSpread Config.CONFIG orderbook)));
                        Live.timestamp := Live.now_stored w |} :: cancels) = [])
    by exact Hplaces.
  assert (Hsizes :
            calculateLevelSizes Config.CONFIG (Live.user st2) marketId = []
            \/ validateSizes Config.CONFIG
                 (calculateLevelSizes Config.CONFIG (Live.user st2) marketId)
                 (or_default (Nord.availableAmount
                                <$> Nord.balances (Live.user st2) !! 0%Z) (Fin 0))
                 (Fin p) = false).
  { change 0%Z with Config.USDC_MINT_INDEX.
    destruct (Qeq_bool f 0) eqn:Ef.
    - left. unfold calculateLevelSizes. rewrite Hbal.
      cbn [fmap option_fmap option_map]. rewrite Hf. cbn [or_default truthy].
      rewrite Ef. reflexivity.
    - right. apply Qeq_bool_false in Ef.
      rewrite Hbal. cbn [fmap option_fmap option_map]. rewrite Hf.
      cbn [or_default truthy].
      assert (Ef' : Qeq_bool f 0 = false) by (apply Qeq_bool_false; exact Ef).
      rewrite Ef'. cbn [negb].
      destruct (validateSizes Config.CONFIG _ (Fin f) (Fin p)) eqn:Ev; [|reflexivity].
      exfalso.
      apply (tiered_validateSizes Config.CONFIG (Live.user st2) marketId balance
               f 0.30 0.25 p [0.5; 0.3; 0.2]) in Ev;
        try reflexivity; try assumption; [|lra].
      cbn in Ev. lra. }
  destruct Hsizes as [Hempty|Hinvalid].
  - rewrite Hempty. split; [exact Hnone|exact Hquotes].
  - destruct (length _ =? 0)%nat; [split; [exact Hnone|exact Hquotes]|].
    rewrite Hinvalid. split; [exact Hnone|exact Hquotes].
Qed.

Lemma shipped_config_places_nothing_witness :
  placedSizes (snd (Live.requote Config.CONFIG Examples.world_mid100
                      (Examples.state_with ∅) 1 Examples.book_balanced)) = []
  /\ Live.currentQuotes (fst (Live.requote Config.CONFIG Examples.world_mid100
                                (Examples.state_with ∅) 1 Examples.book_balanced))
     = ∅.
Proof.
  apply (shipped_config_places_nothing Examples.world_mid100 (Examples.state_with ∅) 1
           Examples.book_balanced (Examples.usdc 10000 10000) 100 10000);
    try reflexivity; vm_compute; discriminate.
Defined.

End TieredValidation.

(** ** Geometry of the skewed quotes *)

Section SkewGeometry.
Import Inventory.

Lemma applyInventorySkew_finite CONFIG user marketId (b s beta k : Q) :
  bias (applyInventorySkew CONFIG user marketId (Fin b) (Fin s)) = Fin beta ->
  skewFactor (applyInventorySkew CONFIG user marketId (Fin b) (Fin s)) = Fin k ->
  exists bid ask,
    bidPrice (applyInventorySkew CONFIG user marketId (Fin b) (Fin s)) = Fin bid
    /\ askPrice (applyInventorySkew CONFIG user marketId (Fin b) (Fin s)) = Fin ask
    /\ (Config.inventorySkewEnabled CONFIG = false ->
        bid == b * (1 - s / 2 + beta) /\ ask == b * (1 + s / 2 + beta))
    /\ (Config.inventorySkewEnabled CONFIG = true ->
        bid == b * (1 + (k + beta)) * (1 - s / 2)
        /\ ask == b * (1 + (k + beta)) * (1 + s / 2)).
Proof.
  unfold applyInventorySkew.
  destruct (Config.inventorySkewEnabled CONFIG); cbn [negb bias skewFactor bidPrice askPrice].
  - intros Hbias Hk. rewrite Hbias, Hk. cbn.
    eexists. eexists. split; [reflexivity|]. split; [reflexivity|].
    split; [discriminate|]. intros _. split; reflexivity.
  - intros Hbias _. rewrite Hbias. cbn.
    eexists. eexists. split; [reflexivity|]. split; [reflexivity|].
    split; [|discriminate]. intros _. split; reflexivity.
Qed.

(** X9.  Order and direction of the skewed quotes, for a finite base
    price [b >= 0] and a finite spread [s >= 0], [beta] being the bias the
    result reports and [k] its skew factor.  With the skew disabled the
    bid is at most [b * (1 + beta)] and the ask at least that.  With the
    skew enabled and [1 + k + beta >= 0] the bid is at most the adjusted
    base price [b * (1 + (k + beta))] and the ask at least that; and for
    [s <= 2] an adjustment [k + beta >= 0] (a long position beyond the dead
    band, or a positive bias) puts neither quote below the unadjusted
    quotes [b * (1 - s / 2)] and [b * (1 + s / 2)], while an adjustment
    [k + beta <= 0] puts neither above them. *)
Theorem applyInventorySkew_geometry CONFIG user marketId (b s beta k : Q) :
  let r := applyInventorySkew CONFIG user marketId (Fin b) (Fin s) in
  bias r = Fin beta ->
  skewFactor r = Fin k ->
  0 <= b -> 0 <= s ->
  exists bid ask,
    bidPrice r = Fin bid /\ askPrice r = Fin ask
    /\ (Config.inventorySkewEnabled CONFIG = false ->
        bid <= b * (1 + beta) /\ b * (1 + beta) <= ask)
    /\ (Config.inventorySkewEnabled CONFIG = true ->
        0 <= 1 + (k + beta) ->
        (bid <= b * (1 + (k + beta)) /\ b * (1 + (k + beta)) <= ask)
        /\ (s <= 2 -> 0 <= k + beta ->
            b * (1 - s / 2) <= bid /\ b * (1 + s / 2) <= ask)
        /\ (s <= 2 -> k + beta <= 0 ->
            bid <= b * (1 - s / 2) /\ ask <= b * (1 + s / 2))).
Proof.
  intros r Hbias Hk Hb0 Hs0.
  destruct (applyInventorySkew_finite CONFIG user marketId b s beta k Hbias Hk)
    as (bid & ask & Hb & Ha & Hoff & Hon).
  exists bid, ask. split; [exact Hb|]. split; [exact Ha|].
  assert (Hh : s / 2 == s * (1 # 2)) by field.
  assert (Hh0 : 0 <= s / 2) by (rewrite Hh; lra).
  set (h := s / 2) in *. clearbody h.
  assert (Hbh : 0 <= b * h) by (apply Qmult_le_0_compat; assumption).
  split.
  - intros H. destruct (Hoff H) as [-> ->]. split; lra.
  - intros H Hc. destruct (Hon H) as [-> ->].
    set (c := 1 + (k + beta)) in *.
    assert (Hbc : 0 <= b * c) by (apply Qmult_le_0_compat; assumption).
    assert (Hbch : 0 <= b * c * h) by (apply Qmult_le_0_compat; assumption).
    split; [split; lra|]. split.
    + intros Hs2 Hadj.
      assert (Hh1 : h <= 1) by lra.
      assert (H1 : 0 <= b * (k + beta)) by (apply Qmult_le_0_compat; assumption).
      assert (H2 : 0 <= b * (k + beta) * (1 - h)) by (apply Qmult_le_0_compat; lra).
      assert (H3 : 0 <= b * (k + beta) * (1 + h)) by (apply Qmult_le_0_compat; lra).
      subst c. split; lra.
    + intros Hs2 Hadj.
      assert (Hh1 : h <= 1) by lra.
      assert (H1 : 0 <= b * - (k + beta)) by (apply Qmult_le_0_compat; lra).
      assert (H2 : 0 <= b * - (k + beta) * (1 - h)) by (apply Qmult_le_0_compat; lra).
      assert (H3 : 0 <= b * - (k + beta) * (1 + h)) by (apply Qmult_le_0_compat; lra).
      subst c. split; lra.
Qed.

Lemma applyInventorySkew_geometry_witness :
  let r := applyInventorySkew Config.CONFIG Examples2.user_long 1 (Fin 100) (Fin 0.002) in
  exists bid ask,
    bidPrice r = Fin bid /\ askPrice r = Fin ask
    /\ bid <= 100 * (1 + (2 * 100 / (8000 * 0.30) * 0.002 + 0))
    /\ 100 * (1 + (2 * 100 / (8000 * 0.30) * 0.002 + 0)) <= ask
    /\ 100 * (1 - 0.002 / 2) <= bid
    /\ 100 * (1 + 0.002 / 2) <= ask.
Proof.
  destruct (applyInventorySkew_geometry Config.CONFIG Examples2.user_long 1
              100 0.002 0 (2 * 100 / (8000 * 0.30) * 0.002))
    as (bid & ask & Hb & Ha & _ & Hon);
    try reflexivity; try (vm_compute; discriminate).
  destruct (Hon eq_refl) as ([H1 H2] & Hup & _); [vm_compute; discriminate|].
  destruct Hup as [H3 H4]; try (vm_compute; discriminate).
  exists bid, ask. repeat split; assumption.
Defined.

(** X10.  The dead band of the skew.  With the skew enabled, a finite
    position ratio [rho] and a finite [inventorySkewFactor > 0], the skew
    factor is [0] while [|rho| <= 0.05] and [rho * inventorySkewFactor]
    beyond, so it is positive for a long position above 5% of the budget
    and negative for a short one below -5%. *)
Theorem skewFactor_dead_band CONFIG user marketId (basePrice spread : num) (rho kappa : Q) :
  Config.inventorySkewEnabled CONFIG = true ->
  Risk.getPositionRatio CONFIG user marketId basePrice = Fin rho ->
  Config.inventorySkewFactor CONFIG = Fin kappa ->
  0 < kappa ->
  exists k,
    skewFactor (applyInventorySkew CONFIG user marketId basePrice spread) = Fin k
    /\ (Qabs rho <= 0.05 -> k == 0)
    /\ (0.05 < Qabs rho -> k == rho * kappa)
    /\ (0.05 < rho -> 0 < k)
    /\ (rho < - 0.05 -> k < 0).
Proof.
  intros Hon Hrho Hkappa Hpos. unfold applyInventorySkew. rewrite Hon.
  cbn [negb skewFactor]. rewrite Hrho, Hkappa. cbn [nabs ngtb nltb nmul].
  destruct (Qltb 0.05 (Qabs rho)) eqn:E.
  - apply Qltb_lt in E. exists (rho * kappa). split; [reflexivity|].
    split; [intros H; lra|]. split; [reflexivity|]. split; intros H; nra.
  - apply Qltb_ge in E. exists 0. split; [reflexivity|].
    split; [reflexivity|]. split; [intros H; lra|].
    split; intros H; exfalso.
    + rewrite Qabs_pos in E; lra.
    + rewrite Qabs_neg in E; lra.
Qed.

Lemma skewFactor_dead_band_witness :
  exists k,
    skewFactor (applyInventorySkew Config.CONFIG Examples2.user_long 1 (Fin 120) (Fin 0.002))
    = Fin k
    /\ (Qabs (2 * 120 / (8000 * 0.30)) <= 0.05 -> k == 0)
    /\ (0.05 < Qabs (2 * 120 / (8000 * 0.30)) -> k == 2 * 120 / (8000 * 0.30) * 0.002)
    /\ (0.05 < 2 * 120 / (8000 * 0.30) -> 0 < k)
    /\ (2 * 120 / (8000 * 0.30) < - 0.05 -> k < 0).
Proof.
  apply (skewFactor_dead_band Config.CONFIG Examples2.user_long 1 (Fin 120) (Fin 0.002)
           (2 * 120 / (8000 * 0.30)) 0.002); reflexivity.
Defined.

End SkewGeometry.

(** ** Inventory status *)

Section InventoryReports.
Import Inventory.

Lemma getPositionRatio_flat CONFIG user marketId midPrice :
  (forall position, Nord.positions user !! marketId = Some position ->
                    (Nord.pos_size position =? Fin 0)%js = true) ->
  Risk.getPositionRatio CONFIG user marketId midPrice = Fin 0.
Proof.
  intros H. unfold Risk.getPositionRatio.
  destruct (Nord.positions user !! marketId) as [position|]; [|reflexivity].
  rewrite (H position eq_refl). reflexivity.
Qed.

(** X12.  [getInventoryStatus] and [applyInventorySkew] agree.  With the
    skew enabled, the status reports the position ratio and the bias the
    quote is built from, [needsSkew] says whether the quote's ratio is
    beyond the 5% dead band, and [hasPosition] is false exactly when the
    market has no position or one of size zero. *)
Theorem getInventoryStatus_consistent CONFIG user marketId (midPrice spread : num) :
  Config.inventorySkewEnabled CONFIG = true ->
  let status := getInventoryStatus CONFIG user marketId midPrice in
  let quote := applyInventorySkew CONFIG user marketId midPrice spread in
  status_positionRatio status = positionRatio quote
  /\ status_bias status = bias quote
  /\ needsSkew status = (nabs (positionRatio quote) >? Fin 0.05)%js
  /\ (hasPosition status = false <->
      forall position, Nord.positions user !! marketId = Some position ->
                       (Nord.pos_size position =? Fin 0)%js = true).
Proof.
  intros Hon status quote. subst status quote.
  unfold getInventoryStatus, applyInventorySkew. rewrite Hon.
  cbn [negb positionRatio bias].
  destruct (Nord.positions user !! marketId) as [position|] eqn:Epos.
  - destruct (Nord.pos_size position =? Fin 0)%js eqn:Ez.
    + rewrite (getPositionRatio_flat CONFIG user marketId midPrice).
      * cbn. repeat split; try reflexivity.
        intros _ p Hp. injection Hp as <-. exact Ez.
      * intros p Hp. rewrite Epos in Hp. injection Hp as <-. exact Ez.
    + cbn. repeat split; try reflexivity; try discriminate.
      intros H. specialize (H position eq_refl). congruence.
  - rewrite (getPositionRatio_flat CONFIG user marketId midPrice).
    + cbn. repeat split; try reflexivity. intros _ p Hp. discriminate.
    + intros p Hp. rewrite Epos in Hp. discriminate.
Qed.

Lemma getInventoryStatus_consistent_witness :
  let status := getInventoryStatus Config.CONFIG Examples2.user_long 1 (Fin 100) in
  let quote := applyInventorySkew Config.CONFIG Examples2.user_long 1 (Fin 100) (Fin 0.002) in
  status_positionRatio status = positionRatio quote
  /\ status_bias status = bias quote
  /\ needsSkew status = (nabs (positionRatio quote) >? Fin 0.05)%js
  /\ (hasPosition status = false <->
      forall position, Nord.positions Examples2.user_long !! 1%Z = Some position ->
                       (Nord.pos_size position =? Fin 0)%js = true).
Proof.
  apply (getInventoryStatus_consistent Config.CONFIG Examples2.user_long 1
           (Fin 100) (Fin 0.002)).
  reflexivity.
Defined.

End InventoryReports.

(** ** Hedging *)

Section HedgeOrders.
Import Hedging.

(** X13.  [executeHedge] sends at most one order.  It sends none when
    hedging is disabled or the market has no position or one of size
    zero.  The order it sends is a reduce-only market order without a
    price on the same market, of size [0.3 * |position.size|], on the ask
    side for a long position and on the bid side for a short one. *)
Theorem executeHedge_order CONFIG user marketId midPrice :
  (executeHedge CONFIG user marketId midPrice = None <->
   Config.autoHedge_enabled (Config.autoHedge CONFIG) = false
   \/ forall position, Nord.positions user !! marketId = Some position ->
                       (Nord.pos_size position =? Fin 0)%js = true)
  /\ (forall order,
        executeHedge CONFIG user marketId midPrice = Some order ->
        Nord.po_marketId order = marketId
        /\ Nord.po_fillMode order = Nord.Market_
        /\ Nord.po_isReduceOnly order = true
        /\ Nord.po_price order = None
        /\ exists position,
             Nord.positions user !! marketId = Some position
             /\ Nord.po_size order = (nabs (Nord.pos_size position) * Fin 0.3)%js
             /\ forall s, Nord.pos_size position = Fin s ->
                          (0 < s -> Nord.po_side order = Nord.Ask)
                          /\ (s < 0 -> Nord.po_side order = Nord.Bid)).
Proof.
  unfold executeHedge.
  destruct (Config.autoHedge_enabled (Config.autoHedge CONFIG)); cbn [negb];
    [|split; [split; auto|discriminate]].
  destruct (Nord.positions user !! marketId) as [position|].
  - destruct (Nord.pos_size position =? Fin 0)%js eqn:Ez.
    + split; [|discriminate]. split; [intros _|reflexivity].
      right. intros p Hp. injection Hp as <-. exact Ez.
    + split.
      * split; [discriminate|]. intros [H|H]; [discriminate|].
        specialize (H position eq_refl). congruence.
      * intros order Horder. injection Horder as <-. cbn.
        repeat split. exists position. repeat split.
        -- intros Hs. rewrite H. cbn. apply Qltb_lt in Hs. rewrite Hs. reflexivity.
        -- intros Hs. rewrite H. cbn.
           assert (E : Qltb 0 s = false) by (apply Qltb_ge; lra).
           rewrite E. reflexivity.
  - split; [|discriminate]. split; [intros _|reflexivity].
    right. intros p Hp. discriminate.
Qed.

Lemma executeHedge_order_witness :
  let cfg := Examples2.config_hedge in
  exists order,
    executeHedge cfg Examples2.user_short 1 (Fin 100) = Some order
    /\ Nord.po_isReduceOnly order = true
    /\ Nord.po_side order = Nord.Bid.
Proof.
  intros cfg.
  destruct (executeHedge cfg Examples2.user_short 1 (Fin 100)) as [order|] eqn:E;
    [|vm_compute in E; discriminate].
  exists order. split; [reflexivity|].
  destruct (proj2 (executeHedge_order cfg Examples2.user_short 1 (Fin 100)) order E)
    as (_ & _ & Hr & _ & position & Hpos & _ & Hside).
  split; [exact Hr|].
  vm_compute in Hpos. injection Hpos as <-.
  apply (proj2 (Hside (-2) eq_refl)). reflexivity.
Defined.

End HedgeOrders.

Section HedgeTriggers.
Import Hedging.

Lemma ngtb_proper (a a' t : num) : (a == a')%js -> (a >? t)%js = (a' >? t)%js.
Proof.
  destruct a as [x| | |], a' as [y| | |]; simpl; try contradiction; trivial.
  intros H. unfold ngtb. destruct t as [z| | |]; simpl; trivial.
  destruct (Qltb z y) eqn:E.
  - apply Qltb_lt. apply Qltb_lt in E. rewrite H. exact E.
  - apply Qltb_ge. apply Qltb_ge in E. rewrite H. exact E.
Qed.

(** X14.  The two hedge triggers.  For a position of finite size [s], a
    finite price [p] and [maxExposurePerMarket = x > 0]:
    with free collateral [f > 0], [shouldHedge] and [needsHedge] give the
    same answer; with free collateral [0], hedging enabled, a position
    worth something and a finite threshold [t >= 0], [needsHedge] says no
    (its ratio is guarded to [0]) while [shouldHedge] divides by zero and
    says yes. *)
Theorem hedge_triggers CONFIG user marketId position balance (s p f x : Q) :
  Nord.positions user !! marketId = Some position ->
  Nord.pos_size position = Fin s ->
  Nord.balances user !! Config.USDC_MINT_INDEX = Some balance ->
  Nord.availableAmount balance = Fin f ->
  Config.maxExposurePerMarket (Config.risk CONFIG) = Fin x ->
  0 < x ->
  (0 < f ->
   shouldHedge CONFIG (Fin s) (Fin p) (Fin f)
   = Inventory.needsHedge CONFIG user marketId (Fin p))
  /\ (f == 0 ->
      Config.autoHedge_enabled (Config.autoHedge CONFIG) = true ->
      ~ s * p == 0 ->
      forall t, Config.imbalanceThreshold (Config.autoHedge CONFIG) = Fin t -> 0 <= t ->
      shouldHedge CONFIG (Fin s) (Fin p) (Fin f) = true
      /\ Inventory.needsHedge CONFIG user marketId (Fin p) = false).
Proof.
  intros Hpos Hs Hbal Hf Hx Hx0.
  unfold shouldHedge, Inventory.needsHedge, Risk.getPositionRatio.
  rewrite Hpos, Hs, Hbal. cbn [fmap option_fmap option_map]. rewrite Hf, Hx.
  cbn [or_default truthy neqb nmul nabs].
  split.
  - intros Hf0.
    destruct (Config.autoHedge_enabled (Config.autoHedge CONFIG)); [|reflexivity].
    cbn [negb].
    assert (E1 : Qeq_bool f 0 = false) by (apply Qeq_bool_false; lra).
    assert (E2 : Qeq_bool (f * x) 0 = false) by (apply Qeq_bool_false; nra).
    rewrite E1. cbn [negb neqb ndiv]. rewrite E1, E2.
    apply ngtb_proper.
    assert (Hfx : 0 < f * x) by nra.
    assert (Hinv : 0 <= / (f * x)) by (apply Qlt_le_weak, Qinv_lt_0_compat; exact Hfx).
    destruct (Qeq_bool s 0) eqn:E3; cbn [nabs ndiv nmul num_eq].
    + apply Qeq_bool_iff in E3.
      assert (H0 : s * p == 0) by (rewrite E3; ring).
      rewrite (Qabs_wd _ _ H0). change (Qabs 0) with 0. field. lra.
    + rewrite E2. cbn [nabs num_eq]. unfold Qdiv.
      rewrite (Qabs_Qmult (s * p) (/ (f * x))).
      rewrite (Qabs_pos (/ (f * x))); [reflexivity|exact Hinv].
  - intros Hf0 Hon Hsp t Ht Ht0. rewrite Hon, Ht. cbn [negb].
    assert (E1 : Qeq_bool f 0 = true) by (apply Qeq_bool_iff; exact Hf0).
    assert (E2 : Qeq_bool (f * x) 0 = true)
      by (apply Qeq_bool_iff; rewrite Hf0; ring).
    assert (E3 : Qeq_bool (Qabs (s * p)) 0 = false).
    { apply Qeq_bool_false. intros H. apply Hsp.
      apply (Qabs_case (s * p) (fun a => a == 0 -> s * p == 0)); intros; lra. }
    assert (E4 : Qltb 0 (Qabs (s * p)) = true).
    { apply Qltb_lt. pose proof (Qabs_nonneg (s * p)).
      apply Qeq_bool_false in E3. lra. }
    assert (E5 : Qltb t (Qabs 0) = false) by (apply Qltb_ge; exact Ht0).
    rewrite E1. cbn [negb neqb ndiv]. rewrite E2. unfold inf_signed. rewrite E3, E4.
    split; [reflexivity|].
    destruct (Qeq_bool s 0); cbn [nabs ngtb nltb]; exact E5.
Qed.

Lemma hedge_triggers_witness :
  shouldHedge Examples2.config_hedge (Fin 2) (Fin 100) (Fin 8000)
  = Inventory.needsHedge Examples2.config_hedge Examples2.user_long 1 (Fin 100)
  /\ (shouldHedge Examples2.config_hedge (Fin 1) (Fin 100) (Fin 0) = true
      /\ Inventory.needsHedge Examples2.config_hedge Examples.user_broke_long 2 (Fin 100)
         = false).
Proof.
  split.
  - apply (proj1 (hedge_triggers Examples2.config_hedge Examples2.user_long 1
                    (Examples.long_position 1 2 100) (Examples.usdc 10000 8000)
                    2 100 8000 0.30 eq_refl eq_refl eq_refl eq_refl eq_refl
                    ltac:(reflexivity))).
    reflexivity.
  - apply (proj2 (hedge_triggers Examples2.config_hedge Examples.user_broke_long 2
                    (Examples.long_position 2 1 100) (Examples.usdc 0 0)
                    1 100 0 0.30 eq_refl eq_refl eq_refl eq_refl eq_refl
                    ltac:(reflexivity)) ltac:(reflexivity) eq_refl
             ltac:(vm_compute; discriminate) 0.35 eq_refl ltac:(vm_compute; discriminate)).
Defined.

End HedgeTriggers.

(** ** The oracle's cache, continued *)

Section OracleCacheMore.
Import Oracle.
Variable config : Config.OracleConfig.

Lemma getPrice_result_in_cache w cache symbol :
  result (getPrice config w cache symbol)
  = cache_after (getPrice config w cache symbol) !! symbol.
Proof.
  unfold getPrice.
  destruct (cacheHit config w (cache !! symbol)); [reflexivity|].
  destruct (length _ =? 0)%nat; [reflexivity|].
  cbn [result cache_after]. rewrite lookup_insert_eq. reflexivity.
Qed.

(** X16.  Whatever happens inside [getPrice], what it returns for a symbol
    is what the cache holds for that symbol afterwards, and the entries of
    all other symbols are left as they were. *)
Theorem getPrice_cache_coherent w cache symbol :
  result (getPrice config w cache symbol)
  = cache_after (getPrice config w cache symbol) !! symbol
  /\ forall other,
       other <> symbol ->
       cache_after (getPrice config w cache symbol) !! other = cache !! other.
Proof.
  split; [apply getPrice_result_in_cache|].
  intros other Hne. unfold getPrice.
  destruct (cacheHit config w (cache !! symbol)); [reflexivity|].
  destruct (length _ =? 0)%nat; [reflexivity|].
  cbn [cache_after]. apply lookup_insert_ne. congruence.
Qed.

(** X17.  Two calls in a row.  If a call of [getPrice] returned the price
    [e], a second call for the same symbol made while
    [now - e.timestamp < cacheTimeout] returns [e] again, queries no
    source and leaves the cache alone; and [isPriceFresh] holds at that
    time.  [isPriceFresh] is the very test [getPrice] serves from the
    cache on. *)
Theorem getPrice_twice w w' cache symbol e :
  result (getPrice config w cache symbol) = Some e ->
  (now w' - timestamp e < Config.cacheTimeout config)%js ->
  let cache1 := cache_after (getPrice config w cache symbol) in
  getPrice config w' cache1 symbol
  = {| result := Some e; cache_after := cache1; queried := [] |}
  /\ isPriceFresh config w' cache1 symbol = true
  /\ (forall c s, isPriceFresh config w' c s = cacheHit config w' (c !! s)).
Proof.
  intros Hres Hfresh cache1.
  assert (Hc : cache1 !! symbol = Some e).
  { subst cache1. rewrite <- getPrice_result_in_cache. exact Hres. }
  assert (Hsame : forall c s, isPriceFresh config w' c s = cacheHit config w' (c !! s)).
  { intros c s. unfold isPriceFresh, getPriceAge, cacheHit.
    destruct (c !! s); [reflexivity|].
    destruct (Config.cacheTimeout config); reflexivity. }
  split; [apply getPrice_fresh; assumption|]. split; [|exact Hsame].
  rewrite Hsame, Hc. exact Hfresh.
Qed.

End OracleCacheMore.

Lemma getPrice_twice_witness :
  let config := Config.oracle Config.CONFIG in
  let first := Oracle.getPrice config (Examples2.world_two_sources 5000) ∅ "SOL" in
  exists e,
    Oracle.result first = Some e
    /\ Oracle.queried first = [("SOL"%string, Config.binance); ("SOL"%string, Config.bybit)]
    /\ Oracle.getPrice config (Examples.world_blackout 9000) (Oracle.cache_after first) "SOL"
       = {| Oracle.result := Some e;
            Oracle.cache_after := Oracle.cache_after first;
            Oracle.queried := [] |}.
Proof.
  intros config first.
  destruct (Oracle.result first) as [e|] eqn:E; [|vm_compute in E; discriminate].
  exists e. split; [reflexivity|]. split; [reflexivity|].
  apply (getPrice_twice config (Examples2.world_two_sources 5000)
           (Examples.world_blackout 9000) ∅ "SOL" e E).
  vm_compute in E. injection E as <-. vm_compute. reflexivity.
Defined.

Lemma getPrice_cache_coherent_witness :
  let out := Oracle.getPrice (Config.oracle Config.CONFIG) (Examples2.world_two_sources 20000)
               Examples.cache_sol "BTC" in
  is_Some (Oracle.result out)
  /\ Oracle.cache_after out !! "SOL" = Examples.cache_sol !! "SOL".
Proof.
  cbn zeta. split; [vm_compute; eauto|].
  apply (proj2 (getPrice_cache_coherent (Config.oracle Config.CONFIG)
                  (Examples2.world_two_sources 20000) Examples.cache_sol "BTC")).
  discriminate.
Defined.

(** ** Aggregation of one and of two sources *)

Section SmallAggregates.
Import Oracle.

Lemma sort_two (a b : num) :
  is_nan a = false -> is_nan b = false ->
  exists hi,
    nth 1 (sort [a; b]) NaN = hi
    /\ (hi = a \/ hi = b) /\ (a <= hi)%js /\ (b <= hi)%js.
Proof.
  intros Ha Hb. cbn [sort insert].
  destruct (comparator a b >? Fin 0)%js eqn:E.
  - exists a. cbn. split; [reflexivity|]. split; [left; reflexivity|].
    split; [apply num_le_refl; exact Ha|].
    apply comparator_positive; assumption.
  - exists b. cbn. split; [reflexivity|]. split; [right; reflexivity|].
    split; [|apply num_le_refl; exact Hb].
    apply comparator_not_positive; assumption.
Qed.

(** X18.  Small aggregates.  A single source is passed through: bid, ask
    and mid are its own, and its name is wrapped as ["aggregated(name)"].
    With two sources (the shipped configuration has two) index
    [floor(2 / 2) = 1] of each sorted pair is read, so every field is the
    larger of the two reported values: the higher bid, the higher ask and
    the higher mid, not their mean. *)
Theorem aggregatePrices_small now (p q : ExchangePrice) :
  let one := aggregatePrices now [p] in
  let two := aggregatePrices now [p; q] in
  (bid one = bid p /\ ask one = ask p /\ mid one = mid p
   /\ source one = ("aggregated(" ++ source p ++ ")")%string)
  /\ (is_nan (bid p) = false -> is_nan (bid q) = false ->
      (bid two = bid p \/ bid two = bid q)
      /\ (bid p <= bid two)%js /\ (bid q <= bid two)%js)
  /\ (is_nan (ask p) = false -> is_nan (ask q) = false ->
      (ask two = ask p \/ ask two = ask q)
      /\ (ask p <= ask two)%js /\ (ask q <= ask two)%js)
  /\ (is_nan (mid p) = false -> is_nan (mid q) = false ->
      (mid two = mid p \/ mid two = mid q)
      /\ (mid p <= mid two)%js /\ (mid q <= mid two)%js).
Proof.
  intros one two. split; [repeat split; reflexivity|].
  assert (Hfield : forall field : ExchangePrice -> num,
             is_nan (field p) = false -> is_nan (field q) = false ->
             let hi := nth 1 (sort (field <$> [p; q])) NaN in
             (hi = field p \/ hi = field q) /\ (field p <= hi)%js /\ (field q <= hi)%js).
  { intros field Hp Hq hi.
    destruct (sort_two (field p) (field q) Hp Hq) as [hi' [Hhi H]].
    subst hi. cbn [fmap list_fmap]. rewrite Hhi. exact H. }
  split; [exact (Hfield bid)|]. split; [exact (Hfield ask)|exact (Hfield mid)].
Qed.

Lemma aggregatePrices_small_witness :
  let p := Examples.quote_of "binance" 99 103 0 2000 in
  let q := Examples.quote_of "bybit" 100 101 300 2000 in
  let two := aggregatePrices (Fin 2001) [p; q] in
  ((bid two = bid p \/ bid two = bid q)
   /\ (bid p <= bid two)%js /\ (bid q <= bid two)%js)
  /\ ((ask two = ask p \/ ask two = ask q)
      /\ (ask p <= ask two)%js /\ (ask q <= ask two)%js).
Proof.
  intros p q two.
  destruct (aggregatePrices_small (Fin 2001) p q) as (_ & Hb & Ha & _).
  split; [apply Hb; reflexivity|apply Ha; reflexivity].
Defined.

End SmallAggregates.

(** ** The quote ladder *)

Section QuoteLadder.
Import Live.

Lemma imap_fmap_seq {A B} (f : nat -> A -> B) (l : list A) (k : nat) :
  imap (fun i => f (k + i)%nat) l
  = (fun '(i, x) => f i x) <$> zip (seq k (length l)) l.
Proof.
  revert k f. induction l as [|x l IH]; intros k f; [reflexivity|].
  cbn [imap length seq zip zip_with fmap list_fmap].
  rewrite Nat.add_0_r. f_equal.
  rewrite <- IH. apply imap_ext. intros i y _. cbn. f_equal. lia.
Qed.

Lemma ladder_side_prices (mk : nat -> Q) (l : list Sizing.LevelSize) :
  price <$> imap (fun i ls => {| price := Fin (mk i); size := Sizing.size ls |}) l
  = Fin <$> (mk <$> seq 0 (length l)).
Proof.
  assert (H : forall k,
             price <$> imap (fun i ls => {| price := Fin (mk (k + i)%nat);
                                            size := Sizing.size ls |}) l
             = Fin <$> (mk <$> seq k (length l))).
  { induction l as [|x l IH]; intros k; [reflexivity|].
    cbn [imap length seq fmap list_fmap]. rewrite Nat.add_0_r. f_equal.
    rewrite <- (IH (S k)). f_equal. apply imap_ext. intros i y _. cbn.
    do 3 f_equal. lia. }
  exact (H 0%nat).
Qed.

Lemma ladder_side_sizes (mk : nat -> num) (l : list Sizing.LevelSize) :
  size <$> imap (fun i ls => {| price := mk i; size := Sizing.size ls |}) l
  = Sizing.size <$> l.
Proof.
  revert mk. induction l as [|x l IH]; intros mk; [reflexivity|].
  cbn [imap fmap list_fmap]. f_equal. apply (IH (mk ∘ S)).
Qed.

Lemma bidLevelPrice_antitone (base spread : Q) (i j : nat) :
  0 <= base -> 0 <= spread -> (i <= j)%nat ->
  bidLevelPrice base spread j <= bidLevelPrice base spread i.
Proof.
  intros Hb Hs Hij. unfold bidLevelPrice.
  assert (H : inject_Z (Z.of_nat (S i)) <= inject_Z (Z.of_nat (S j))).
  { rewrite <- Zle_Qle. lia. }
  set (a := inject_Z (Z.of_nat (S i))) in *.
  set (b := inject_Z (Z.of_nat (S j))) in *.
  assert (H1 : 0 <= spread * (b - a)) by (apply Qmult_le_0_compat; lra).
  assert (H2 : 0 <= base * (spread * (b - a) * 0.5)).
  { apply Qmult_le_0_compat; [exact Hb|]. lra. }
  lra.
Qed.

Lemma askLevelPrice_monotone (base spread : Q) (i j : nat) :
  0 <= base -> 0 <= spread -> (i <= j)%nat ->
  askLevelPrice base spread i <= askLevelPrice base spread j.
Proof.
  intros Hb Hs Hij. unfold askLevelPrice.
  assert (H : inject_Z (Z.of_nat (S i)) <= inject_Z (Z.of_nat (S j))).
  { rewrite <- Zle_Qle. lia. }
  set (a := inject_Z (Z.of_nat (S i))) in *.
  set (b := inject_Z (Z.of_nat (S j))) in *.
  assert (H1 : 0 <= spread * (b - a)) by (apply Qmult_le_0_compat; lra).
  assert (H2 : 0 <= base * (spread * (b - a) * 0.5)).
  { apply Qmult_le_0_compat; [exact Hb|]. lra. }
  lra.
Qed.

Lemma level_prices_vs_base (base spread : Q) (i : nat) :
  0 <= base -> 0 <= spread ->
  bidLevelPrice base spread i <= base /\ base <= askLevelPrice base spread i.
Proof.
  intros Hb Hs. unfold bidLevelPrice, askLevelPrice.
  assert (H : 0 <= inject_Z (Z.of_nat (S i))).
  { change 0 with (inject_Z 0). rewrite <- Zle_Qle. lia. }
  set (a := inject_Z (Z.of_nat (S i))) in *.
  assert (H1 : 0 <= spread * a) by (apply Qmult_le_0_compat; lra).
  assert (H2 : 0 <= base * (spread * a * 0.5)).
  { apply Qmult_le_0_compat; [exact Hb|]. lra. }
  split; lra.
Qed.

Lemma generateQuoteLevels_prices CONFIG (B A s : Q) levelSizes :
  let quotes := generateQuoteLevels CONFIG (Fin B) (Fin A) (Fin s) levelSizes in
  let n := Nat.min (Config.maxLevels CONFIG) (length levelSizes) in
  price <$> bids quotes = Fin <$> (bidLevelPrice B s <$> seq 0 n)
  /\ price <$> asks quotes = Fin <$> (askLevelPrice A s <$> seq 0 n).
Proof.
  cbn zeta. unfold generateQuoteLevels. cbn [bids asks].
  set (n := Nat.min _ _).
  assert (Hn : length (take n levelSizes) = n).
  { rewrite length_take. subst n. lia. }
  split.
  - rewrite <- Hn at 2. rewrite <- ladder_side_prices. reflexivity.
  - rewrite <- Hn at 2. rewrite <- ladder_side_prices. reflexivity.
Qed.

Lemma lookup_level_price (f : nat -> Q) (l : list QuoteLevel) (n i : nat) (q : QuoteLevel) :
  price <$> l = Fin <$> (f <$> seq 0 n) -> l !! i = Some q -> price q = Fin (f i).
Proof.
  intros Hl Hq.
  assert (H : (price <$> l) !! i = Some (price q)) by (rewrite list_lookup_fmap, Hq; reflexivity).
  rewrite Hl, !list_lookup_fmap in H.
  destruct (seq 0 n !! i) as [k|] eqn:Ek; [|discriminate].
  apply lookup_seq in Ek. destruct Ek as [-> _]. cbn in H. congruence.
Qed.

(** X19.  The quote ladder.  [generateQuoteLevels] builds
    [min(maxLevels, levelSizes.length)] levels per side; level [i] has the
    size of [levelSizes[i]] on both sides.  For finite base prices
    [B, A >= 0] and a finite spread [s >= 0], level [i] quotes the bid
    [B * (1 - s * (i + 1) / 2)] and the ask [A * (1 + s * (i + 1) / 2)]:
    bids do not rise and asks do not fall with the level, no bid is above
    [B] and no ask below [A]. *)
Theorem generateQuoteLevels_ladder CONFIG (B A s : Q) levelSizes :
  0 <= B -> 0 <= A -> 0 <= s ->
  let quotes := generateQuoteLevels CONFIG (Fin B) (Fin A) (Fin s) levelSizes in
  let n := Nat.min (Config.maxLevels CONFIG) (length levelSizes) in
  length (bids quotes) = n
  /\ length (asks quotes) = n
  /\ size <$> bids quotes = Sizing.size <$> take n levelSizes
  /\ size <$> asks quotes = Sizing.size <$> take n levelSizes
  /\ (forall i q, bids quotes !! i = Some q -> price q = Fin (bidLevelPrice B s i))
  /\ (forall i q, asks quotes !! i = Some q -> price q = Fin (askLevelPrice A s i))
  /\ (forall i j qi qj, (i <= j)%nat ->
        bids quotes !! i = Some qi -> bids quotes !! j = Some qj ->
        num_le (price qj) (price qi) /\ num_le (price qi) (Fin B))
  /\ (forall i j qi qj, (i <= j)%nat ->
        asks quotes !! i = Some qi -> asks quotes !! j = Some qj ->
        num_le (Fin A) (price qi) /\ num_le (price qi) (price qj)).
Proof.
  intros HB HA Hs quotes n.
  destruct (generateQuoteLevels_prices CONFIG B A s levelSizes) as [Hb Ha].
  fold quotes in Hb, Ha. fold n in Hb, Ha.
  assert (Hn : length (take n levelSizes) = n).
  { rewrite length_take. subst n. lia. }
  assert (Hsb : size <$> bids quotes = Sizing.size <$> take n levelSizes).
  { subst quotes. unfold generateQuoteLevels. cbn [bids]. apply ladder_side_sizes. }
  assert (Hsa : size <$> asks quotes = Sizing.size <$> take n levelSizes).
  { subst quotes. unfold generateQuoteLevels. cbn [asks]. apply ladder_side_sizes. }
  split; [|split; [|split; [exact Hsb|split; [exact Hsa|]]]].
  - rewrite <- (length_fmap size), Hsb, length_fmap. exact Hn.
  - rewrite <- (length_fmap size), Hsa, length_fmap. exact Hn.
  - split; [|split; [|split]].
    + intros i q Hq. exact (lookup_level_price _ _ _ _ _ Hb Hq).
    + intros i q Hq. exact (lookup_level_price _ _ _ _ _ Ha Hq).
    + intros i j qi qj Hij Hi Hj.
      rewrite (lookup_level_price _ _ _ _ _ Hb Hi), (lookup_level_price _ _ _ _ _ Hb Hj).
      split; apply num_le_Fin; [apply bidLevelPrice_antitone; assumption|].
      apply level_prices_vs_base; assumption.
    + intros i j qi qj Hij Hi Hj.
      rewrite (lookup_level_price _ _ _ _ _ Ha Hi), (lookup_level_price _ _ _ _ _ Ha Hj).
      split; apply num_le_Fin; [apply level_prices_vs_base; assumption|].
      apply askLevelPrice_monotone; assumption.
Qed.

Lemma generateQuoteLevels_ladder_witness :
  let quotes := generateQuoteLevels Config.CONFIG (Fin 99) (Fin 101) (Fin 0.01)
                  Examples2.ladder4 in
  length (bids quotes) = 3%nat /\ length (asks quotes) = 3%nat.
Proof.
  destruct (generateQuoteLevels_ladder Config.CONFIG 99 101 0.01 Examples2.ladder4)
    as (Hb & Ha & _); try (vm_compute; discriminate).
  split; [exact Hb | exact Ha].
Defined.

End QuoteLadder.

(** ** The quote cycle *)

Section QuoteCycle.
Import Live.

Lemma placeQuotes_shape st marketId quotes :
  exists orders,
    placeQuotes st marketId quotes = PlaceOrder <$> orders
    /\ Forall (isQuoteOrder marketId) orders
    /\ (activeMarkets st !! marketId = None -> orders = [])
    /\ (is_Some (activeMarkets st !! marketId) ->
        length orders = (length (bids quotes) + length (asks quotes))%nat).
Proof.
  unfold placeQuotes. destruct (activeMarkets st !! marketId) as [market|] eqn:E.
  - set (mk side q :=
           {| Nord.po_marketId := marketId;
              Nord.po_side := side;
              Nord.po_fillMode := Nord.Limit;
              Nord.po_isReduceOnly := false;
              Nord.po_size := Sizing.roundSize (size q) (Nord.minSize market)
                                Sizing.defaultStepSize;
              Nord.po_price := Some (roundPrice (price q) (Nord.tickSize market)) |}).
    exists ((mk Nord.Bid <$> bids quotes) ++ (mk Nord.Ask <$> asks quotes)).
    split; [|split; [|split]].
    + rewrite fmap_app, <- !list_fmap_compose. reflexivity.
    + apply Forall_app. split; apply Forall_fmap, Forall_forall; intros q _;
        repeat split; cbn; eauto.
    + discriminate.
    + intros _. rewrite length_app, !length_fmap. reflexivity.
  - exists []. repeat split; try constructor. intros [x Hx]. discriminate.
Qed.

Lemma cancelMarketOrders_trace w st marketId :
  snd (cancelMarketOrders w st marketId)
  = FetchInfo :: (CancelOrder <$> marketOrderIds (fetched w) marketId).
Proof.
  unfold cancelMarketOrders, marketOrderIds. destruct (fetched w); cbn [snd]; [|reflexivity].
  rewrite <- list_fmap_compose. reflexivity.
Qed.

Lemma cancelMarketOrders_state w st marketId :
  let st' := fst (cancelMarketOrders w st marketId) in
  user st' = default (user st) (fetched w)
  /\ activeMarkets st' = activeMarkets st
  /\ currentQuotes st' = currentQuotes st
  /\ lastQuotePrices st' = lastQuotePrices st.
Proof.
  unfold cancelMarketOrders. destruct (fetched w); cbn; repeat split; reflexivity.
Qed.

(** X20.  What a quote cycle does, in order.  [requote] either does nothing
    at all and leaves the state as it was, or it stores the new quote
    prices, calls [fetchInfo], cancels the orders of this market that the
    fetched account lists (none when [fetchInfo] threw) and then either
    stops, or places quote orders (limit, not reduce-only, priced, on this
    market; one per ladder level of each side when the market is known) and
    records the ladder last.  The cancellations come before the
    placements, and the ladder is recorded only after orders were sent. *)
Theorem requote_trace CONFIG w st marketId orderbook :
  let st' := fst (requote CONFIG w st marketId orderbook) in
  let trace := snd (requote CONFIG w st marketId orderbook) in
  (trace = [] /\ st' = st)
  \/ exists stored,
       let before := SetLastQuotePrices marketId stored :: FetchInfo
                       :: (CancelOrder <$> marketOrderIds (fetched w) marketId) in
       lastQuotePrices st' = <[marketId := stored]> (lastQuotePrices st)
       /\ user st' = default (user st) (fetched w)
       /\ activeMarkets st' = activeMarkets st
       /\ ((trace = before /\ currentQuotes st' = currentQuotes st)
           \/ exists orders recorded,
                trace = before ++ (PlaceOrder <$> orders)
                          ++ [SetCurrentQuotes marketId recorded]
                /\ currentQuotes st' = <[marketId := recorded]> (currentQuotes st)
                /\ Forall (isQuoteOrder marketId) orders
                /\ (activeMarkets st !! marketId = None -> orders = [])
                /\ (is_Some (activeMarkets st !! marketId) ->
                    length orders
                    = (length (mq_bids recorded) + length (mq_asks recorded))%nat)).
Proof.
  cbn zeta. unfold requote.
  destruct (midPrice w) as [mid|]; [|left; split; reflexivity].
  destruct (negb (truthy mid)); [left; split; reflexivity|].
  destruct (negb (shouldRequote _ _ _ _ _)); [left; split; reflexivity|].
  right.
  set (stored := {| bid := _; ask := _; timestamp := _ |}).
  set (st1 := {| user := user st; activeMarkets := _; currentQuotes := _;
                 lastQuotePrices := _ |}).
  pose proof (cancelMarketOrders_trace w st1 marketId) as Htr.
  pose proof (cancelMarketOrders_state w st1 marketId) as (Hu & Hm & Hq & Hl).
  destruct (cancelMarketOrders w st1 marketId) as [st2 cancels].
  cbn [fst snd] in Htr, Hu, Hm, Hq, Hl. subst cancels.
  exists stored. cbn zeta.
  destruct (length _ =? 0)%nat.
  { cbn [fst snd]. repeat split; try assumption. left. split; [reflexivity|assumption]. }
  destruct (negb (Sizing.validateSizes _ _ _ _)).
  { cbn [fst snd]. repeat split; try assumption. left. split; [reflexivity|assumption]. }
  cbn [fst snd user activeMarkets currentQuotes lastQuotePrices].
  repeat split; try assumption. right.
  set (quotes := generateQuoteLevels _ _ _ _ _).
  destruct (placeQuotes_shape st2 marketId quotes) as (orders & Hp & Hall & Hnone & Hlen).
  exists orders. eexists. split; [|split; [|split; [exact Hall|split]]].
  - rewrite Hp. reflexivity.
  - rewrite Hq. reflexivity.
  - rewrite Hm in Hnone. exact Hnone.
  - rewrite Hm in Hlen. exact Hlen.
Qed.

Lemma requote_trace_witness :
  let cfg := Examples.config_fixed (Fin 0.1) in
  let st' := fst (requote cfg Examples.world_mid100 (Examples.state_with ∅) 1
                    Examples.book_balanced) in
  let trace := snd (requote cfg Examples.world_mid100 (Examples.state_with ∅) 1
                      Examples.book_balanced) in
  length trace = 9%nat
  /\ ((trace = [] /\ st' = Examples.state_with ∅)
      \/ exists stored,
           let before := SetLastQuotePrices 1 stored :: FetchInfo
                           :: (CancelOrder <$> marketOrderIds (Some Examples.user_flat) 1) in
           lastQuotePrices st' = <[1%Z := stored]> ∅
           /\ user st' = Examples.user_flat
           /\ activeMarkets st' = {[ 1%Z := Examples.market1 ]}
           /\ ((trace = before /\ currentQuotes st' = ∅)
               \/ exists orders recorded,
                    trace = before ++ (PlaceOrder <$> orders)
                              ++ [SetCurrentQuotes 1 recorded]
                    /\ currentQuotes st' = <[1%Z := recorded]> ∅
                    /\ Forall (isQuoteOrder 1) orders
                    /\ (activeMarkets (Examples.state_with ∅) !! 1%Z = None -> orders = [])
                    /\ (is_Some (activeMarkets (Examples.state_with ∅) !! 1%Z) ->
                        length orders
                        = (length (mq_bids recorded) + length (mq_asks recorded))%nat))).
Proof.
  cbn zeta. split; [vm_compute; reflexivity|].
  exact (requote_trace (Examples.config_fixed (Fin 0.1)) Examples.world_mid100
           (Examples.state_with ∅) 1 Examples.book_balanced).
Defined.

Lemma self_change (x threshold : num) :
  (threshold <? Fin 0)%js = false ->
  (nabs (x - x) / x >? threshold)%js = false.
Proof.
  intros Ht. destruct x as [q| | |]; try (destruct threshold; reflexivity).
  cbn [nsub nneg nadd nabs ndiv].
  assert (Hz : Qabs (q + - q) == 0).
  { rewrite (Qabs_wd (q + - q) 0) by ring. reflexivity. }
  destruct (Qeq_bool q 0) eqn:Eq.
  - unfold inf_signed. rewrite (proj2 (Qeq_bool_iff _ _) Hz).
    destruct threshold; reflexivity.
  - apply Qeq_bool_false in Eq.
    destruct threshold as [t| | |]; try reflexivity; [|discriminate].
    cbn [ngtb nltb] in *.
    rewrite (Qltb_proper (Qabs (q + - q) / q) 0 t); [exact Ht|].
    rewrite Hz. field. exact Eq.
Qed.

Lemma getPositionRatio_ext CONFIG (u u' : Nord.NordUser) marketId midPrice :
  Nord.positions u' !! marketId = Nord.positions u !! marketId ->
  Nord.balances u' !! Config.USDC_MINT_INDEX = Nord.balances u !! Config.USDC_MINT_INDEX ->
  Risk.getPositionRatio CONFIG u' marketId midPrice
  = Risk.getPositionRatio CONFIG u marketId midPrice.
Proof. intros Hp Hb. unfold Risk.getPositionRatio. rewrite Hp, Hb. reflexivity. Qed.

Lemma applyInventorySkew_ext CONFIG (u u' : Nord.NordUser) marketId basePrice spread :
  Nord.positions u' !! marketId = Nord.positions u !! marketId ->
  Nord.balances u' !! Config.USDC_MINT_INDEX = Nord.balances u !! Config.USDC_MINT_INDEX ->
  Inventory.applyInventorySkew CONFIG u' marketId basePrice spread
  = Inventory.applyInventorySkew CONFIG u marketId basePrice spread.
Proof.
  intros Hp Hb. unfold Inventory.applyInventorySkew.
  rewrite (getPositionRatio_ext CONFIG u u' marketId basePrice Hp Hb). reflexivity.
Qed.

Lemma requote_gate_closed CONFIG w2 s marketId orderbook mid stored :
  (Config.requoteThreshold CONFIG <? Fin 0)%js = false ->
  midPrice w2 = Some mid ->
  lastQuotePrices s !! marketId = Some stored ->
  bid stored = Inventory.bidPrice
                 (Inventory.applyInventorySkew CONFIG (user s) marketId mid
                    (Spread.spread (Spread.computeDynamicSpread CONFIG orderbook))) ->
  ask stored = Inventory.askPrice
                 (Inventory.applyInventorySkew CONFIG (user s) marketId mid
                    (Spread.spread (Spread.computeDynamicSpread CONFIG orderbook))) ->
  requote CONFIG w2 s marketId orderbook = (s, []).
Proof.
  intros Ht Hm Hs Hb Ha. unfold requote. rewrite Hm.
  destruct (negb (truthy mid)); [reflexivity|].
  unfold shouldRequote. rewrite Hs, <- Hb, <- Ha, !self_change by exact Ht.
  reflexivity.
Qed.

(** X21.  A quote cycle closes its own gate.  With a threshold that is not
    negative, a cycle that follows another one with the same reference
    price and book, while the position in the market and the USDC balance
    are what they were, does nothing: no write, no venue call.  This holds
    whatever the first cycle did after storing its prices, also when it
    cancelled the resting orders and then placed none. *)
Theorem requote_twice CONFIG w w2 st marketId orderbook :
  (Config.requoteThreshold CONFIG <? Fin 0)%js = false ->
  midPrice w2 = midPrice w ->
  (forall account, fetched w = Some account ->
     Nord.positions account !! marketId = Nord.positions (user st) !! marketId
     /\ Nord.balances account !! Config.USDC_MINT_INDEX
        = Nord.balances (user st) !! Config.USDC_MINT_INDEX) ->
  let st' := fst (requote CONFIG w st marketId orderbook) in
  requote CONFIG w2 st' marketId orderbook = (st', []).
Proof.
  intros Ht Hmid Hacc st'.
  assert (Hsame : requote CONFIG w st marketId orderbook = (st, []) ->
                  requote CONFIG w2 st marketId orderbook = (st, [])).
  { unfold requote. rewrite Hmid.
    destruct (midPrice w) as [mid|]; [|reflexivity].
    destruct (negb (truthy mid)); [reflexivity|].
    destruct (negb (shouldRequote _ _ _ _ _)); [reflexivity|].
    destruct (cancelMarketOrders _ _ _) as [st2 cancels].
    destruct (length _ =? 0)%nat; [discriminate|].
    destruct (negb (Sizing.validateSizes _ _ _ _)); discriminate. }
  assert (Hcases :
            requote CONFIG w st marketId orderbook = (st, [])
            \/ exists mid stored,
                 midPrice w = Some mid
                 /\ lastQuotePrices st' !! marketId = Some stored
                 /\ user st' = default (user st) (fetched w)
                 /\ bid stored = Inventory.bidPrice
                      (Inventory.applyInventorySkew CONFIG (user st) marketId mid
                         (Spread.spread (Spread.computeDynamicSpread CONFIG orderbook)))
                 /\ ask stored = Inventory.askPrice
                      (Inventory.applyInventorySkew CONFIG (user st) marketId mid
                         (Spread.spread (Spread.computeDynamicSpread CONFIG orderbook)))).
  { subst st'. unfold requote.
    destruct (midPrice w) as [mid|]; [|left; reflexivity].
    destruct (negb (truthy mid)); [left; reflexivity|].
    destruct (negb (shouldRequote _ _ _ _ _)); [left; reflexivity|].
    right. exists mid.
    set (stored := {| bid := _; ask := _; timestamp := _ |}).
    set (st1 := {| user := user st; activeMarkets := _; currentQuotes := _;
                   lastQuotePrices := _ |}).
    pose proof (cancelMarketOrders_state w st1 marketId) as (Hu & _ & _ & Hl).
    destruct (cancelMarketOrders w st1 marketId) as [st2 cancels].
    cbn [fst] in Hu, Hl. exists stored.
    assert (Hlook : lastQuotePrices st2 !! marketId = Some stored).
    { rewrite Hl. subst st1. cbn [lastQuotePrices]. apply lookup_insert_eq. }
    destruct (length _ =? 0)%nat; [cbn [fst]; repeat split; assumption|].
    destruct (negb (Sizing.validateSizes _ _ _ _)); cbn [fst user lastQuotePrices];
      repeat split; assumption. }
  destruct Hcases as [Hnone | (mid & stored & Hm & Hs & Hu & Hb & Ha)].
  - subst st'. rewrite Hnone. cbn [fst]. exact (Hsame Hnone).
  - assert (Hsk : Inventory.applyInventorySkew CONFIG (user st') marketId mid
                    (Spread.spread (Spread.computeDynamicSpread CONFIG orderbook))
                  = Inventory.applyInventorySkew CONFIG (user st) marketId mid
                      (Spread.spread (Spread.computeDynamicSpread CONFIG orderbook))).
    { rewrite Hu. destruct (fetched w) as [account|] eqn:Ef; [|reflexivity].
      destruct (Hacc account eq_refl) as [Hp Hbal].
      apply applyInventorySkew_ext; assumption. }
    apply (requote_gate_closed CONFIG w2 st' marketId orderbook mid stored Ht).
    + rewrite Hmid. exact Hm.
    + exact Hs.
    + rewrite Hsk. exact Hb.
    + rewrite Hsk. exact Ha.
Qed.

Lemma requote_twice_witness :
  let st' := fst (requote Config.CONFIG Examples.world_mid100 (Examples.state_with ∅) 1
                    Examples.book_balanced) in
  snd (requote Config.CONFIG Examples.world_mid100 (Examples.state_with ∅) 1
         Examples.book_balanced) <> []
  /\ requote Config.CONFIG Examples.world_mid100 st' 1 Examples.book_balanced = (st', []).
Proof.
  split; [vm_compute; discriminate|].
  apply (requote_twice Config.CONFIG Examples.world_mid100 Examples.world_mid100
           (Examples.state_with ∅) 1 Examples.book_balanced).
  - reflexivity.
  - reflexivity.
  - intros account [= <-]. split; reflexivity.
Defined.

End QuoteCycle.

(** ** The reference price *)

Section ReferencePrice.
Import Live.

(** X22.  Where the reference price comes from.  When [getMidPrice] returns
    a price, the market is active and the price is either the [mid] of the
    oracle's cache entry for the market's symbol, and that entry is younger
    than [cacheTimeout] at the freshness test, or the midpoint
    [SpreadEngine.getMidPrice] computes from the book, which is used only
    with the oracle disabled or the fallback enabled.  A price that
    [getPrice] returned from a stale cache entry is never used.  With
    the oracle disabled the cache is left alone. *)
Theorem getMidPrice_sources CONFIG ow ow_fresh st cache marketId orderbook p :
  fst (getMidPrice CONFIG ow ow_fresh st cache marketId orderbook) = Some p ->
  let cache' := snd (getMidPrice CONFIG ow ow_fresh st cache marketId orderbook) in
  exists market,
    activeMarkets st !! marketId = Some market
    /\ ((exists e,
           Config.oracle_enabled (Config.oracle CONFIG) = true
           /\ cache' !! replace_first "-PERP" "" (Nord.symbol market) = Some e
           /\ p = Oracle.mid e
           /\ (Oracle.now ow_fresh - Oracle.timestamp e
                 <? Config.cacheTimeout (Config.oracle CONFIG))%js = true)
        \/ ((Config.oracle_enabled (Config.oracle CONFIG) = false
             \/ Config.fallbackToOrderbook (Config.oracle CONFIG) = true)
            /\ Spread.getMidPrice orderbook = Some p
            /\ (Config.oracle_enabled (Config.oracle CONFIG) = false -> cache' = cache))).
Proof.
  cbn zeta. unfold getMidPrice.
  destruct (activeMarkets st !! marketId) as [market|]; [|discriminate].
  intros H. exists market. split; [reflexivity|].
  destruct (Config.oracle_enabled (Config.oracle CONFIG)) eqn:Eo.
  2:{ right. cbn [fst snd] in *. repeat split; auto. }
  set (symbol := replace_first "-PERP" "" (Nord.symbol market)) in *.
  pose proof (getPrice_result_in_cache (Config.oracle CONFIG) ow cache symbol) as Hc.
  set (fetched := Oracle.getPrice (Config.oracle CONFIG) ow cache symbol) in *.
  assert (Hfall : forall r : option num * gmap string Oracle.ExchangePrice,
            fst (if negb (Config.fallbackToOrderbook (Config.oracle CONFIG))
                 then (None, Oracle.cache_after fetched)
                 else (Spread.getMidPrice orderbook, Oracle.cache_after fetched)) = Some p ->
            Config.fallbackToOrderbook (Config.oracle CONFIG) = true
            /\ Spread.getMidPrice orderbook = Some p).
  { intros _. destruct (Config.fallbackToOrderbook (Config.oracle CONFIG));
      cbn [negb fst]; [auto|discriminate]. }
  destruct (Oracle.result fetched) as [e|] eqn:Er.
  - destruct (Oracle.isPriceFresh _ _ _ _) eqn:Ef.
    + left. cbn [fst snd] in *. exists e. split; [reflexivity|].
      split; [symmetry; exact Hc|]. split; [congruence|].
      unfold Oracle.isPriceFresh, Oracle.getPriceAge in Ef. rewrite <- Hc in Ef. exact Ef.
    + right. destruct (Hfall (None, cache) H) as [Hf Hm]. 
      split; [right; exact Hf|]. split; [exact Hm|discriminate].
  - right. destruct (Hfall (None, cache) H) as [Hf Hm].
    split; [right; exact Hf|]. split; [exact Hm|discriminate].
Qed.

Lemma getMidPrice_sources_witness :
  let r := getMidPrice Config.CONFIG (Examples.world_blackout 20000)
             (Examples.world_blackout 20001) (Examples.state_with ∅) Examples.cache_sol 1
             Examples.book_balanced in
  Oracle.result (Oracle.getPrice (Config.oracle Config.CONFIG) (Examples.world_blackout 20000)
                   Examples.cache_sol "SOL")
  = Examples.cache_sol !! "SOL"
  /\ exists p,
       fst r = Some p
       /\ exists market,
            activeMarkets (Examples.state_with ∅) !! 1%Z = Some market
            /\ ((exists e,
                   Config.oracle_enabled (Config.oracle Config.CONFIG) = true
                   /\ snd r !! replace_first "-PERP" "" (Nord.symbol market) = Some e
                   /\ p = Oracle.mid e
                   /\ (Oracle.now (Examples.world_blackout 20001) - Oracle.timestamp e
                         <? Config.cacheTimeout (Config.oracle Config.CONFIG))%js = true)
                \/ ((Config.oracle_enabled (Config.oracle Config.CONFIG) = false
                     \/ Config.fallbackToOrderbook (Config.oracle Config.CONFIG) = true)
                    /\ Spread.getMidPrice Examples.book_balanced = Some p
                    /\ (Config.oracle_enabled (Config.oracle Config.CONFIG) = false ->
                        snd r = Examples.cache_sol))).
Proof.
  cbn zeta. split; [vm_compute; reflexivity|].
  eexists. split; [vm_compute; reflexivity|].
  apply (getMidPrice_sources Config.CONFIG (Examples.world_blackout 20000)
           (Examples.world_blackout 20001) (Examples.state_with ∅) Examples.cache_sol 1
           Examples.book_balanced).
  vm_compute. reflexivity.
Defined.

End ReferencePrice.

(** ** The orderbook handler *)

Section Handler.
Import Live.

Lemma requote_places_quotes CONFIG w st marketId orderbook order :
  PlaceOrder order ∈ snd (requote CONFIG w st marketId orderbook) ->
  isQuoteOrder marketId order.
Proof.
  unfold requote.
  destruct (midPrice w) as [mid|]; [|intros H; inversion H].
  destruct (negb (truthy mid)); [intros H; inversion H|].
  destruct (negb (shouldRequote _ _ _ _ _)); [intros H; inversion H|].
  set (st1 := {| user := user st; activeMarkets := _; currentQuotes := _;
                 lastQuotePrices := _ |}).
  pose proof (cancelMarketOrders_trace w st1 marketId) as Htr.
  destruct (cancelMarketOrders w st1 marketId) as [st2 cancels].
  cbn [snd] in Htr. subst cancels.
  assert (Hbefore : forall stored,
            PlaceOrder order ∈ SetLastQuotePrices marketId stored :: FetchInfo
              :: (CancelOrder <$> marketOrderIds (fetched w) marketId) -> False).
  { intros stored H. apply elem_of_cons in H as [H|H]; [discriminate|].
    apply elem_of_cons in H as [H|H]; [discriminate|].
    apply list_elem_of_fmap in H as (id & H & _). discriminate. }
  destruct (length _ =? 0)%nat; [intros H; destruct (Hbefore _ H)|].
  destruct (negb (Sizing.validateSizes _ _ _ _)); [intros H; destruct (Hbefore _ H)|].
  cbn [snd]. intros H.
  apply elem_of_app in H as [H|H]; [destruct (Hbefore _ H)|].
  apply elem_of_app in H as [H|H].
  - destruct (placeQuotes_shape st2 marketId
                (generateQuoteLevels CONFIG
                   (Inventory.bidPrice
                      (Inventory.applyInventorySkew CONFIG (user st) marketId mid
                         (Spread.spread (Spread.computeDynamicSpread CONFIG orderbook))))
                   (Inventory.askPrice
                      (Inventory.applyInventorySkew CONFIG (user st) marketId mid
                         (Spread.spread (Spread.computeDynamicSpread CONFIG orderbook))))
                   (Spread.spread (Spread.computeDynamicSpread CONFIG orderbook))
                   (Sizing.calculateLevelSizes CONFIG (user st2) marketId)))
      as (orders & Hp & Hall & _).
    cbn [user] in H. rewrite Hp in H.
    apply list_elem_of_fmap in H as (o & Ho & Hin). injection Ho as ->.
    rewrite Forall_forall in Hall. apply Hall. exact Hin.
  - apply list_elem_of_singleton in H. discriminate.
Qed.

Lemma executeHedge_shape CONFIG account marketId midPrice order :
  Hedging.executeHedge CONFIG account marketId midPrice = Some order ->
  isHedgeOrder marketId order
  /\ Config.autoHedge_enabled (Config.autoHedge CONFIG) = true.
Proof.
  unfold Hedging.executeHedge.
  destruct (Config.autoHedge_enabled (Config.autoHedge CONFIG)); [|discriminate].
  destruct (Nord.positions account !! marketId) as [position|]; [|discriminate].
  destruct (Nord.pos_size position =? Fin 0)%js; [discriminate|].
  intros [= <-]. repeat split.
Qed.

(** X23.  When the handler stands aside.  An update for a market that is
    not active, or with a book that fails the health check, has no effect:
    nothing is recorded and the state is as it was.  For an active market
    with a healthy book: when the [fetchInfo] of the risk check throws, the
    handler has called [fetchInfo] and done nothing else, and the account
    stays as it was; when [getLeverage] throws, or [canQuote] denies on the
    fetched account, the handler places no order, cancels none and writes
    neither quote map, and the fetched account replaces the old one. *)
Theorem handleOrderbookUpdate_guards CONFIG w st orderbook :
  let marketId := Nord.ob_marketId orderbook in
  let r := handleOrderbookUpdate CONFIG w st orderbook in
  (activeMarkets st !! marketId = None \/ Spread.isOrderbookHealthy orderbook = false ->
   r = (st, []))
  /\ (is_Some (activeMarkets st !! marketId) ->
      Spread.isOrderbookHealthy orderbook = true ->
      (forall message, riskFetched w = inl message -> r = (st, [FetchInfo]))
      /\ (forall account,
            riskFetched w = inr account ->
            is_Some (leverageError w)
            \/ Risk.canTrade (Risk.canQuote CONFIG (inr account) marketId) = false ->
            Forall (fun e => changesQuotes e = false) (snd r)
            /\ user (fst r) = account
            /\ activeMarkets (fst r) = activeMarkets st
            /\ currentQuotes (fst r) = currentQuotes st
            /\ lastQuotePrices (fst r) = lastQuotePrices st)).
Proof.
  cbn zeta. unfold handleOrderbookUpdate. split.
  - intros [H|H]; [rewrite H; reflexivity|].
    rewrite H. destruct (activeMarkets st !! _); reflexivity.
  - intros [market Hm] Hh. rewrite Hm, Hh. cbn [negb]. split.
    + intros message Hf. rewrite Hf. reflexivity.
    + intros account Hf Hdeny. rewrite Hf.
      destruct (leverageError w) as [message|].
      * cbn. repeat split. repeat constructor.
      * destruct Hdeny as [[x Hx]|Hdeny]; [discriminate|].
        rewrite Hdeny. cbn. repeat split. repeat constructor.
Qed.

(** X24.  The venue calls of one update.  If the handler calls the venue at
    all, the first call is the [fetchInfo] of the risk check; then come the
    calls of the quote cycle, whose orders are all quote orders of the
    book's market (limit, priced, not reduce-only); then at most one hedge
    order, which is a reduce-only market order without a price on the same
    market and is sent only with [autoHedge.enabled]. *)
Theorem handleOrderbookUpdate_calls CONFIG w st orderbook :
  let marketId := Nord.ob_marketId orderbook in
  let trace := snd (handleOrderbookUpdate CONFIG w st orderbook) in
  trace = []
  \/ exists quoted hedged,
       trace = FetchInfo :: quoted ++ hedged
       /\ (forall order, PlaceOrder order ∈ quoted -> isQuoteOrder marketId order)
       /\ (hedged = []
           \/ exists order,
                hedged = [PlaceOrder order]
                /\ isHedgeOrder marketId order
                /\ Config.autoHedge_enabled (Config.autoHedge CONFIG) = true).
Proof.
  cbn zeta. unfold handleOrderbookUpdate.
  destruct (activeMarkets st !! _); [|left; reflexivity].
  destruct (negb (Spread.isOrderbookHealthy orderbook)); [left; reflexivity|].
  right.
  destruct (negb (Risk.canTrade _)).
  { exists [], []. cbn [snd]. split; [reflexivity|]. split; [|left; reflexivity].
    intros order H. inversion H. }
  set (st1 := match riskFetched w with inl _ => st | inr account => _ end).
  pose proof (requote_places_quotes CONFIG (requoteWorld w) st1
                (Nord.ob_marketId orderbook) orderbook) as Hq.
  destruct (requote CONFIG (requoteWorld w) st1 (Nord.ob_marketId orderbook) orderbook)
    as [st2 quoted].
  cbn [snd] in *. exists quoted. eexists. split; [reflexivity|]. split; [exact Hq|].
  destruct (midAfter w) as [mid|]; [|left; reflexivity].
  destruct (truthy mid && _)%bool; [|left; reflexivity].
  destruct (Hedging.executeHedge CONFIG (user st2) (Nord.ob_marketId orderbook) mid)
    as [order|] eqn:E; [|left; reflexivity].
  right. exists order. split; [reflexivity|].
  exact (executeHedge_shape CONFIG (user st2) (Nord.ob_marketId orderbook) mid order E).
Qed.

Lemma handleOrderbookUpdate_guards_witness :
  Spread.isOrderbookHealthy Examples2.book_thin = false
  /\ handleOrderbookUpdate Examples2.config_hedge Examples2.handler_world
       (Examples.state_with ∅) Examples2.book_thin
     = (Examples.state_with ∅, []).
Proof.
  split; [reflexivity|].
  apply (proj1 (handleOrderbookUpdate_guards Examples2.config_hedge Examples2.handler_world
                  (Examples.state_with ∅) Examples2.book_thin)).
  right. reflexivity.
Defined.

Lemma handleOrderbookUpdate_calls_witness :
  let trace := snd (handleOrderbookUpdate Examples2.config_hedge Examples2.handler_world
                      (Examples.state_with ∅) Examples.book_balanced) in
  trace <> []
  /\ (trace = []
      \/ exists quoted hedged,
           trace = FetchInfo :: quoted ++ hedged
           /\ (forall order, PlaceOrder order ∈ quoted -> isQuoteOrder 1 order)
           /\ (hedged = []
               \/ exists order,
                    hedged = [PlaceOrder order]
                    /\ isHedgeOrder 1 order
                    /\ Config.autoHedge_enabled (Config.autoHedge Examples2.config_hedge)
                       = true)).
Proof.
  cbn zeta. split; [vm_compute; discriminate|].
  exact (handleOrderbookUpdate_calls Examples2.config_hedge Examples2.handler_world
           (Examples.state_with ∅) Examples.book_balanced).
Defined.

End Handler.

(** ** The backtest engine *)

Section Fills.
Import Backtest.

Lemma fillOrder_pnl e order bar :
  exists pnls,
    balance (fst (fillOrder e order bar)) = fold_left nadd pnls (balance e)
    /\ realizedPnl (position (fst (fillOrder e order bar)))
       = fold_left nadd pnls (realizedPnl (position e))
    /\ unrealizedPnl (position (fst (fillOrder e order bar))) = unrealizedPnl (position e).
Proof.
  unfold fillOrder. cbv zeta.
  match goal with
  | |- context [if ?c then (nadd (realizedPnl (position e)) ?p, _) else _] =>
      destruct c; [exists [p] | exists []]
  end; split_ifs; cbn; repeat split.
Qed.

Lemma fillOrder_swept e order bar :
  filled order = false -> sweptOrder bar order (snd (fillOrder e order bar)).
Proof.
  intros Hf. right. split; [exact Hf|].
  unfold fillOrder. repeat match goal with |- context [let '(_, _) := ?x in _] => destruct x end.
  reflexivity.
Qed.

(** X25.  One sweep of [checkFills], for any sequence of random draws.
    The balance and the realized PnL receive the same amounts in the same
    order: there is a list of amounts that, added one after the other to
    the balance, gives the new balance and, added to the realized PnL,
    gives the new realized PnL.  The unrealized PnL is not touched.  The
    order list keeps its length and its orders, each either left exactly
    as it was or, if it was unfilled, marked filled at its own price and
    the bar's timestamp.  An order that was filled before the sweep is
    never changed. *)
Theorem checkFills_sweep e orders bar draws :
  let e' := fst (checkFills e orders bar draws) in
  let orders' := snd (checkFills e orders bar draws) in
  (exists pnls,
     balance e' = fold_left nadd pnls (balance e)
     /\ realizedPnl (position e') = fold_left nadd pnls (realizedPnl (position e)))
  /\ unrealizedPnl (position e') = unrealizedPnl (position e)
  /\ Forall2 (sweptOrder bar) orders orders'
  /\ Forall2 (fun order order' => filled order = true -> order' = order) orders orders'.
Proof.
  cbn zeta. revert e draws.
  induction orders as [|order rest IH]; intros e draws.
  { cbn. split; [exists []; split; reflexivity|]. repeat split; constructor. }
  assert (Hid : Forall2 (sweptOrder bar) (order :: rest) (order :: rest)).
  { apply Forall2_same_length_lookup_2; [reflexivity|].
    intros i x y Hx Hy. left. congruence. }
  assert (Hid2 : Forall2 (fun o o' => filled o = true -> o' = o) (order :: rest) (order :: rest)).
  { apply Forall2_same_length_lookup_2; [reflexivity|].
    intros i x y Hx Hy _. congruence. }
  cbn [checkFills]. destruct (filled order) eqn:Ef.
  - specialize (IH e draws).
    destruct (checkFills e rest bar draws) as [e' rest']. cbn [fst snd] in *.
    destruct IH as (H1 & H2 & H3 & H4). split; [exact H1|]. split; [exact H2|]. split.
    + constructor; [left; reflexivity|exact H3].
    + constructor; [reflexivity|exact H4].
  - destruct draws as [|u draws'].
    { cbn [fst snd]. split; [exists []; split; reflexivity|]. repeat split; assumption. }
    destruct (u <? calculateFillProbability order bar)%js.
    + pose proof (fillOrder_pnl e order bar) as (pnls1 & F1 & F2 & F3).
      pose proof (fillOrder_swept e order bar Ef) as F4.
      destruct (fillOrder e order bar) as [e1 order']. cbn [fst snd] in *.
      specialize (IH e1 draws').
      destruct (checkFills e1 rest bar draws') as [e' rest']. cbn [fst snd] in *.
      destruct IH as ((pnls2 & G1 & G2) & H2 & H3 & H4). split; [|split; [|split]].
      * exists (pnls1 ++ pnls2). rewrite !fold_left_app, <- F1, <- F2. split; assumption.
      * congruence.
      * constructor; assumption.
      * constructor; [congruence|exact H4].
    + specialize (IH e draws').
      destruct (checkFills e rest bar draws') as [e' rest']. cbn [fst snd] in *.
      destruct IH as (H1 & H2 & H3 & H4). split; [exact H1|]. split; [exact H2|]. split.
      * constructor; [left; reflexivity|exact H3].
      * constructor; [reflexivity|exact H4].
Qed.

Lemma checkFills_sweep_witness :
  let e := Examples.engine_holding 1 100 in
  let orders := [Examples.backtest_order ask 101 0.5; Examples.backtest_order bid 99 0.5] in
  let bar := Examples.bar_at 60 98 102 100 in
  let draws := [Fin 0.5; Fin 0.9] in
  let e' := fst (checkFills e orders bar draws) in
  let orders' := snd (checkFills e orders bar draws) in
  filled <$> orders' = [true; false]
  /\ (balance e' == Fin 10000.5)%js
  /\ (exists pnls,
        balance e' = fold_left nadd pnls (balance e)
        /\ realizedPnl (position e') = fold_left nadd pnls (realizedPnl (position e)))
  /\ unrealizedPnl (position e') = unrealizedPnl (position e)
  /\ Forall2 (sweptOrder bar) orders orders'
  /\ Forall2 (fun order order' => filled order = true -> order' = order) orders orders'.
Proof.
  cbn zeta. split; [vm_compute; reflexivity|]. split; [vm_compute; reflexivity|].
  exact (checkFills_sweep (Examples.engine_holding 1 100)
           [Examples.backtest_order ask 101 0.5; Examples.backtest_order bid 99 0.5]
           (Examples.bar_at 60 98 102 100) [Fin 0.5; Fin 0.9]).
Defined.

(** X27.  Marking against realizing.  For a position of size [s] other than
    zero, [updateUnrealizedPnl] at the price [c] sets the unrealized PnL to
    [|s| * (c - entry)], long or short: a short position is marked as if it
    were long.  Closing a short in full by a bid at that same price [c]
    realizes [|s| * (entry - c)], the opposite of what was marked. *)
Theorem updateUnrealizedPnl_mark e order bar (s p0 c : Q) :
  pos_size (position e) = Fin s -> entryPrice (position e) = Fin p0 ->
  ~ s == 0 ->
  exists u,
    unrealizedPnl (position (updateUnrealizedPnl e (Fin c))) = Fin u
    /\ u == Qabs s * (c - p0)
    /\ (s < 0 -> order_side order = bid -> size order = Fin (- s) -> price order = Fin c ->
        exists r,
          realizedPnl (position (fst (fillOrder e order bar)))
          = (realizedPnl (position e) + Fin r)%js
          /\ balance (fst (fillOrder e order bar)) = (balance e + Fin r)%js
          /\ pos_size (position (fst (fillOrder e order bar))) = Fin 0
          /\ r == - u).
Proof.
  intros Hs Hp0 Hnz. unfold updateUnrealizedPnl. rewrite Hs, Hp0.
  cbn [position neqb ngtb nltb unrealizedPnl nsub nneg nadd nmul].
  assert (E0 : Qeq_bool s 0 = false) by (apply Qeq_bool_false; exact Hnz).
  rewrite E0.
  destruct (Qltb 0 s) eqn:El.
  - apply Qltb_lt in El. eexists. split; [reflexivity|].
    split; [rewrite Qabs_pos by lra; ring|]. intros Hneg. lra.
  - apply Qltb_ge in El. assert (Hneg : s < 0) by lra.
    eexists. split; [reflexivity|]. split; [rewrite Qabs_neg by lra; ring|].
    intros _ Hside Hq Hp. unfold fillOrder. rewrite Hs, Hp0, Hq, Hp, Hside.
    cbn [nneg nadd nsub nmul ndiv nabs nmin nsign neqb nltb ngtb negb andb orb].
    assert (E1 : Qltb 0 s = false) by (apply Qltb_ge; lra).
    assert (E2 : Qltb s 0 = true) by (apply Qltb_lt; lra).
    assert (E3 : Qltb 0 (- s) = true) by (apply Qltb_lt; lra).
    assert (E4 : Qeq_bool (s + - s) 0 = true) by (apply Qeq_bool_iff; ring).
    assert (E5 : Qltb (Qabs (- s)) (Qabs s) = false).
    { apply Qltb_ge. rewrite Qabs_opp. lra. }
    rewrite E1, E2, E3, E4, E5. cbn [andb orb fst snd position pos_size realizedPnl balance].
    eexists. split; [reflexivity|]. split; [reflexivity|]. split; [reflexivity|].
    rewrite Qabs_neg by lra. ring.
Qed.

Lemma updateUnrealizedPnl_mark_witness :
  let e := Examples.engine_holding (-2) 100 in
  exists u,
    unrealizedPnl (position (updateUnrealizedPnl e (Fin 90))) = Fin u
    /\ u == Qabs (-2) * (90 - 100).
Proof.
  destruct (updateUnrealizedPnl_mark (Examples.engine_holding (-2) 100)
              (Examples.backtest_order bid 90 2) (Examples.bar_at 60 89 101 95)
              (-2) 100 90) as (u & Hu & Hval & _); try reflexivity.
  - vm_compute. discriminate.
  - exists u. split; assumption.
Defined.

(** X28.  The fill probability on a well-formed bar.  The result is always
    one of 0.8, 0.3 and 0.05.  On a bar with finite [low <= close <= high]
    and an order of finite price it is 0.8 when the bar touched the price
    (the low is at or below a bid, the high at or above an ask) and 0.05
    otherwise: the 0.3 case needs a close beyond a price that the bar's
    range did not reach, and does not occur. *)
Theorem calculateFillProbability_touch order bar :
  (calculateFillProbability order bar = Fin 0.8
   \/ calculateFillProbability order bar = Fin 0.3
   \/ calculateFillProbability order bar = Fin 0.05)
  /\ forall l h c p : Q,
       low bar = Fin l -> high bar = Fin h -> close bar = Fin c -> price order = Fin p ->
       l <= c -> c <= h ->
       calculateFillProbability order bar
       = match order_side order with
         | bid => if Qle_bool l p then Fin 0.8 else Fin 0.05
         | ask => if Qle_bool p h then Fin 0.8 else Fin 0.05
         end.
Proof.
  unfold calculateFillProbability. split.
  - destruct (order_side order); split_ifs; auto.
  - intros l h c p Hl Hh Hc Hp Hlc Hch. rewrite Hl, Hh, Hc, Hp.
    destruct (order_side order); cbn [nleb ngeb nltb ngtb].
    + destruct (Qle_bool l p) eqn:E; [reflexivity|].
      apply Qle_bool_false in E.
      assert (E' : Qltb c p = false) by (apply Qltb_ge; lra).
      rewrite E'. reflexivity.
    + destruct (Qle_bool p h) eqn:E; [reflexivity|].
      apply Qle_bool_false in E.
      assert (E' : Qltb p c = false) by (apply Qltb_ge; lra).
      rewrite E'. reflexivity.
Qed.

Lemma calculateFillProbability_touch_witness :
  calculateFillProbability (Examples.backtest_order bid 97 1) (Examples.bar_at 60 98 102 100)
  = Fin 0.05
  /\ calculateFillProbability (Examples.backtest_order ask 101 1) (Examples.bar_at 60 98 102 100)
     = Fin 0.8.
Proof.
  split.
  - exact (proj2 (calculateFillProbability_touch (Examples.backtest_order bid 97 1)
                    (Examples.bar_at 60 98 102 100))
             98 102 100 97 eq_refl eq_refl eq_refl eq_refl
             ltac:(vm_compute; discriminate) ltac:(vm_compute; discriminate)).
  - exact (proj2 (calculateFillProbability_touch (Examples.backtest_order ask 101 1)
                    (Examples.bar_at 60 98 102 100))
             98 102 100 101 eq_refl eq_refl eq_refl eq_refl
             ltac:(vm_compute; discriminate) ltac:(vm_compute; discriminate)).
Defined.

End Fills.

(** ** Drawdown *)

Section Drawdown.

Lemma drawdown_bounds (pk q : Q) :
  0 < q -> q <= pk -> 0 <= (pk + - q) / pk /\ (pk + - q) / pk < 1.
Proof.
  intros Hq Hle. assert (Hpk : 0 < pk) by lra. split.
  - apply Qle_shift_div_l; lra.
  - apply Qlt_shift_div_r; lra.
Qed.

Lemma drawdown_loops_agree (rest : list Q) :
  Forall (fun q => 0 < q) rest ->
  forall (s : Metrics.Loop) (i : nat) (d pk : Q),
    Metrics.l_maxDrawdown s = Fin d -> Metrics.peak s = Fin pk ->
    0 <= d -> d < 1 -> 0 < pk ->
    exists d',
      Metrics.l_maxDrawdown (Metrics.riskLoop s i (Fin <$> rest)) = Fin d'
      /\ fst (fold_left Backtest.maxDrawdownStep (Fin <$> rest) (Fin d, Fin pk)) = Fin d'
      /\ 0 <= d' /\ d' < 1.
Proof.
  induction 1 as [|q rest Hq Hrest IH]; intros s i d pk Hd Hpk Hd0 Hd1 Hpk0.
  { exists d. cbn. auto. }
  cbn [fmap list_fmap Metrics.riskLoop fold_left].
  unfold Metrics.riskStep, Backtest.maxDrawdownStep. rewrite Hpk.
  set (c := (Metrics.currentDrawdown s >? Fin 0)%js).
  cbn [ngtb nltb nsub nneg nadd ndiv].
  destruct (Qltb pk q) eqn:El; cbn [ngtb nltb nsub nneg nadd ndiv].
  - assert (Eq : Qeq_bool q 0 = false) by (apply Qeq_bool_false; lra).
    rewrite Eq. cbn [nltb].
    assert (Ez : Qltb d ((q + - q) / q) = false).
    { apply Qltb_ge. assert (H0 : (q + - q) / q == 0) by (field; lra). lra. }
    rewrite Ez.
    destruct c; apply IH; cbn; auto.
  - apply Qltb_ge in El.
    assert (Eq : Qeq_bool pk 0 = false) by (apply Qeq_bool_false; lra).
    rewrite Eq, Hd. cbn [nmax nltb].
    destruct (drawdown_bounds pk q Hq El) as [Hb0 Hb1].
    destruct (Qltb d ((pk + - q) / pk)) eqn:Ed; apply IH; cbn; auto.
Qed.

(** X29.  The two max-drawdown computations.  On an equity curve of finite
    positive values, the loop of [calculateRiskMetrics] and the loop of the
    engine's [calculateMetrics] return the same maximum drawdown, a number
    in [[0, 1)].  Positivity matters: on the one-point curve [[0]] the
    engine reports 0 and [calculateRiskMetrics] reports [NaN], because
    [Math.max] keeps a [NaN] that the comparison [>] skips. *)
Theorem maxDrawdown_agree (qs : list Q) :
  (Forall (fun q => 0 < q) qs ->
   exists d,
     Metrics.maxDrawdown (Metrics.calculateRiskMetrics (Fin <$> qs)) = Fin d
     /\ Backtest.maxDrawdown (Fin <$> qs) = Fin d
     /\ 0 <= d /\ d < 1)
  /\ Metrics.maxDrawdown (Metrics.calculateRiskMetrics [Fin 0]) = NaN
  /\ Backtest.maxDrawdown [Fin 0] = Fin 0.
Proof.
  split; [|split; reflexivity].
  intros Hall. unfold Metrics.calculateRiskMetrics, Backtest.maxDrawdown.
  cbn [Metrics.maxDrawdown].
  destruct qs as [|q0 rest].
  { exists 0. cbn. repeat split; lra. }
  cbn [fmap list_fmap nth].
  inversion Hall as [|? ? Hq0 Hrest]; subst.
  change (Fin q0 :: list_fmap Q num Fin rest) with (Fin <$> (q0 :: rest)).
  apply (drawdown_loops_agree (q0 :: rest) Hall); cbn; try reflexivity; lra.
Qed.

Lemma maxDrawdown_agree_witness :
  exists d,
    Metrics.maxDrawdown (Metrics.calculateRiskMetrics (Fin <$> [100; 120; 90; 130; 117]))
    = Fin d
    /\ Backtest.maxDrawdown (Fin <$> [100; 120; 90; 130; 117]) = Fin d
    /\ 0 <= d /\ d < 1.
Proof.
  apply (proj1 (maxDrawdown_agree [100; 120; 90; 130; 117])).
  repeat constructor.
Defined.

End Drawdown.

(** ** Configuration and sizing *)

Section ConfigSizing.
Import Sizing.

Lemma fold_left_nadd_Fin (qs : list Q) (a : Q) :
  fold_left (fun x y => (x + y)%js) (Fin <$> qs) (Fin a) = Fin (fold_left Qplus qs a).
Proof.
  revert a. induction qs as [|q qs IH]; intros a; [reflexivity|].
  cbn [fmap list_fmap fold_left nadd]. apply IH.
Qed.

Lemma fold_left_Qplus_foldr (qs : list Q) (a : Q) :
  fold_left Qplus qs a == a + foldr Qplus 0 qs.
Proof.
  revert a. induction qs as [|q qs IH]; intros a; cbn [fold_left foldr fold_right].
  - ring.
  - rewrite IH. ring.
Qed.

Lemma validateConfig_sum (config : Config.BotConfig) (qs : list Q) :
  Config.validateConfig config = None ->
  Config.tieredMultipliers config = Fin <$> qs ->
  Qabs (foldr Qplus 0 qs - 1) <= 0.01.
Proof.
  intros H Hqs. unfold Config.validateConfig in H.
  repeat match type of H with
         | context [if ?b then _ else _] => destruct b eqn:?; try discriminate H
         end.
  match goal with
  | E : (nabs _ >? _)%js = false |- _ =>
      rewrite Hqs, fold_left_nadd_Fin in E; cbn [nsub nneg nadd nabs ngtb nltb] in E;
      apply Qltb_ge in E;
      rewrite (Qabs_wd _ (foldr Qplus 0 qs - 1)) in E;
        [exact E | rewrite fold_left_Qplus_foldr; ring]
  end.
Qed.

(** X30.  What an accepted tiered configuration can quote.  For a
    configuration that [validateConfig] accepts, in tiered mode with
    exactly [maxLevels] finite multipliers, none of them negative, and
    finite limits [x = maxExposurePerMarket > 0] and
    [y = maxExposurePerSide], and an account with free collateral
    [f >= 1]: the ladder of [calculateLevelSizes] passes [validateSizes]
    at a price [p >= 0] only if [0.98 * x * p <= y], and it does pass if
    [1.02 * x * p <= y].  The ladder's total size is about [f * x] units
    while the limit is [f * y] in value, so the test caps the price near
    [y / x], whatever the collateral.  (The multipliers may sum to
    anything between 0.99 and 1.01; the statement keeps a distance from
    both ends.) *)
Theorem validateConfig_tiered_cap CONFIG user marketId balance (f x y p : Q) (qs : list Q) :
  Config.validateConfig CONFIG = None ->
  Config.quantityMode CONFIG = Config.tiered ->
  Config.tieredMultipliers CONFIG = Fin <$> qs ->
  Forall (fun q => 0 <= q) qs ->
  length qs = Config.maxLevels CONFIG ->
  Config.maxExposurePerMarket (Config.risk CONFIG) = Fin x ->
  Config.maxExposurePerSide (Config.risk CONFIG) = Fin y ->
  Nord.balances user !! Config.USDC_MINT_INDEX = Some balance ->
  Nord.availableAmount balance = Fin f ->
  1 <= f -> 0 < x -> 0 <= p ->
  (validateSizes CONFIG (calculateLevelSizes CONFIG user marketId) (Fin f) (Fin p) = true ->
   0.98 * x * p <= y)
  /\ (1.02 * x * p <= y ->
      validateSizes CONFIG (calculateLevelSizes CONFIG user marketId) (Fin f) (Fin p) = true).
Proof.
  intros Hok Hmode Hqs _ Hlen Hx Hy Hbal Hf Hf1 Hx0 Hp0.
  assert (Hf0 : 0 < f) by lra.
  pose proof (tiered_validateSizes CONFIG user marketId balance f x y p qs
                Hmode Hqs Hx Hy Hbal Hf Hf0) as Hiff.
  rewrite <- Hlen, firstn_all in Hiff.
  pose proof (validateConfig_sum CONFIG qs Hok Hqs) as Hsum.
  set (S := foldr Qplus 0 qs) in *.
  apply Qabs_Qle_condition in Hsum. destruct Hsum as [Hlo Hhi].
  assert (Hxp : 0 <= x * p) by (apply Qmult_le_0_compat; lra).
  assert (H1 : 0 <= (S - 0.98) * (x * p)) by (apply Qmult_le_0_compat; lra).
  assert (H2 : 0 <= (1.02 - S) * (x * p)) by (apply Qmult_le_0_compat; lra).
  split.
  - intros Hv. apply Hiff in Hv. lra.
  - intros Hle. apply Hiff. lra.
Qed.

Lemma validateConfig_tiered_cap_witness :
  (validateSizes Config.CONFIG
     (calculateLevelSizes Config.CONFIG Examples.user_flat 1) (Fin 10000) (Fin 0.8) = true ->
   0.98 * 0.30 * 0.8 <= 0.25)
  /\ (1.02 * 0.30 * 0.8 <= 0.25 ->
      validateSizes Config.CONFIG
        (calculateLevelSizes Config.CONFIG Examples.user_flat 1) (Fin 10000) (Fin 0.8) = true).
Proof.
  apply (validateConfig_tiered_cap Config.CONFIG Examples.user_flat 1
           (Examples.usdc 10000 10000) 10000 0.30 0.25 0.8 [0.5; 0.3; 0.2]);
    first [reflexivity | vm_compute; reflexivity | vm_compute; discriminate
          | repeat constructor; vm_compute; discriminate].
Defined.

End ConfigSizing.
